(** * Multi-agent RAG system: retrieval and orchestration core

    A shallow embedding of [agents/orchestrator.py] and [agents/rag.py]:
    query classification, text windowing, the two-stage ranking pipeline,
    evidence grouping, the agent fan-out and conflict detection; of
    [agents/web_ingest.py]: the allow-list, text cleaning and page
    selection; and of [agents/llm.py] with [agents/runner.py]: fence
    stripping and the retry loop of the LLM call.

    Conventions.
    - Python [str] is [string]; the character tables below ([lower],
      [isspace], line boundaries, the regex classes) are CPython's for the
      code points 0..127, which is the range the model's texts live in.
    - Python [int] is [Z]; a Python [float] that is finite is the rational
      it denotes, in [Q] (binary64 values are dyadic rationals, and Python
      compares [int] with [float] exactly).
    - A [dict] keeps insertion order, so it is an association list.
    - Code that can raise returns [result]. *)

From Stdlib Require Import List String Ascii Bool Arith ZArith QArith Lia.
From Stdlib Require Import Permutation Sorted.
Import ListNotations.

Local Open Scope string_scope.
Local Open Scope list_scope.
Local Open Scope nat_scope.

(* ================================================================== *)
(** ** Python text primitives *)
(* ================================================================== *)

Module Text.

Definition code (c : ascii) : nat := nat_of_ascii c.

Definition in_range (lo hi : nat) (c : ascii) : bool :=
  (lo <=? code c) && (code c <=? hi).

Definition is_upper (c : ascii) : bool := in_range 65 90 c.
Definition is_lower (c : ascii) : bool := in_range 97 122 c.
Definition is_digit (c : ascii) : bool := in_range 48 57 c.

(** [str.isspace] on one character: TAB..CR, FS..US and SPACE. *)
Definition is_space (c : ascii) : bool :=
  in_range 9 13 c || in_range 28 32 c.

(** The line boundaries of [str.splitlines]: LF, VT, FF, CR, FS, GS, RS. *)
Definition is_linebreak (c : ascii) : bool :=
  in_range 10 13 c || in_range 28 30 c.

(** The class [\w] of [re]. *)
Definition is_word (c : ascii) : bool :=
  is_upper c || is_lower c || is_digit c || (code c =? 95).

Definition lower_char (c : ascii) : ascii :=
  if is_upper c then ascii_of_nat (code c + 32) else c.

Definition upper_char (c : ascii) : ascii :=
  if is_lower c then ascii_of_nat (code c - 32) else c.

(** [str.lower] *)
Fixpoint lower (s : string) : string :=
  match s with
  | EmptyString => EmptyString
  | String c r => String (lower_char c) (lower r)
  end.

(** [str.title]: a cased character is upper-cased after an uncased one
    (or at the start) and lower-cased after a cased one. *)
Fixpoint title_from (prev_cased : bool) (s : string) : string :=
  match s with
  | EmptyString => EmptyString
  | String c r =>
      let cased := is_upper c || is_lower c in
      String (if prev_cased then lower_char c else upper_char c)
             (title_from cased r)
  end.

Definition title (s : string) : string := title_from false s.

(** [s.lstrip()], [s.rstrip()], [s.strip()] *)
Fixpoint lstrip (s : string) : string :=
  match s with
  | EmptyString => EmptyString
  | String c r => if is_space c then lstrip r else s
  end.

Fixpoint rstrip (s : string) : string :=
  match s with
  | EmptyString => EmptyString
  | String c r =>
      match rstrip r with
      | EmptyString => if is_space c then EmptyString else String c EmptyString
      | r' => String c r'
      end
  end.

Definition strip (s : string) : string := rstrip (lstrip s).

(** [s.splitlines()]: cut at every line boundary, CR LF counting as one;
    no empty last line after a final boundary. *)
Fixpoint splitlines_from (cur : string) (s : string) : list string :=
  match s with
  | EmptyString =>
      match cur with EmptyString => [] | _ => [cur] end
  | String c r =>
      if is_linebreak c then
        match r with
        | String c' r' =>
            if (code c =? 13) && (code c' =? 10)
            then cur :: splitlines_from EmptyString r'
            else cur :: splitlines_from EmptyString r
        | EmptyString => cur :: splitlines_from EmptyString r
        end
      else splitlines_from (cur ++ String c EmptyString)%string r
  end.

Definition splitlines (s : string) : list string :=
  splitlines_from EmptyString s.

(** [sep.join(parts)] *)
Fixpoint join (sep : string) (parts : list string) : string :=
  match parts with
  | [] => EmptyString
  | [p] => p
  | p :: rest => (p ++ sep ++ join sep rest)%string
  end.

(** [s[start:stop]] for [0 <= start <= stop]. *)
Definition slice (s : string) (start stop : nat) : string :=
  substring start (stop - start) s.

(** [text[start:]] *)
Definition suffix (text : string) (start : nat) : string :=
  substring start (String.length text - start) text.

Definition newline : string := String (ascii_of_nat 10) EmptyString.

(** Membership in a list of strings: [x in xs]. *)
Definition mem (x : string) (xs : list string) : bool :=
  existsb (String.eqb x) xs.

End Text.

(* ================================================================== *)
(** ** The fragment of [re] the classifier's patterns use *)
(* ================================================================== *)

Module Re.
Import Text.

Inductive atom : Type :=
| Lit (c : ascii)   (* a literal character *)
| Dot               (* [.]  : anything but a newline *)
| Space.            (* [\s] *)

Inductive item : Type :=
| One (a : atom)
| Star (a : atom)   (* [a*] *)
| Plus (a : atom)   (* [a+] *)
| Bound.            (* [\b] *)

Definition regex : Type := list item.

Definition backslash : ascii := ascii_of_nat 92.

(** Reads a pattern as written in the source: [\b], [\s], [.], literal
    characters, and a following [*] or [+]. *)
Fixpoint compile (p : string) : regex :=
  match p with
  | EmptyString => []
  | String c r =>
      if Ascii.eqb c backslash then
        match r with
        | EmptyString => []
        | String e r' =>
            if Ascii.eqb e "b" then Bound :: compile r'
            else
              let a := if Ascii.eqb e "s" then Space else Lit e in
              match r' with
              | String q r'' =>
                  if Ascii.eqb q "*" then Star a :: compile r''
                  else if Ascii.eqb q "+" then Plus a :: compile r''
                  else One a :: compile r'
              | EmptyString => One a :: compile r'
              end
        end
      else
        let a := if Ascii.eqb c "." then Dot else Lit c in
        match r with
        | String q r' =>
            if Ascii.eqb q "*" then Star a :: compile r'
            else if Ascii.eqb q "+" then Plus a :: compile r'
            else One a :: compile r
        | EmptyString => One a :: compile r
        end
  end.

Definition atom_matches (a : atom) (c : ascii) : bool :=
  match a with
  | Lit d => Ascii.eqb c d
  | Dot => negb (code c =? 10)
  | Space => is_space c
  end.

Definition word_opt (c : option ascii) : bool :=
  match c with Some x => is_word x | None => false end.

Definition next_char (s : string) : option ascii :=
  match s with String c _ => Some c | EmptyString => None end.

(** [\b]: exactly one of the two neighbours is a word character. *)
Definition at_boundary (prev : option ascii) (s : string) : bool :=
  xorb (word_opt prev) (word_opt (next_char s)).

(** Does [r] match a prefix of [s], [prev] being the character before? *)
Fixpoint match_here (r : regex) : option ascii -> string -> bool :=
  match r with
  | [] => fun _ _ => true
  | One a :: r' =>
      fun _ s =>
        match s with
        | String c s' => atom_matches a c && match_here r' (Some c) s'
        | EmptyString => false
        end
  | Star a :: r' =>
      fix star (prev : option ascii) (s : string) : bool :=
        match_here r' prev s
        || match s with
           | String c s' => atom_matches a c && star (Some c) s'
           | EmptyString => false
           end
  | Plus a :: r' =>
      fun _ s =>
        match s with
        | String c s' =>
            atom_matches a c
            && (fix star (prev : option ascii) (s : string) : bool :=
                  match_here r' prev s
                  || match s with
                     | String c s' => atom_matches a c && star (Some c) s'
                     | EmptyString => false
                     end) (Some c) s'
        | EmptyString => false
        end
  | Bound :: r' =>
      fun prev s => at_boundary prev s && match_here r' prev s
  end.

Fixpoint search_from (r : regex) (prev : option ascii) (s : string) : bool :=
  match_here r prev s
  || match s with
     | String c s' => search_from r (Some c) s'
     | EmptyString => false
     end.

(** [re.search(p, s)] as a truth value. *)
Definition search (p : string) (s : string) : bool :=
  search_from (compile p) None s.

End Re.

(* ================================================================== *)
(** ** agents/orchestrator.py: query classification *)
(* ================================================================== *)

Module Classifier.
Import Text.

Definition _TRAVEL_PATTERNS : list string := [
  "\btrip\b"; "\btravel\b"; "\bflight\b"; "\bfly\b"; "\btrain\b";
  "\bbus\b"; "\broute\b"; "\bhotel\b"; "\bstay\b"; "\bbook\b";
  "\bitinerary\b"; "\bvisit\b"; "\btour\b"; "\bvacation\b";
  "\bfrom\b.*\bto\b"; "\bdestination\b"; "\bhostel\b"; "\bresort\b";
  "\bairbnb\b"; "\baccommodation\b"; "\bplan\s+a\s+trip\b"
].

Definition _HEALTH_PATTERNS : list string := [
  "\bdoctor\b"; "\bhealth\b"; "\bmedical\b"; "\bdisease\b";
  "\bsymptom\b"; "\btreatment\b"; "\bdiagnos\b"; "\bspecialist\b";
  "\bhospital\b"; "\bpain\b"; "\bfever\b"; "\bcough\b";
  "\bheart\b"; "\bdiabet\b"; "\bcancer\b"; "\bskin\b";
  "\beye\b"; "\bdental\b"; "\bmental\b"; "\bdepression\b";
  "\banxiety\b"; "\bwellness\b"; "\bnutrition\b"; "\bdiet\b";
  "\bsurger\b"; "\btherapy\b"; "\binfection\b"; "\ballerg\b";
  "\bbone\b"; "\bjoint\b"; "\bheadache\b"; "\bmigraine\b";
  "\bblood\s*pressure\b"; "\bcholesterol\b"; "\blung\b"; "\bkidney\b"
].

Definition _FINANCE_PATTERNS : list string := [
  "\bbudget\b"; "\bfinance\b"; "\binvest\b"; "\bsaving\b";
  "\bmoney\b"; "\bcost\b"; "\bafford\b"; "\bexpense\b";
  "\btax\b"; "\bloan\b"; "\binsurance\b"; "\bretirement\b"
].

(** [sum(1 for p in patterns if re.search(p, msg))] *)
Definition score (patterns : list string) (msg : string) : nat :=
  List.length (filter (fun p => Re.search p msg) patterns).

(** The tail of [classify_query], from the three scores on. *)
Definition route (travel_score health_score finance_score : nat)
  : list string :=
  let agents := [] in
  let agents := if 1 <=? travel_score then agents ++ ["travel"] else agents in
  let agents := if 1 <=? health_score then agents ++ ["health"] else agents in
  let agents :=
    if 1 <=? finance_score then agents ++ ["financial"] else agents in
  let agents :=
    if mem "travel" agents && negb (mem "financial" agents)
    then agents ++ ["financial"] else agents in
  let agents :=
    match agents with
    | [] => ["travel"; "financial"; "health"]
    | _ => agents
    end in
  agents.

Definition classify_query (message : string) : list string :=
  let msg := lower message in
  let travel_score := score _TRAVEL_PATTERNS msg in
  let health_score := score _HEALTH_PATTERNS msg in
  let finance_score := score _FINANCE_PATTERNS msg in
  route travel_score health_score finance_score.

(** No topic pattern matches the lower-cased message. *)
Definition no_topic_matches (message : string) : bool :=
  forallb (fun p => negb (Re.search p (lower message)))
          (_TRAVEL_PATTERNS ++ _HEALTH_PATTERNS ++ _FINANCE_PATTERNS).

(** [order] restricted to the names that occur in [l]. *)
Definition restrict (order l : list string) : list string :=
  filter (fun a => mem a l) order.

End Classifier.

(* ================================================================== *)
(** ** Exceptions *)
(* ================================================================== *)

(** The outcome of code that may raise: [Raise msg] carries [str(exc)]. *)
Inductive result (A : Type) : Type :=
| Ok (a : A)
| Raise (msg : string).

Arguments Ok {A} a.
Arguments Raise {A} msg.

Definition bind {A B : Type} (r : result A) (k : A -> result B) : result B :=
  match r with
  | Ok a => k a
  | Raise msg => Raise msg
  end.

(** [try: body / except Exception: handler] *)
Definition try_except {A : Type} (body : result A) (handler : string -> result A)
  : result A :=
  match body with
  | Ok a => Ok a
  | Raise msg => handler msg
  end.

Notation "x <- r ;; k" := (bind r (fun x => k))
  (at level 61, r at next level, right associativity).

(** [l[:k]] for a Python [int] [k]: a negative [k] counts from the end. *)
Definition py_prefix {A : Type} (l : list A) (k : Z) : list A :=
  if (0 <=? k)%Z then firstn (Z.to_nat k) l
  else firstn (Z.to_nat (Z.of_nat (List.length l) + k)) l.

(* ================================================================== *)
(** ** agents/rag.py *)
(* ================================================================== *)

Module Rag.
Import Text.

Record RankedChunk : Type := mkRankedChunk {
  url : string;
  title : option string;
  text : string;
  score : Q
}.

Definition set_score (c : RankedChunk) (s : Q) : RankedChunk :=
  mkRankedChunk (url c) (title c) (text c) s.

(** A fetched page, with the defaults of [doc.get] applied. *)
Record document : Type := mkDocument {
  doc_url : string;
  doc_title : option string;
  doc_text : string
}.

(** The ranking models, which live outside the repository.  Loading a
    model can raise (the package is not installed) and so can scoring. *)
Record models : Type := mkModels {
  (** [_get_bi_encoder()], then the similarities of the query to the texts *)
  get_bi_encoder : result (string -> list string -> result (list Q));
  (** [TfidfVectorizer] and [cosine_similarity] of the texts to the query *)
  tfidf_similarity : string -> list string -> result (list Q);
  (** [_get_cross_encoder()], then [predict] on (query, text) pairs *)
  get_cross_encoder : result (list (string * string) -> result (list Q))
}.

(** *** [_chunk_text] *)

(** The text after the first statement of [_chunk_text]. *)
Definition clean_lines (text : string) : string :=
  join newline
    (map strip
       (filter (fun line => negb (String.eqb (strip line) EmptyString))
               (splitlines text))).

(** The [while] loop; [None] when the fuel does not suffice.  [max_chars]
    is a count: the repository passes 900 everywhere, and with 0 the
    Python loop never ends, which is the [None] here. *)
Fixpoint chunk_loop (fuel : nat) (text : string) (max_chars : nat)
         (start : nat) (chunks : list string) : option (list string) :=
  if start <? String.length text then
    match fuel with
    | O => None
    | S fuel' =>
        let stop := Nat.min (String.length text) (start + max_chars) in
        chunk_loop fuel' text max_chars stop (chunks ++ [slice text start stop])
    end
  else Some chunks.

Definition _chunk_text (text : string) (max_chars : nat)
  : option (list string) :=
  let text := clean_lines text in
  if String.eqb text EmptyString then Some []
  else chunk_loop (String.length text) text max_chars 0 [].

(** [_chunk_text(text)] with the default [max_chars=900], which always
    returns (see [chunk_text_returns]). *)
Definition windows (text : string) : list string :=
  match _chunk_text text 900 with
  | Some chunks => chunks
  | None => []
  end.

(** *** Sorting by score, best first *)

(** [sorted(l, key=lambda x: x.score, reverse=True)]: stable, equal scores
    keep their order. *)
Fixpoint insert_desc (x : RankedChunk) (l : list RankedChunk)
  : list RankedChunk :=
  match l with
  | [] => [x]
  | y :: l' =>
      if Qle_bool (score y) (score x) then x :: l
      else y :: insert_desc x l'
  end.

Definition sort_desc (l : list RankedChunk) : list RankedChunk :=
  fold_right insert_desc [] l.

Definition chunk : Type := (string * option string * string)%type.

(** [[RankedChunk(u, t, tx, float(s)) for (u, t, tx), s in zip(chunks, scores)]] *)
Definition attach (chunks : list chunk) (scores : list Q) : list RankedChunk :=
  map (fun cs : chunk * Q =>
         let '(u, t, tx, s) := cs in mkRankedChunk u t tx s)
      (combine chunks scores).

Definition chunk_text (c : chunk) : string := snd c.

Definition _bi_encoder_rank (m : models) (query : string)
           (chunks : list chunk) (top_k : Z) : result (list RankedChunk) :=
  model <- get_bi_encoder m ;;
  scores <- model query (map chunk_text chunks) ;;
  let ranked := sort_desc (attach chunks scores) in
  Ok (py_prefix ranked top_k).

Definition _tfidf_rank (m : models) (query : string)
           (chunks : list chunk) (top_k : Z) : result (list RankedChunk) :=
  sims <- tfidf_similarity m query (map chunk_text chunks) ;;
  let ranked := sort_desc (attach chunks sims) in
  Ok (py_prefix ranked top_k).

(** [for c, s in zip(candidates, scores): c.score = float(s)] *)
Fixpoint assign_scores (candidates : list RankedChunk) (scores : list Q)
  : list RankedChunk :=
  match candidates, scores with
  | c :: cs, s :: ss => set_score c s :: assign_scores cs ss
  | _, _ => candidates
  end.

Definition _cross_encoder_rerank (m : models) (query : string)
           (candidates : list RankedChunk) (top_k : Z)
  : result (list RankedChunk) :=
  try_except
    (reranker <- get_cross_encoder m ;;
     let pairs := map (fun c => (query, text c)) candidates in
     scores <- reranker pairs ;;
     let candidates := assign_scores candidates scores in
     let candidates := sort_desc candidates in
     Ok (py_prefix candidates top_k))
    (fun _ => Ok (py_prefix candidates top_k)).

(** The chunk list [rank_chunks] builds from the documents. *)
Definition all_chunks (docs : list document) : list chunk :=
  flat_map (fun doc =>
              map (fun ch => (doc_url doc, doc_title doc, ch))
                  (windows (doc_text doc)))
           docs.

(** Stage 1 of [rank_chunks]: the bi-encoder, and TF-IDF when it raises. *)
Definition initial_retrieval (m : models) (query : string)
           (chunks : list chunk) (top_k : Z) : result (list RankedChunk) :=
  let k := Z.min (Z.of_nat (List.length chunks)) (top_k * 3) in
  try_except (_bi_encoder_rank m query chunks k)
             (fun _ => _tfidf_rank m query chunks k).

Definition rank_chunks (m : models) (query : string)
           (docs : list document) (top_k : Z) : result (list RankedChunk) :=
  let chunks := all_chunks docs in
  match chunks with
  | [] => Ok []
  | _ =>
      candidates <- initial_retrieval m query chunks top_k ;;
      _cross_encoder_rerank m query candidates top_k
  end.

(** The shape of a window list: every window but the last has exactly
    [max_chars] characters, the last has between 1 and [max_chars]. *)
Fixpoint windows_ok (max_chars : nat) (ws : list string) : Prop :=
  match ws with
  | [] => True
  | w :: rest =>
      match rest with
      | [] => 1 <= String.length w <= max_chars
      | _ :: _ => String.length w = max_chars /\ windows_ok max_chars rest
      end
  end.

(** A text of whitespace only. *)
Fixpoint blank (s : string) : bool :=
  match s with
  | EmptyString => true
  | String c r => is_space c && blank r
  end.

(** A text without a line boundary. *)
Fixpoint one_line (s : string) : bool :=
  match s with
  | EmptyString => true
  | String c r => negb (is_linebreak c) && one_line r
  end.

(** After the spec's words "collapse runs of whitespace": what they leave
    of a text, whatever a run is collapsed to, has no two whitespace
    characters in a row. *)
Fixpoint spec_runs_collapsed (s : string) : bool :=
  match s with
  | EmptyString => true
  | String c r =>
      match r with
      | String c' _ => negb (is_space c && is_space c') && spec_runs_collapsed r
      | EmptyString => true
      end
  end.

(** The precision reranker is unavailable, or its scoring raises. *)
Definition reranker_fails (m : models) (query : string)
           (candidates : list RankedChunk) : Prop :=
  (exists msg, get_cross_encoder m = Raise msg)
  \/ (exists reranker msg,
        get_cross_encoder m = Ok reranker
        /\ reranker (map (fun c => (query, text c)) candidates) = Raise msg).

(** [a] may stand before [b] in a ranked list. *)
Definition ge_score (a b : RankedChunk) : Prop := (score b <= score a)%Q.

(** Scores do not go up along the list. *)
Definition non_increasing (l : list RankedChunk) : Prop :=
  forall i j a b,
    i <= j -> nth_error l i = Some a -> nth_error l j = Some b ->
    (score b <= score a)%Q.

End Rag.

(* ================================================================== *)
(** ** Dictionaries and JSON values *)
(* ================================================================== *)

Module Dict.

(** A [dict] with [str] keys, in insertion order. *)
Definition dict (V : Type) : Type := list (string * V).

Section Ops.
Context {V : Type}.

(** [d.get(k)] *)
Fixpoint get (k : string) (d : dict V) : option V :=
  match d with
  | [] => None
  | (k', v) :: rest => if String.eqb k k' then Some v else get k rest
  end.

(** [d[k] = v]: a key that is present keeps its place. *)
Fixpoint set (k : string) (v : V) (d : dict V) : dict V :=
  match d with
  | [] => [(k, v)]
  | (k', v') :: rest =>
      if String.eqb k k' then (k, v) :: rest else (k', v') :: set k v rest
  end.

(** [d.get(k, default)] *)
Definition get_or (k : string) (default : V) (d : dict V) : V :=
  match get k d with Some v => v | None => default end.

Definition keys (d : dict V) : list string := map fst d.
Definition values (d : dict V) : list V := map snd d.
End Ops.

End Dict.

Import Dict.

#[local] Set Warnings "-register-all".

(** What [json.loads] produces (finite numbers). *)
Inductive value : Type :=
| VNone
| VBool (b : bool)
| VInt (z : Z)
| VFloat (q : Q)
| VStr (s : string)
| VList (l : list value)
| VDict (d : list (string * value)).

(* ================================================================== *)
(** ** agents/orchestrator.py: evidence and conflicts *)
(* ================================================================== *)

Module Orchestrator.
Import Text Rag Classifier.

Record EvidenceItem : Type := mkEvidenceItem {
  ev_url : string;
  ev_title : option string;
  snippets : list string
}.

(** One turn of the loop of [_to_evidence].  [setdefault] returns the
    item stored under the url, and the append changes that stored item. *)
Definition evidence_step (by_url : dict EvidenceItem) (ch : RankedChunk)
  : dict EvidenceItem :=
  let '(item, by_url) :=
    match get (url ch) by_url with
    | Some item => (item, by_url)
    | None =>
        let fresh := mkEvidenceItem (url ch) (title ch) [] in
        (fresh, by_url ++ [(url ch, fresh)])
    end in
  if List.length (snippets item) <? 6 then
    set (url ch)
        (mkEvidenceItem (ev_url item) (ev_title item)
                        (snippets item ++ [text ch]))
        by_url
  else by_url.

Definition _to_evidence (chunks : list RankedChunk) : list EvidenceItem :=
  let by_url := fold_left evidence_step chunks [] in
  values by_url.

(** The chunks of one url, in the order they came. *)
Definition of_url (k : string) (chunks : list RankedChunk)
  : list RankedChunk :=
  filter (fun ch => String.eqb (url ch) k) chunks.

(** The item a url is grouped into: the title of its first chunk and the
    texts of its first six. *)
Definition grouped (k : string) (chunks : list RankedChunk)
  : option EvidenceItem :=
  match of_url k chunks with
  | [] => None
  | c :: _ =>
      Some (mkEvidenceItem k (title c)
                           (firstn 6 (map text (of_url k chunks))))
  end.

(** What the loop keeps true of [by_url] once [seen] has been read. *)
Definition grouping (by_url : dict EvidenceItem) (seen : list RankedChunk)
  : Prop :=
  NoDup (keys by_url) /\ forall k, get k by_url = grouped k seen.

(** *** [_detect_conflicts] *)

(** The warnings, each with the arguments its f-string is filled with;
    the agent name is already title-cased. *)
Inductive conflict : Type :=
| AffordabilityRisk
| AffordabilityUncertain
| HighSeverityRisk (agent : string) (risk : value)
| LowConfidence (agent : string) (conf : value).

(** [type(v).__name__] *)
Definition type_name (v : value) : string :=
  match v with
  | VNone => "NoneType"
  | VBool _ => "bool"
  | VInt _ => "int"
  | VFloat _ => "float"
  | VStr _ => "str"
  | VList _ => "list"
  | VDict _ => "dict"
  end.

(** The message of the [AttributeError] for [v.attr]. *)
Definition no_attribute (v : value) (attr : string) : string :=
  ("'" ++ type_name v ++ "' object has no attribute '" ++ attr ++ "'")%string.

(** [v.get(k)] on a JSON value, which only a dict has. *)
Definition value_get (v : value) (k : string) : result (option value) :=
  match v with
  | VDict d => Ok (get k d)
  | _ => Raise (no_attribute v "get")
  end.

(** [for x in v]: the elements of a list, the keys of a dict, the
    characters of a string; nothing else can be iterated. *)
Definition iterate (v : value) : result (list value) :=
  match v with
  | VList l => Ok l
  | VDict d => Ok (map (fun kv => VStr (fst kv)) d)
  | VStr s => Ok (map (fun c => VStr (String c EmptyString))
                      (list_ascii_of_string s))
  | _ => Raise ("'" ++ type_name v ++ "' object is not iterable")%string
  end.

(** [v == s] for a string literal [s] *)
Definition is_str (s : string) (v : option value) : bool :=
  match v with
  | Some (VStr s') => String.eqb s' s
  | _ => false
  end.

(** [isinstance(v, (int, float))], with the number; [bool] is an [int]. *)
Definition as_number (v : value) : option Q :=
  match v with
  | VBool b => Some (if b then 1 else 0)%Q
  | VInt z => Some (inject_Z z)
  | VFloat q => Some q
  | _ => None
  end.

(** The [float] that the literal [0.4] denotes. *)
Definition threshold : Q := (3602879701896397 # 9007199254740992)%Q.

Definition Qlt_bool (a b : Q) : bool := negb (Qle_bool b a).

(** [isinstance(conf, (int, float)) and conf < 0.4] *)
Definition is_low (conf : value) : bool :=
  match as_number conf with
  | Some q => Qlt_bool q threshold
  | None => false
  end.

(** [f"{conf:.0%}"] turns an [int] into a [float] first, which raises
    when the int is out of the range of [float]. *)
Definition percent_overflows (conf : value) : bool :=
  match conf with
  | VInt z => (2 ^ 1024 - 2 ^ 970 <=? Z.abs z)%Z
  | _ => false
  end.

(** The inner loop over one agent's risks. *)
Definition high_risks (agent_name : string) (risks : list value)
  : list conflict :=
  flat_map
    (fun risk =>
       match risk with
       | VDict d =>
           if is_str "high" (get "severity" d)
           then [HighSeverityRisk (Text.title agent_name)
                                  (get_or "risk" (VStr "unknown") d)]
           else []
       | _ => []
       end)
    risks.

(** The loop over the high-risk items of all agents. *)
Fixpoint risk_loop (items : dict (dict value)) (conflicts : list conflict)
  : result (list conflict) :=
  match items with
  | [] => Ok conflicts
  | (agent_name, agent_data) :: rest =>
      risks <- iterate (get_or "risks" (VList []) agent_data) ;;
      risk_loop rest (conflicts ++ high_risks agent_name risks)
  end.

(** The loop over the confidences of all agents. *)
Fixpoint confidence_loop (items : dict (dict value))
         (conflicts : list conflict) : result (list conflict) :=
  match items with
  | [] => Ok conflicts
  | (agent_name, agent_data) :: rest =>
      let conf := get_or "confidence" (VFloat 1) agent_data in
      if is_low conf then
        if percent_overflows conf
        then Raise "int too large to convert to float"
        else confidence_loop rest
               (conflicts ++ [LowConfidence (Text.title agent_name) conf])
      else confidence_loop rest conflicts
  end.

Definition _detect_conflicts (results : dict (dict value))
  : result (list conflict) :=
  let conflicts := [] in
  let fin := get_or "financial" [] results in
  afford <- value_get (get_or "plan" (VDict []) fin)
                      "travel_affordability_check" ;;
  status <- value_get (match afford with Some a => a | None => VDict [] end)
                      "status" ;;
  let conflicts :=
    if is_str "likely_not_ok" status then conflicts ++ [AffordabilityRisk]
    else if is_str "uncertain" status
         then conflicts ++ [AffordabilityUncertain]
         else conflicts in
  conflicts <- risk_loop results conflicts ;;
  confidence_loop results conflicts.

(** *** What conflict detection owes and when it completes *)

Definition is_low_confidence (c : conflict) : bool :=
  match c with
  | LowConfidence _ _ => true
  | _ => false
  end.

(** The confidence read off an agent's result; 1.0 when there is none. *)
Definition confidence_of (agent_data : dict value) : value :=
  get_or "confidence" (VFloat 1) agent_data.

(** One warning per agent whose confidence is a number below the
    threshold, in the order of the results map. *)
Definition low_confidence_due (results : dict (dict value))
  : list conflict :=
  flat_map
    (fun entry : string * dict value =>
       if is_low (confidence_of (snd entry))
       then [LowConfidence (Text.title (fst entry))
                           (confidence_of (snd entry))]
       else [])
    results.

Definition is_dict (v : value) : bool :=
  match v with VDict _ => true | _ => false end.

Definition iterable (v : value) : bool :=
  match v with VList _ | VDict _ | VStr _ => true | _ => false end.

(** Financial's [plan] and its [travel_affordability_check], where they
    are present, are dicts. *)
Definition affordability_readable (results : dict (dict value)) : bool :=
  match get_or "plan" (VDict []) (get_or "financial" [] results) with
  | VDict plan =>
      match get "travel_affordability_check" plan with
      | Some afford => is_dict afford
      | None => true
      end
  | _ => false
  end.

(** The results maps on which [_detect_conflicts] runs to its end. *)
Definition well_shaped (results : dict (dict value)) : bool :=
  affordability_readable results
  && forallb (fun entry : string * dict value =>
                iterable (get_or "risks" (VList []) (snd entry)))
             results
  && forallb (fun entry : string * dict value =>
                negb (is_low (confidence_of (snd entry))
                      && percent_overflows (confidence_of (snd entry))))
             results.

(** *** agents/runner.py *)

(** The three prompts; each text is named, not spelled out. *)
Definition PROMPTS : dict string := [
  ("travel", "TRAVEL_AGENT_PROMPT_V11");
  ("financial", "FINANCIAL_AGENT_PROMPT_V11");
  ("health", "HEALTH_AGENT_PROMPT_V11")
].

Definition evidence_value (evidence : list EvidenceItem) : value :=
  VList (map (fun item =>
                VDict [("url", VStr (ev_url item));
                       ("title", match ev_title item with
                                 | Some t => VStr t
                                 | None => VNone
                                 end);
                       ("snippets", VList (map VStr (snippets item)))])
             evidence).

(** What the orchestrator calls and does not implement. *)
Record env : Type := mkEnv {
  ranking : models;
  (** [fetch_pages(seed_urls, allowed_domains, k=k)] *)
  fetch_pages : list string -> list string -> Z -> list document;
  (** [call_llm_json(prompt=, payload=, cfg=llm)] *)
  call_llm_json : string -> dict value -> result (dict value);
  (** [str(v)] *)
  py_str : value -> string
}.

(** [if upstream:] holds for a dict that is there and not empty. *)
Definition run_agent (E : env) (name : string) (user_profile : dict value)
           (evidence : list EvidenceItem) (upstream : option (dict value))
  : result (dict value) :=
  match get name PROMPTS with
  | None => Raise ("'" ++ name ++ "'")%string
  | Some prompt =>
      let payload := [("user_profile", VDict user_profile);
                      ("evidence", evidence_value evidence)] in
      let payload :=
        match upstream with
        | Some (_ :: _ as up) => set "upstream" (VDict up) payload
        | _ => payload
        end in
      call_llm_json E prompt payload
  end.

(** *** [orchestrate] *)

Definition _QUERY_SEEDS : dict string := [
  ("travel", "travel itinerary hotels destinations budget routes flights trains");
  ("finance", "budgeting travel affordability risk tolerance savings");
  ("health", "health wellness doctors specialist medical treatment symptoms")
].

(** [if v] *)
Definition truthy (v : option value) : bool :=
  match v with
  | None | Some VNone => false
  | Some (VBool b) => b
  | Some (VInt z) => negb (z =? 0)%Z
  | Some (VFloat q) => negb (Qeq_bool q 0)
  | Some (VStr s) => negb (String.eqb s EmptyString)
  | Some (VList l) => match l with [] => false | _ => true end
  | Some (VDict d) => match d with [] => false | _ => true end
  end.

Definition _build_query (E : env) (topic : string) (profile : dict value)
  : string :=
  let base := get_or topic EmptyString _QUERY_SEEDS in
  let extras :=
    join " "
      (flat_map (fun v => if truthy v
                          then match v with
                               | Some x => [py_str E x]
                               | None => []
                               end
                          else [])
                [get "message" profile; get "preferences" profile;
                 get "constraints" profile; get "budget" profile]) in
  strip (base ++ " " ++ extras)%string.

Definition topic_map : dict string :=
  [("travel", "travel"); ("financial", "finance"); ("health", "health")].

(** Stage 2, the loop that fills [evidence]. *)
Fixpoint rank_evidence (E : env) (user_profile : dict value)
         (pages : list document) (k : Z) (active_agents : list string)
         (evidence : dict (list EvidenceItem))
  : result (dict (list EvidenceItem)) :=
  match active_agents with
  | [] => Ok evidence
  | agent_name :: rest =>
      let topic := get_or agent_name agent_name topic_map in
      match pages with
      | _ :: _ =>
          ranked <- rank_chunks (ranking E)
                      (_build_query E topic user_profile) pages k ;;
          rank_evidence E user_profile pages k rest
                        (set topic (_to_evidence ranked) evidence)
      | [] =>
          rank_evidence E user_profile pages k rest (set topic [] evidence)
      end
  end.

(** The slot of an agent whose task raised. *)
Definition placeholder (msg : string) : dict value :=
  [("error", VStr msg); ("confidence", VFloat 0)].

(** What the loop after [gather] writes for an outcome. *)
Definition slot_of (outcome : result (dict value)) : dict value :=
  match outcome with
  | Raise msg => placeholder msg
  | Ok out => out
  end.

(** The tasks of the fan-out, each with the outcome it ends in. *)
Definition concurrent_tasks (E : env) (user_profile : dict value)
           (active_agents : list string)
           (evidence : dict (list EvidenceItem))
           (travel_out : option (dict value))
  : dict (result (dict value)) :=
  let tasks := [] in
  let tasks :=
    if mem "financial" active_agents
    then set "financial"
             (run_agent E "financial" user_profile
                        (get_or "finance" [] evidence) travel_out)
             tasks
    else tasks in
  let tasks :=
    if mem "health" active_agents
    then set "health"
             (run_agent E "health" user_profile
                        (get_or "health" [] evidence) travel_out)
             tasks
    else tasks in
  tasks.

(** [asyncio.gather(..., return_exceptions=True)] hands back every
    outcome; the loop after it writes one slot per task. *)
Definition gather_into (results : dict (dict value))
           (tasks : dict (result (dict value))) : dict (dict value) :=
  fold_left
    (fun results (task : string * result (dict value)) =>
       let (name, outcome) := task in
       match outcome with
       | Raise msg => set name (placeholder msg) results
       | Ok out => set name out results
       end)
    tasks results.

Record response : Type := mkResponse {
  evidence : dict (list EvidenceItem);
  active_agents : list string;
  conflicts : list conflict;
  pages_fetched : nat;
  (** the keys that [response.update(results)] adds *)
  slots : dict (dict value)
}.

(** What stages 0 to 3 hand to the fan-out. *)
Record staged : Type := mkStaged {
  st_active : list string;
  st_pages : list document;
  st_evidence : dict (list EvidenceItem);
  st_results : dict (dict value);
  st_travel_out : option (dict value)
}.

(** Stages 0 to 3: classify, fetch, rank, and the travel agent. *)
Definition stages_0_3 (E : env) (user_profile : dict value)
           (allowed_domains seed_urls : list string)
           (retrieval_budget_k : Z) : result staged :=
  message <- match get_or "message" (VStr EmptyString) user_profile with
             | VStr s => Ok s
             | v => Raise (no_attribute v "lower")
             end ;;
  let active_agents := classify_query message in
  let pages :=
    match seed_urls with
    | _ :: _ => fetch_pages E seed_urls allowed_domains retrieval_budget_k
    | [] => []
    end in
  let k := Z.min 12 retrieval_budget_k in
  evidence <- rank_evidence E user_profile pages k active_agents [] ;;
  let results := [] in
  if mem "travel" active_agents then
    travel_out <- run_agent E "travel" user_profile
                    (get_or "travel" [] evidence) None ;;
    Ok (mkStaged active_agents pages evidence
                 (set "travel" travel_out results) (Some travel_out))
  else
    Ok (mkStaged active_agents pages evidence results None).

(** The results map after the fan-out. *)
Definition fan_out (E : env) (user_profile : dict value) (st : staged)
  : dict (dict value) :=
  gather_into (st_results st)
    (concurrent_tasks E user_profile (st_active st) (st_evidence st)
                      (st_travel_out st)).

(** The response without its wall-clock timings and the model's name. *)
Definition orchestrate (E : env) (user_profile : dict value)
           (allowed_domains seed_urls : list string)
           (retrieval_budget_k : Z) : result response :=
  st <- stages_0_3 E user_profile allowed_domains seed_urls
                   retrieval_budget_k ;;
  let results := fan_out E user_profile st in
  conflicts <- _detect_conflicts results ;;
  Ok (mkResponse (st_evidence st) (st_active st) conflicts
                 (List.length (st_pages st)) results).

End Orchestrator.

(* ================================================================== *)
(** ** agents/web_ingest.py *)
(* ================================================================== *)

Module WebIngest.
Import Text Rag.

(** What the fetcher gets from the network and from the HTML libraries. *)
Record web : Type := mkWeb {
  (** [urlparse(url).netloc] *)
  netloc : string -> string;
  (** [client.get(url)]: the status code and the body, or an exception *)
  http_get : string -> result (Z * string);
  (** readability and BeautifulSoup on the body: [soup.get_text(" ")] and
      [doc.short_title()], or an exception *)
  readable : string -> result (string * string)
}.

Definition _MIN_TEXT_LEN : nat := 120.

Definition _domain (w : web) (url : string) : string :=
  lower (netloc w url).

(** [s.lstrip(".")] *)
Fixpoint lstrip_dots (s : string) : string :=
  match s with
  | EmptyString => EmptyString
  | String c r => if Ascii.eqb c "." then lstrip_dots r else s
  end.

(** [s.endswith(t)]: some suffix of [s] is [t]. *)
Fixpoint ends_with (s t : string) : bool :=
  String.eqb s t
  || match s with
     | EmptyString => false
     | String _ r => ends_with r t
     end.

(** An entry of the allow-list as [_allowed] compares it. *)
Definition clean_domain (a : string) : string := lstrip_dots (lower a).

Definition _allowed (w : web) (url : string) (allowed_domains : list string)
  : bool :=
  match allowed_domains with
  | [] => true
  | _ =>
      let d := _domain w url in
      let clean := map clean_domain allowed_domains in
      existsb (fun a => String.eqb d a || ends_with d ("." ++ a)%string) clean
  end.

(** [re.sub(r"\s+", " ", text)]: [in_run] says that the character before
    was whitespace, already replaced. *)
Fixpoint collapse_from (in_run : bool) (s : string) : string :=
  match s with
  | EmptyString => EmptyString
  | String c r =>
      if is_space c then
        if in_run then collapse_from true r
        else String " " (collapse_from true r)
      else String c (collapse_from false r)
  end.

Definition _clean_text (text : string) : string :=
  let text := collapse_from false text in
  strip text.

(** A page as [_fetch_one] returns it; its [chars] is the length of its
    text. *)
Definition _fetch_one (w : web) (url : string) : option document :=
  match http_get w url with
  | Raise _ => None
  | Ok (status_code, html) =>
      if (400 <=? status_code)%Z then None
      else
        match readable w html with
        | Raise _ => None
        | Ok (soup_text, short_title) =>
            let text := _clean_text soup_text in
            let title :=
              if String.eqb short_title EmptyString then None
              else Some short_title in
            if String.length text <? _MIN_TEXT_LEN then None
            else Some (mkDocument url title text)
        end
  end.

(** What one url adds to the pages. *)
Definition page_of (w : web) (url : string) : list document :=
  match _fetch_one w url with
  | Some page => [page]
  | None => []
  end.

(** The first loop of [fetch_pages], which leaves at the first turn after
    which [k] urls are held. *)
Fixpoint select_urls (w : web) (allowed_domains : list string) (k : Z)
         (seed_urls : list string) (urls : list string) : list string :=
  match seed_urls with
  | [] => urls
  | u :: rest =>
      let urls :=
        if negb (String.eqb u EmptyString)
           && negb (mem u urls)
           && _allowed w u allowed_domains
        then urls ++ [u] else urls in
      if (k <=? Z.of_nat (List.length urls))%Z then urls
      else select_urls w allowed_domains k rest urls
  end.

(** The pages among the gathered results, in the order of the urls. *)
Definition fetch_pages (w : web) (seed_urls allowed_domains : list string)
           (k : Z) : list document :=
  let urls := select_urls w allowed_domains k seed_urls [] in
  match urls with
  | [] => []
  | _ =>
      flat_map (fun url => match _fetch_one w url with
                           | Some page => [page]
                           | None => []
                           end)
               urls
  end.

(** What a url has to pass to be selected. *)
Definition selectable (w : web) (allowed_domains seed_urls : list string)
           (u : string) : Prop :=
  In u seed_urls /\ u <> EmptyString /\ _allowed w u allowed_domains = true.

(** The text starts with a whitespace character. *)
Definition starts_with_space (s : string) : bool :=
  match s with
  | String c _ => is_space c
  | EmptyString => false
  end.

(** Every whitespace character of the text is a plain space. *)
Fixpoint only_spaces (s : string) : bool :=
  match s with
  | EmptyString => true
  | String c r => (negb (is_space c) || Ascii.eqb c " ") && only_spaces r
  end.

(** The text neither starts nor ends with whitespace. *)
Definition trimmed (s : string) : bool := String.eqb (strip s) s.

End WebIngest.

(* ================================================================== *)
(** ** agents/llm.py *)
(* ================================================================== *)

Module Llm.
Import Text.

Record LLMConfig : Type := mkConfig {
  provider : string;
  base_url : option string;
  api_key : option string;
  model : string;
  max_retries : Z
}.

Definition _PROVIDER_URLS : dict string := [
  ("grok", "https://api.x.ai/v1");
  ("openai_compatible", "https://api.openai.com/v1")
].

Definition _RETRY_CODES : list Z := [429; 500; 502; 503; 504]%Z.

(** *** [_extract_json] *)

Definition fence : string := "```".

(** [text.index("\n")], when there is a newline *)
Fixpoint index_newline (text : string) : option nat :=
  match text with
  | EmptyString => None
  | String c r =>
      if code c =? 10 then Some 0
      else match index_newline r with
           | Some i => Some (S i)
           | None => None
           end
  end.

(** The text [_extract_json] hands to [json.loads]. *)
Definition unfence (text : string) : string :=
  let text := strip text in
  if String.prefix fence text then
    let first_nl :=
      match index_newline text with Some i => i | None => 3 end in
    let text := suffix text (first_nl + 1) in
    let text :=
      if WebIngest.ends_with text fence
      then substring 0 (String.length text - 3) text
      else text in
    strip text
  else text.

(** [json.loads]: the value, or the message of its [JSONDecodeError]. *)
Definition _extract_json (json_loads : string -> string + value)
           (text : string) : string + value :=
  json_loads (unfence text).

(** *** Exceptions *)

(** The exceptions of Python itself that the decoding of a reply can
    raise, each with what it was raised on. *)
Inductive py_error : Type :=
| AttributeError (v : value) (attr : string)   (* [v.attr] *)
| KeyError (key : value)                       (* [d[key]] *)
| IndexError                                   (* [l[0]] on an empty [l] *)
| NotSubscriptable (v : value)                 (* [v[...]] *)
| BadIndex (container : value) (key : value)   (* [l["k"]] *)
| BadSlice (container : value)                 (* [d[:500]] *)
| NoItemAssignment (v : value).                (* [v["k"] = ...] *)

(** What the handler [except Exception as e] can catch. *)
Inductive cause : Type :=
| NetworkError (msg : string)    (* raised by [client.post] *)
| PyError (e : py_error).

(** The exceptions that leave [call_llm_json]: the [LLMError]s, each with
    the arguments of its message, and an error of Python raised inside a
    handler. *)
Inductive llm_error : Type :=
| UnknownProvider (provider : string)
| MissingApiKey
| HttpStatus (status_code : Z) (body : string)
| InvalidJson (why : string) (content : value)
| CallFailed (max_retries : Z) (e : cause)
| Exhausted (last_err : option cause)
| Escaped (e : py_error).

(** *** The network *)

Record http_response : Type := mkResponse {
  status_code : Z;
  (** [resp.text] *)
  resp_text : string;
  (** [resp.json()], or the message of its [JSONDecodeError] *)
  resp_json : string + value;
  (** the rounded latency that was measured *)
  latency_ms : Z
}.

Record network : Type := mkNetwork {
  (** [client.post(url, ...)] at the given attempt: the response, or the
      text of the exception *)
  post : string -> LLMConfig -> string -> dict value -> Z
         -> string + http_response;
  json_loads : string -> string + value
}.

(** *** Reading a reply *)

(** [v.get(k, default)] *)
Definition py_get (v : value) (k : string) (default : value)
  : py_error + value :=
  match v with
  | VDict d => inr (get_or k default d)
  | _ => inl (AttributeError v "get")
  end.

(** [v[k]] for a string [k] *)
Definition py_item (v : value) (k : string) : py_error + value :=
  match v with
  | VDict d =>
      match get k d with
      | Some x => inr x
      | None => inl (KeyError (VStr k))
      end
  | VList _ | VStr _ => inl (BadIndex v (VStr k))
  | _ => inl (NotSubscriptable v)
  end.

(** [v[0]] *)
Definition py_first (v : value) : py_error + value :=
  match v with
  | VList (x :: _) => inr x
  | VList [] => inl IndexError
  | VStr (String c _) => inr (VStr (String c EmptyString))
  | VStr EmptyString => inl IndexError
  | VDict _ => inl (KeyError (VInt 0))
  | _ => inl (NotSubscriptable v)
  end.

(** [content[:500]] in the handler of [JSONDecodeError] *)
Definition py_prefix_500 (content : value) : py_error + value :=
  match content with
  | VStr s => inr (VStr (substring 0 500 s))
  | VList l => inr (VList (firstn 500 l))
  | VDict _ => inl (BadSlice content)
  | _ => inl (NotSubscriptable content)
  end.

(** [result["_usage"] = usage] *)
Definition py_set_usage (result : value) (usage : value)
  : py_error + dict value :=
  match result with
  | VDict d => inr (set "_usage" usage d)
  | VList _ => inl (BadIndex result (VStr "_usage"))
  | _ => inl (NoItemAssignment result)
  end.

(** *** The retry loop *)

(** What the loop carries from one attempt to the next, with the requests
    made and the seconds slept. *)
Record progress : Type := mkProgress {
  retries : Z;
  content : value;
  last_err : option cause;
  posts : nat;
  waits : list Z
}.

Definition start : progress := mkProgress 0 (VStr EmptyString) None 0 [].

Definition posted (st : progress) : progress :=
  mkProgress (retries st) (content st) (last_err st) (S (posts st)) (waits st).

(** [usage.retries += 1; await asyncio.sleep(2 ** attempt)] *)
Definition backed_off (attempt : Z) (st : progress) : progress :=
  mkProgress (retries st + 1) (content st) (last_err st) (posts st)
             (waits st ++ [2 ^ attempt]%Z).

Definition with_content (c : value) (st : progress) : progress :=
  mkProgress (retries st) c (last_err st) (posts st) (waits st).

Definition with_error (e : cause) (st : progress) : progress :=
  mkProgress (retries st) (content st) (Some e) (posts st) (waits st).

(** How one attempt ends. *)
Inductive ending : Type :=
| Returns (result : dict value)
| Raises (e : llm_error)
| Continues.

(** The handler [except Exception as e]. *)
Definition on_exception (cfg : LLMConfig) (attempt : Z) (e : cause)
           (st : progress) : ending * progress :=
  let st := with_error e st in
  if (attempt <? max_retries cfg)%Z then (Continues, backed_off attempt st)
  else (Raises (CallFailed (max_retries cfg) e), st).

(** The handler [except json.JSONDecodeError as e]. *)
Definition on_decode_error (why : string) (st : progress)
  : ending * progress :=
  match py_prefix_500 (content st) with
  | inr shown => (Raises (InvalidJson why shown), st)
  | inl e => (Raises (Escaped e), st)
  end.

(** The body of the [try], from [data = resp.json()] on. *)
Definition read_reply (cfg : LLMConfig) (net : network) (attempt : Z)
           (resp : http_response) (st : progress) : ending * progress :=
  match resp_json resp with
  | inl why => on_decode_error why st
  | inr data =>
      match py_get data "usage" (VDict []) with
      | inl e => on_exception cfg attempt (PyError e) st
      | inr u =>
          match py_get u "prompt_tokens" (VInt 0) with
          | inl e => on_exception cfg attempt (PyError e) st
          | inr _ =>
              let total_tokens := get_or "total_tokens" (VInt 0)
                                    (match u with VDict d => d | _ => [] end) in
              match
                match py_item data "choices" with
                | inl e => inl e
                | inr choices =>
                    match py_first choices with
                    | inl e => inl e
                    | inr choice =>
                        match py_item choice "message" with
                        | inl e => inl e
                        | inr message => py_item message "content"
                        end
                    end
                end
              with
              | inl e => on_exception cfg attempt (PyError e) st
              | inr c =>
                  let st := with_content c st in
                  match c with
                  | VStr text =>
                      match _extract_json (json_loads net) text with
                      | inl why => on_decode_error why st
                      | inr result =>
                          let usage :=
                            VDict [("tokens", total_tokens);
                                   ("latency_ms", VInt (latency_ms resp));
                                   ("retries", VInt (retries st))] in
                          match py_set_usage result usage with
                          | inl e => on_exception cfg attempt (PyError e) st
                          | inr result => (Returns result, st)
                          end
                      end
                  | _ =>
                      on_exception cfg attempt
                        (PyError (AttributeError c "strip")) st
                  end
              end
          end
      end
  end.

(** One turn of the loop. *)
Definition one_attempt (cfg : LLMConfig) (net : network) (url : string)
           (prompt : string) (payload : dict value) (attempt : Z)
           (st : progress) : ending * progress :=
  let st := posted st in
  match post net url cfg prompt payload attempt with
  | inl msg => on_exception cfg attempt (NetworkError msg) st
  | inr resp =>
      if existsb (Z.eqb (status_code resp)) _RETRY_CODES
         && (attempt <? max_retries cfg)%Z
      then (Continues, backed_off attempt st)
      else if (400 <=? status_code resp)%Z
           then (Raises (HttpStatus (status_code resp)
                                    (substring 0 500 (resp_text resp))), st)
           else read_reply cfg net attempt resp st
  end.

(** [for attempt in range(1, cfg.max_retries + 1)], [remaining] turns
    being left, and the [raise] after the loop. *)
Fixpoint attempts (cfg : LLMConfig) (net : network) (url : string)
         (prompt : string) (payload : dict value)
         (remaining : nat) (attempt : Z) (st : progress)
  : (llm_error + dict value) * progress :=
  match remaining with
  | O => (inl (Exhausted (last_err st)), st)
  | S remaining' =>
      match one_attempt cfg net url prompt payload attempt st with
      | (Returns result, st) => (inr result, st)
      | (Raises e, st) => (inl e, st)
      | (Continues, st) =>
          attempts cfg net url prompt payload remaining' (attempt + 1) st
      end
  end.

(** [s.rstrip("/")] *)
Fixpoint rstrip_slashes (s : string) : string :=
  match s with
  | EmptyString => EmptyString
  | String c r =>
      match rstrip_slashes r with
      | EmptyString =>
          if Ascii.eqb c "/" then EmptyString else String c EmptyString
      | r' => String c r'
      end
  end.

(** The url of the request, for a provider of [_PROVIDER_URLS]. *)
Definition endpoint (cfg : LLMConfig) : string :=
  let base :=
    match base_url cfg with
    | Some (String _ _ as given) => given
    | _ => get_or (provider cfg) EmptyString _PROVIDER_URLS
    end in
  (rstrip_slashes base ++ "/chat/completions")%string.

Definition stub_reply (prompt : string) (payload : dict value) : dict value :=
  [("_stub", VBool true);
   ("prompt_used", VStr (substring 0 500 prompt));
   ("input", VDict payload);
   ("note",
    VStr "Set llm_provider='grok' and env GROK_API_KEY for real outputs.")].

Definition call_llm_json (net : network) (prompt : string)
           (payload : dict value) (cfg : LLMConfig)
  : (llm_error + dict value) * progress :=
  if String.eqb (provider cfg) "stub" then (inr (stub_reply prompt payload), start)
  else
    match get (provider cfg) _PROVIDER_URLS with
    | None => (inl (UnknownProvider (provider cfg)), start)
    | Some _ =>
        match api_key cfg with
        | None | Some EmptyString => (inl MissingApiKey, start)
        | Some _ =>
            attempts cfg net (endpoint cfg) prompt payload
                     (Z.to_nat (max_retries cfg)) 1 start
        end
    end.

(** The seconds slept before attempts 2, 3, ... up to attempt [n]. *)
Definition backoff (n : nat) : list Z :=
  map (fun i => 2 ^ Z.of_nat i)%Z (seq 1 (n - 1)).

(** The state of the loop as turn number [attempt] begins: one request and
    one sleep for each turn before it. *)
Definition on_schedule (attempt : Z) (st : progress) : Prop :=
  Z.of_nat (posts st) = (attempt - 1)%Z
  /\ retries st = (attempt - 1)%Z
  /\ waits st = backoff (S (posts st))
  /\ (posts st = 0 -> content st = VStr EmptyString).

(** What an attempt does to the counters, by the way it ends. *)
Definition attempt_effect (cfg : LLMConfig) (attempt : Z)
           (before content_before : progress) (out : ending * progress)
  : Prop :=
  let st' := snd out in
  match fst out with
  | Continues =>
      (attempt < max_retries cfg)%Z
      /\ posts st' = posts before
      /\ retries st' = (retries before + 1)%Z
      /\ waits st' = waits before ++ [2 ^ attempt]%Z
  | Returns result =>
      posts st' = posts before
      /\ retries st' = retries before
      /\ waits st' = waits before
      /\ exists tokens latency,
           get "_usage" result
           = Some (VDict [("tokens", tokens); ("latency_ms", VInt latency);
                          ("retries", VInt (retries before))])
  | Raises e =>
      posts st' = posts before
      /\ retries st' = retries before
      /\ waits st' = waits before
      /\ match e with
         | HttpStatus code _ =>
             (400 <= code)%Z
             /\ (In code _RETRY_CODES -> (max_retries cfg <= attempt)%Z)
         | InvalidJson _ _ => True
         | CallFailed n c =>
             n = max_retries cfg /\ (max_retries cfg <= attempt)%Z
             /\ last_err st' = Some c
         | Escaped e' =>
             content st' = content content_before
             /\ py_prefix_500 (content content_before) = inl e'
         | _ => False
         end
  end.

(** What the whole loop has done when it ends. *)
Definition loop_effect (cfg : LLMConfig) (started : progress)
           (out : (llm_error + dict value) * progress) : Prop :=
  let st' := snd out in
  waits st' = backoff (posts st')
  /\ match fst out with
     | inr result =>
         1 <= posts st'
         /\ exists tokens latency,
              get "_usage" result
              = Some (VDict [("tokens", tokens); ("latency_ms", VInt latency);
                             ("retries", VInt (Z.of_nat (posts st') - 1))])
     | inl (Exhausted e) => st' = started /\ e = last_err started
     | inl (HttpStatus code _) =>
         (400 <= code)%Z
         /\ (In code _RETRY_CODES -> Z.of_nat (posts st') = max_retries cfg)
     | inl (InvalidJson _ _) => 1 <= posts st'
     | inl (CallFailed n c) =>
         n = max_retries cfg /\ Z.of_nat (posts st') = n
         /\ last_err st' = Some c
     | inl (Escaped e) =>
         2 <= posts st' /\ py_prefix_500 (content st') = inl e
     | inl _ => False
     end.

(** The configuration passes the checks before the loop. *)
Definition accepted (cfg : LLMConfig) : Prop :=
  provider cfg <> "stub"
  /\ (exists url, get (provider cfg) _PROVIDER_URLS = Some url)
  /\ exists c k, api_key cfg = Some (String c k).

(** The call as [run_agent] awaits it: its result, or its exception with
    the text that [str] gives of it. *)
Definition awaited (str_of : llm_error -> string) (net : network)
           (cfg : LLMConfig) (prompt : string) (payload : dict value)
  : result (dict value) :=
  match fst (call_llm_json net prompt payload cfg) with
  | inr out => Ok out
  | inl e => Raise (str_of e)
  end.

End Llm.

(* ================================================================== *)
(** ** What the pipeline owes, in closed form *)
(* ================================================================== *)

Module Due.
Import Text Rag Classifier Orchestrator.

(** Some pattern of the table matches the lower-cased message. *)
Definition topic_matches (patterns : list string) (message : string) : bool :=
  existsb (fun p => Re.search p (lower message)) patterns.

(** The status [_detect_conflicts] reads under financial's
    [plan.travel_affordability_check], where that path is made of dicts. *)
Definition affordability_status (results : dict (dict value)) : option value :=
  match get_or "plan" (VDict []) (get_or "financial" [] results) with
  | VDict plan =>
      match get "travel_affordability_check" plan with
      | Some (VDict afford) => get "status" afford
      | _ => None
      end
  | _ => None
  end.

Definition affordability_due (results : dict (dict value)) : list conflict :=
  if is_str "likely_not_ok" (affordability_status results)
  then [AffordabilityRisk]
  else if is_str "uncertain" (affordability_status results)
       then [AffordabilityUncertain]
       else [].

(** One warning per entry of an agent's [risks] list that is a dict with
    severity "high", agents in the order of the map, risks in the order of
    the list. *)
Definition high_risk_due (results : dict (dict value)) : list conflict :=
  flat_map
    (fun entry : string * dict value =>
       match get_or "risks" (VList []) (snd entry) with
       | VList risks => high_risks (fst entry) risks
       | _ => []
       end)
    results.

(** The urls of the chunks, each once, by first appearance. *)
Definition first_seen (urls : list string) : list string :=
  fold_left (fun seen u => if mem u seen then seen else seen ++ [u]) urls [].

(** The bi-encoder cannot be loaded, or its scoring raises. *)
Definition bi_encoder_fails (m : models) (query : string)
           (chunks : list chunk) : Prop :=
  (exists msg, get_bi_encoder m = Raise msg)
  \/ (exists model msg,
        get_bi_encoder m = Ok model
        /\ model query (map chunk_text chunks) = Raise msg).

(** The window a ranked chunk was made from. *)
Definition origin (c : RankedChunk) : chunk := (url c, title c, text c).

(** [ceil(a / b)] *)
Definition ceil_div (a b : nat) : nat := (a + b - 1) / b.

End Due.

(* ================================================================== *)
(** ** Concrete runs *)
(* ================================================================== *)

Module Scenarios.
Import Text Rag Orchestrator.

(** Neither [sentence_transformers] model can be loaded; TF-IDF finds no
    term of the query in any text. *)
Definition lexical_only : models :=
  mkModels
    (Raise "No module named 'sentence_transformers'")
    (fun _ texts => Ok (map (fun _ => 0%Q) texts))
    (Raise "No module named 'sentence_transformers'").

(** As [lexical_only], on texts in which [TfidfVectorizer] finds nothing
    but stop words. *)
Definition no_ranker : models :=
  mkModels
    (Raise "No module named 'sentence_transformers'")
    (fun _ _ => Raise "empty vocabulary; perhaps the documents only contain stop words")
    (Raise "No module named 'sentence_transformers'").

Definition page (n : string) : document :=
  mkDocument ("https://example.com/" ++ n)%string (Some n)
             ("notes about " ++ n)%string.

Definition five_pages : list document :=
  [page "goa"; page "delhi"; page "pune"; page "kochi"; page "agra"].

(** The blank text of the test [test_chunk_text_empty]. *)
Definition blank_text : string := ("   " ++ newline ++ "  ")%string.

(** Three lines: one with blanks around and inside it, a blank one, and
    one indented. *)
Definition ragged_text : string :=
  ("  a  b " ++ newline ++ "   " ++ newline ++ " c")%string.

(** A page of English stop words only. *)
Definition stop_word_pages : list document :=
  [mkDocument "https://example.com/the" None "the and of"].

Definition two_candidates : list RankedChunk :=
  [mkRankedChunk "https://example.com/goa" (Some "goa") "notes about goa" (1 # 2);
   mkRankedChunk "https://example.com/agra" (Some "agra") "notes about agra" (1 # 4)].

(** The [stub] provider of [call_llm_json]. *)
Definition stub_llm (prompt : string) (payload : dict value)
  : result (dict value) :=
  Ok [("_stub", VBool true);
      ("prompt_used", VStr (substring 0 500 prompt));
      ("input", VDict payload);
      ("note", VStr "Set llm_provider='grok' and env GROK_API_KEY for real outputs.")].

(** A provider whose calls for the financial agent run out of retries. *)
Definition financial_down (prompt : string) (payload : dict value)
  : result (dict value) :=
  if String.eqb prompt "FINANCIAL_AGENT_PROMPT_V11"
  then Raise "LLM call failed after 3 attempts: timed out"
  else stub_llm prompt payload.

(** As [financial_down], with a health agent that answers [risks: null]. *)
Definition financial_down_null_risks (prompt : string) (payload : dict value)
  : result (dict value) :=
  if String.eqb prompt "FINANCIAL_AGENT_PROMPT_V11"
  then Raise "LLM call failed after 3 attempts: timed out"
  else if String.eqb prompt "HEALTH_AGENT_PROMPT_V11"
       then Ok [("summary", VStr "see a doctor"); ("risks", VNone)]
       else stub_llm prompt payload.

(** The health agent's calls run out of retries, and the financial agent
    answers with a plan that is a string. *)
Definition health_down_text_plan (prompt : string) (payload : dict value)
  : result (dict value) :=
  if String.eqb prompt "HEALTH_AGENT_PROMPT_V11"
  then Raise "LLM call failed after 3 attempts: timed out"
  else if String.eqb prompt "FINANCIAL_AGENT_PROMPT_V11"
       then Ok [("plan", VStr "not available")]
       else stub_llm prompt payload.

(** No page is fetched; [str] is given on strings. *)
Definition offline (llm : string -> dict value -> result (dict value))
  : env :=
  mkEnv lexical_only (fun _ _ _ => []) llm
        (fun v => match v with VStr s => s | _ => EmptyString end).

(** A provider whose calls for the travel agent run out of retries. *)
Definition travel_down (prompt : string) (payload : dict value)
  : result (dict value) :=
  if String.eqb prompt "TRAVEL_AGENT_PROMPT_V11"
  then Raise "LLM call failed after 3 attempts: timed out"
  else stub_llm prompt payload.

(** As [offline], with no ranking model at all and another [str]. *)
Definition offline_bare (llm : string -> dict value -> result (dict value))
  : env :=
  mkEnv no_ranker (fun _ _ _ => [page "goa"]) llm (fun _ => "?").

Definition japan_trip : dict value :=
  [("message", VStr "Plan a trip to Japan")].

(** A web in which every host is [example.com] and every request times
    out. *)
Definition plain_web : WebIngest.web :=
  WebIngest.mkWeb (fun _ => "example.com")
                  (fun _ => Raise "timed out")
                  (fun _ => Raise "no document").

Definition doctor_and_budget : dict value :=
  [("message", VStr "I need a doctor and a budget")].

(** The [float] that the literal [0.2] denotes. *)
Definition float_0_2 : Q := (3602879701896397 # 18014398509481984)%Q.

(** Travel warns of one high risk, financial is unsure of affordability
    and has no confidence left. *)
Definition mixed_results : dict (dict value) :=
  [("travel",
    [("risks", VList [VDict [("risk", VStr "monsoon season");
                             ("severity", VStr "high")];
                      VStr "high"]);
     ("confidence", VInt 1)]);
   ("financial",
    [("plan", VDict [("travel_affordability_check",
                      VDict [("status", VStr "uncertain")])]);
     ("confidence", VFloat 0)])].

(** A health agent that is unsure and answers [risks: null]. *)
Definition null_risks : dict (dict value) :=
  [("health", [("confidence", VFloat float_0_2); ("risks", VNone)])].

(** The results of the test [test_detect_conflicts_low_confidence]. *)
Definition unsure_health : dict (dict value) :=
  [("health", [("confidence", VFloat float_0_2)])].

End Scenarios.

(** Runs of the LLM call. *)

Module LlmScenarios.
Import Text Dict Llm.

(** The defaults of [LLMConfig], for Grok with a key. *)
Definition grok : LLMConfig :=
  mkConfig "grok" None (Some "xai-key") "grok-3-mini-fast" 3.

(** A [json.loads] that knows the empty object. *)
Definition loads_empty_object (text : string) : string + value :=
  if String.eqb text "{}" then inr (VDict [])
  else inl "Expecting value: line 1 column 1 (char 0)".

(** A chat completion whose message has the given content. *)
Definition completion (content : value) : http_response :=
  mkResponse 200 EmptyString
    (inr (VDict [("choices",
                  VList [VDict [("message", VDict [("content", content)])]]);
                 ("usage", VDict [("total_tokens", VInt 42)])]))
    350.

Definition unavailable : http_response :=
  mkResponse 503 "Service Unavailable"
             (inl "Expecting value: line 1 column 1 (char 0)") 20.

(** A gateway's page with status 200 that is not JSON. *)
Definition not_json : http_response :=
  mkResponse 200 "<html>gateway</html>"
             (inl "Expecting value: line 1 column 1 (char 0)") 20.

(** The service is busy once, then answers. *)
Definition busy_once : network :=
  mkNetwork
    (fun _ _ _ _ attempt =>
       if (attempt =? 1)%Z then inr unavailable
       else inr (completion (VStr "{}")))
    loads_empty_object.

Definition always_busy : network :=
  mkNetwork (fun _ _ _ _ _ => inr unavailable) loads_empty_object.

Definition unreachable : network :=
  mkNetwork (fun _ _ _ _ _ => inl "All connection attempts failed")
            loads_empty_object.

(** The first reply carries an object where the text should be, the
    second is not JSON. *)
Definition object_then_page : network :=
  mkNetwork
    (fun _ _ _ _ attempt =>
       if (attempt =? 1)%Z then inr (completion (VDict []))
       else inr not_json)
    loads_empty_object.

(** A fenced answer, with blanks around it. *)
Definition fenced_list : string :=
  (" " ++ fence ++ "json" ++ newline ++ "[1, 2]" ++ newline ++ fence
   ++ newline)%string.

(** A fenced answer on one line. *)
Definition one_line_fence : string := (fence ++ "[1, 2]" ++ fence)%string.

(** The stub provider, as [orchestrate] configures it. *)
Definition stub : LLMConfig :=
  mkConfig "stub" None None "grok-3-mini-fast" 3.

(** No page is fetched and the agents call the stub provider. *)
Definition stubbed : Orchestrator.env :=
  Orchestrator.mkEnv Scenarios.lexical_only (fun _ _ _ => [])
    (awaited (fun _ => "LLMError") unreachable stub)
    (fun v => match v with VStr s => s | _ => EmptyString end).

End LlmScenarios.

(* ================================================================== *)
(** * Properties *)
(* ================================================================== *)

(** ** Query classification *)

Module ClassifierFacts.
Import Text Classifier.

Lemma score_zero (patterns : list string) (msg : string) :
  (score patterns msg =? 0) =
  forallb (fun p => negb (Re.search p msg)) patterns.
Proof.
  unfold score.
  induction patterns as [|p ps IH]; simpl; [reflexivity|].
  destruct (Re.search p msg); simpl; [reflexivity | exact IH].
Qed.

Lemma no_topic_matches_scores (m : string) :
  no_topic_matches m =
  (score _TRAVEL_PATTERNS (lower m) =? 0)
  && ((score _HEALTH_PATTERNS (lower m) =? 0)
      && (score _FINANCE_PATTERNS (lower m) =? 0)).
Proof.
  unfold no_topic_matches.
  now rewrite !forallb_app, !score_zero.
Qed.

(** The eight outcomes of [route], by which scores are positive. *)
Lemma route_table (t h f : nat) :
  route t h f =
  match t, h, f with
  | O, O, O => ["travel"; "financial"; "health"]
  | O, O, S _ => ["financial"]
  | O, S _, O => ["health"]
  | O, S _, S _ => ["health"; "financial"]
  | S _, O, _ => ["travel"; "financial"]
  | S _, S _, _ => ["travel"; "health"; "financial"]
  end.
Proof.
  destruct t, h, f; reflexivity.
Qed.

Ltac nodup_strings :=
  repeat (constructor; [simpl; intuition discriminate|]); constructor.

Lemma route_nonempty (t h f : nat) : route t h f <> [].
Proof.
  rewrite route_table; destruct t, h, f; discriminate.
Qed.

Lemma route_nodup (t h f : nat) : NoDup (route t h f).
Proof.
  rewrite route_table; destruct t, h, f; nodup_strings.
Qed.

Lemma route_order (t h f : nat) :
  route t h f =
  if (t =? 0) && ((h =? 0) && (f =? 0))
  then ["travel"; "financial"; "health"]
  else restrict ["travel"; "health"; "financial"] (route t h f).
Proof.
  rewrite route_table; destruct t, h, f; reflexivity.
Qed.

(** C1, as the code has it: the list [classify_query] returns is never
    empty and has no duplicates; when no pattern matches it is the
    fallback travel, financial, health, and otherwise its order is travel,
    health, financial restricted to the names it holds. *)
Theorem classify_query_order (m : string) :
  classify_query m <> []
  /\ NoDup (classify_query m)
  /\ classify_query m =
     if no_topic_matches m
     then ["travel"; "financial"; "health"]
     else restrict ["travel"; "health"; "financial"] (classify_query m).
Proof.
  unfold classify_query.
  split; [apply route_nonempty|].
  split; [apply route_nodup|].
  rewrite no_topic_matches_scores.
  apply route_order.
Qed.

(** C1 as stated fails: a message on health and money is routed to
    health before financial, which is not the order travel, financial,
    health restricted to the two. *)
Lemma classify_query_health_first :
  classify_query "I need a doctor and a budget" = ["health"; "financial"]
  /\ classify_query "I need a doctor and a budget" <>
     restrict ["travel"; "financial"; "health"]
              (classify_query "I need a doctor and a budget").
Proof.
  split; [vm_compute; reflexivity | vm_compute; discriminate].
Qed.

(** C2: a list that holds travel holds financial. *)
Theorem travel_brings_financial (m : string) :
  In "travel" (classify_query m) -> In "financial" (classify_query m).
Proof.
  unfold classify_query.
  rewrite route_table.
  destruct (score _TRAVEL_PATTERNS (lower m)),
           (score _HEALTH_PATTERNS (lower m)),
           (score _FINANCE_PATTERNS (lower m));
    simpl; intuition discriminate.
Qed.

Lemma travel_brings_financial_witness :
  In "travel" (classify_query "Plan a trip from Delhi to Goa")
  /\ In "financial" (classify_query "Plan a trip from Delhi to Goa").
Proof.
  assert (H : In "travel" (classify_query "Plan a trip from Delhi to Goa"))
    by (vm_compute; left; reflexivity).
  split; [exact H | exact (travel_brings_financial _ H)].
Defined.

(** C8: when no travel, health or finance pattern matches the message
    (lower-cased, as the classifier reads it), all three agents run. *)
Theorem no_match_runs_all (m : string) :
  no_topic_matches m = true ->
  classify_query m = ["travel"; "financial"; "health"].
Proof.
  intros H.
  unfold classify_query.
  rewrite route_order, <- no_topic_matches_scores, H.
  reflexivity.
Qed.

Lemma no_match_runs_all_witness :
  no_topic_matches "hello there" = true
  /\ classify_query "hello there" = ["travel"; "financial"; "health"].
Proof.
  assert (H : no_topic_matches "hello there" = true)
    by (vm_compute; reflexivity).
  split; [exact H | exact (no_match_runs_all _ H)].
Defined.

End ClassifierFacts.

(** ** Windowing *)

Module ChunkFacts.
Import Text Rag.

Lemma substring_nil (n m : nat) : substring n m EmptyString = EmptyString.
Proof. destruct n, m; reflexivity. Qed.

Lemma substring_zero (n : nat) (s : string) : substring n 0 s = EmptyString.
Proof.
  revert n; induction s as [|c s IH]; intros [|n]; simpl; auto.
Qed.

Lemma substring_whole (s : string) : substring 0 (String.length s) s = s.
Proof.
  induction s as [|c s IH]; simpl; [reflexivity | now rewrite IH].
Qed.

(** A slice of [a + b] characters is its first [a] and the next [b]. *)
Lemma substring_add (s : string) :
  forall n a b,
    substring n (a + b) s
    = (substring n a s ++ substring (n + a) b s)%string.
Proof.
  induction s as [|c s IH]; intros n a b.
  - now rewrite !substring_nil.
  - destruct n as [|n].
    + destruct a as [|a]; simpl.
      * reflexivity.
      * now rewrite (IH 0 a b).
    + simpl. apply IH.
Qed.

Lemma substring_length (s : string) :
  forall n m, n + m <= String.length s ->
              String.length (substring n m s) = m.
Proof.
  induction s as [|c s IH]; intros n m H; simpl in H.
  - assert (n = 0 /\ m = 0) as [-> ->] by lia. reflexivity.
  - destruct n as [|n].
    + destruct m as [|m]; simpl; [reflexivity|].
      rewrite IH; [reflexivity | lia].
    + simpl. apply IH. lia.
Qed.

Lemma suffix_split (text : string) (start stop : nat) :
  start <= stop <= String.length text ->
  suffix text start = (slice text start stop ++ suffix text stop)%string.
Proof.
  intros H. unfold suffix, slice.
  replace (String.length text - start)
    with ((stop - start) + (String.length text - stop)) by lia.
  rewrite substring_add.
  do 2 f_equal. lia.
Qed.

Lemma suffix_end (text : string) (start : nat) :
  String.length text <= start -> suffix text start = EmptyString.
Proof.
  intros H. unfold suffix.
  replace (String.length text - start) with 0 by lia.
  apply substring_zero.
Qed.

Lemma append_nil_r (s : string) : (s ++ EmptyString)%string = s.
Proof. induction s; simpl; congruence. Qed.

Lemma join_cons (w : string) (ws : list string) :
  join EmptyString (w :: ws) = (w ++ join EmptyString ws)%string.
Proof.
  destruct ws; simpl; [now rewrite append_nil_r | reflexivity].
Qed.

(** The loop, run from [start] with enough fuel, appends windows that
    spell out the rest of the text. *)
Lemma chunk_loop_spec (text : string) (max_chars : nat) :
  0 < max_chars ->
  forall fuel start chunks,
    start <= String.length text ->
    String.length text - start <= fuel ->
    exists out,
      chunk_loop fuel text max_chars start chunks = Some (chunks ++ out)
      /\ join EmptyString out = suffix text start
      /\ windows_ok max_chars out.
Proof.
  intros Hpos.
  induction fuel as [|fuel IH]; intros start chunks Hle Hfuel.
  - exists []. simpl.
    assert (Hlt : (start <? String.length text) = false)
      by (apply Nat.ltb_ge; lia).
    rewrite Hlt, app_nil_r, suffix_end by lia. auto.
  - simpl.
    destruct (start <? String.length text) eqn:Hlt.
    + apply Nat.ltb_lt in Hlt.
      set (stop := Nat.min (String.length text) (start + max_chars)).
      assert (Hstop : start < stop <= String.length text)
        by (unfold stop; lia).
      destruct (IH stop (chunks ++ [slice text start stop]))
        as (out & Hrun & Hjoin & Hok); [lia | lia |].
      exists (slice text start stop :: out).
      rewrite Hrun, <- app_assoc.
      split; [reflexivity|].
      split.
      * rewrite join_cons, Hjoin. symmetry. apply suffix_split. lia.
      * assert (Hlen : String.length (slice text start stop) = stop - start)
          by (unfold slice; apply substring_length; lia).
        destruct out as [|w out].
        -- simpl. rewrite Hlen. unfold stop. lia.
        -- split; [|exact Hok].
           rewrite Hlen.
           destruct (Nat.le_gt_cases (String.length text) (start + max_chars))
             as [Hshort|Hlong].
           ++ exfalso.
              assert (Hs : stop = String.length text) by (unfold stop; lia).
              rewrite Hs, suffix_end in Hjoin by lia.
              rewrite join_cons in Hjoin.
              assert (Hw : 1 <= String.length w).
              { destruct out; simpl in Hok; lia. }
              destruct w; simpl in *; [lia | discriminate].
           ++ unfold stop. lia.
    + exists []. rewrite app_nil_r, suffix_end.
      * simpl. auto.
      * apply Nat.ltb_ge in Hlt. lia.
Qed.

(** *** Blank texts *)

Lemma lstrip_blank (s : string) : blank s = true -> lstrip s = EmptyString.
Proof.
  induction s as [|c s IH]; simpl; [reflexivity|].
  intros H. apply andb_true_iff in H as [Hc Hs].
  rewrite Hc. auto.
Qed.

Lemma strip_blank (s : string) : blank s = true -> strip s = EmptyString.
Proof.
  intros H. unfold strip. now rewrite lstrip_blank.
Qed.

Lemma blank_snoc (s : string) (c : ascii) :
  blank s = true -> is_space c = true ->
  blank (s ++ String c EmptyString) = true.
Proof.
  induction s as [|d s IH]; simpl; intros Hs Hc.
  - now rewrite Hc.
  - apply andb_true_iff in Hs as [Hd Hs]. rewrite Hd. simpl. auto.
Qed.

Lemma splitlines_from_blank (n : nat) :
  forall s cur,
    String.length s <= n -> blank cur = true -> blank s = true ->
    Forall (fun line => blank line = true) (splitlines_from cur s).
Proof.
  induction n as [|n IH]; intros s cur Hn Hcur Hs.
  - destruct s; simpl in Hn; [|lia].
    simpl. destruct cur; auto.
  - destruct s as [|c r]; simpl.
    + destruct cur; auto.
    + simpl in Hs, Hn. apply andb_true_iff in Hs as [Hc Hr].
      destruct (is_linebreak c).
      * destruct r as [|c' r'].
        -- constructor; [exact Hcur | apply IH; simpl; auto; lia].
        -- simpl in Hr, Hn.
           destruct ((code c =? 13) && (code c' =? 10)).
           ++ apply andb_true_iff in Hr as [_ Hr'].
              constructor; [exact Hcur | apply IH; simpl; auto; lia].
           ++ constructor; [exact Hcur|].
              apply IH; simpl; auto; lia.
      * apply IH; [lia | now apply blank_snoc | exact Hr].
Qed.

Lemma clean_lines_blank (text : string) :
  blank text = true -> clean_lines text = EmptyString.
Proof.
  intros H. unfold clean_lines, splitlines.
  assert (Hall : Forall (fun line => blank line = true)
                        (splitlines_from EmptyString text))
    by (apply (splitlines_from_blank (String.length text)); auto).
  induction Hall as [|line lines Hline _ IH]; simpl; [reflexivity|].
  rewrite (strip_blank _ Hline). simpl. exact IH.
Qed.

Lemma windows_ok_bounds (max_chars : nat) (ws : list string) :
  windows_ok max_chars ws ->
  Forall (fun w => 1 <= String.length w <= max_chars) ws.
Proof.
  induction ws as [|w ws IH]; intros Hok; [constructor|].
  destruct ws as [|w' ws].
  - constructor; [exact Hok | constructor].
  - destruct Hok as [Hw Hrest].
    assert (Hall := IH Hrest).
    constructor; [|exact Hall].
    inversion Hall; subst. lia.
Qed.

Lemma chunk_text_spec (text : string) :
  exists ws,
    _chunk_text text 900 = Some ws
    /\ join EmptyString ws = clean_lines text
    /\ windows_ok 900 ws.
Proof.
  unfold _chunk_text.
  destruct (String.eqb (clean_lines text) EmptyString) eqn:He.
  - apply String.eqb_eq in He.
    exists []. rewrite He. simpl. auto.
  - destruct (chunk_loop_spec (clean_lines text) 900 ltac:(lia)
                (String.length (clean_lines text)) 0 [])
      as (out & Hrun & Hjoin & Hok); [lia | lia |].
    exists out. simpl in Hrun.
    split; [exact Hrun|].
    split; [|exact Hok].
    rewrite Hjoin. unfold suffix. rewrite Nat.sub_0_r.
    apply substring_whole.
Qed.

(** [_chunk_text] with the default window size always returns. *)
Lemma chunk_text_returns (text : string) :
  _chunk_text text 900 = Some (windows text).
Proof.
  unfold windows.
  destruct (chunk_text_spec text) as (ws & H & _).
  now rewrite H.
Qed.

Lemma windows_blank (text : string) :
  blank text = true -> windows text = [].
Proof.
  intros Hb. unfold windows, _chunk_text.
  now rewrite (clean_lines_blank _ Hb).
Qed.

(** *** The normalization, line by line *)

Lemma strip_empty_blank (s : string) :
  String.eqb (strip s) EmptyString = blank s.
Proof.
  induction s as [|c r IH]; [reflexivity|].
  unfold strip in *. cbn [lstrip blank].
  destruct (is_space c) eqn:Hc; [exact IH|].
  cbn [rstrip andb]. rewrite Hc.
  now destruct (rstrip r).
Qed.

(** The first statement of [_chunk_text], line by line. *)
Lemma clean_lines_lines (text : string) :
  clean_lines text
  = join newline
      (map strip (filter (fun line => negb (blank line)) (splitlines text))).
Proof.
  unfold clean_lines. do 2 f_equal.
  apply filter_ext. intros line. now rewrite strip_empty_blank.
Qed.

Lemma splitlines_from_line (line : string) :
  forall cur rest,
    one_line line = true ->
    splitlines_from cur (line ++ rest)
    = splitlines_from (cur ++ line) rest.
Proof.
  induction line as [|c line IH]; intros cur rest Hl.
  - now rewrite append_nil_r.
  - cbn [one_line] in Hl. apply andb_true_iff in Hl as [Hc Hl].
    apply negb_true_iff in Hc.
    cbn [append splitlines_from]. rewrite Hc, IH by exact Hl.
    f_equal. clear. induction cur as [|x cur IH]; simpl; [reflexivity|].
    now rewrite IH.
Qed.

Lemma splitlines_from_newline (cur rest : string) :
  splitlines_from cur (newline ++ rest)
  = cur :: splitlines_from EmptyString rest.
Proof.
  change (newline ++ rest)%string with (String (ascii_of_nat 10) rest).
  cbn [splitlines_from].
  change (is_linebreak (ascii_of_nat 10)) with true. cbv iota.
  change (code (ascii_of_nat 10) =? 13) with false.
  now destruct rest.
Qed.

(** The lines of a text put together with newlines are the lines it was
    made of, up to an empty last line. *)
Lemma splitlines_join (lines : list string) :
  Forall (fun line => one_line line = true) lines ->
  filter (fun line => negb (blank line)) (splitlines (join newline lines))
  = filter (fun line => negb (blank line)) lines.
Proof.
  unfold splitlines.
  induction 1 as [|line lines Hline Hlines IH]; [reflexivity|].
  destruct lines as [|next lines].
  - cbn [join].
    rewrite <- (append_nil_r line) at 1.
    rewrite splitlines_from_line by exact Hline.
    cbn [append splitlines_from]. now destruct line.
  - change (join newline (line :: next :: lines))
      with (line ++ newline ++ join newline (next :: lines))%string.
    rewrite splitlines_from_line by exact Hline.
    rewrite splitlines_from_newline.
    cbn [append filter]. now rewrite IH.
Qed.

(** C3, as the code has it: [_chunk_text] returns windows whose
    concatenation is the normalized text, which is the lines of the text,
    each stripped, without the blank ones, joined by single newlines:
    so for a text written as lines joined by newlines it is those lines
    treated that way, and for a text of one line it is the stripped line,
    the whitespace inside it as it was.  Each window but the last has
    exactly 900 characters, the last 1 to 900; a blank text gives no
    window. *)
Theorem chunk_text_windows (text : string) :
  exists ws,
    _chunk_text text 900 = Some ws
    /\ join EmptyString ws
       = join newline
           (map strip
                (filter (fun line => negb (blank line)) (splitlines text)))
    /\ (forall lines,
          Forall (fun line => one_line line = true) lines ->
          text = join newline lines ->
          join EmptyString ws
          = join newline
              (map strip (filter (fun line => negb (blank line)) lines)))
    /\ (one_line text = true -> join EmptyString ws = strip text)
    /\ windows_ok 900 ws
    /\ Forall (fun w => 1 <= String.length w <= 900) ws
    /\ (blank text = true -> ws = []).
Proof.
  destruct (chunk_text_spec text) as (ws & Hrun & Hjoin & Hok).
  rewrite clean_lines_lines in Hjoin.
  assert (Hlines : forall lines,
             Forall (fun line => one_line line = true) lines ->
             text = join newline lines ->
             join EmptyString ws
             = join newline
                 (map strip (filter (fun line => negb (blank line)) lines))).
  { intros lines Hone ->. now rewrite Hjoin, splitlines_join. }
  exists ws.
  split; [exact Hrun|]. split; [exact Hjoin|]. split; [exact Hlines|].
  split; [|split; [exact Hok|split; [now apply windows_ok_bounds|]]].
  - intros Hone.
    rewrite (Hlines [text]) by (repeat constructor; exact Hone).
    cbn [filter]. destruct (blank text) eqn:Hb; cbn [negb map join].
    + now rewrite strip_blank.
    + reflexivity.
  - intros Hb.
    rewrite chunk_text_returns in Hrun.
    injection Hrun as <-. now apply windows_blank.
Qed.

(** C3 on a text of three lines, one of them blank, and on the blank text
    of the repository's test. *)
Lemma chunk_text_windows_witness :
  (exists ws,
      _chunk_text Scenarios.ragged_text 900 = Some ws
      /\ join EmptyString ws = ("a  b" ++ newline ++ "c")%string
      /\ ws = [("a  b" ++ newline ++ "c")%string])
  /\ blank Scenarios.blank_text = true
  /\ _chunk_text Scenarios.blank_text 900 = Some [].
Proof.
  split.
  - destruct (chunk_text_windows Scenarios.ragged_text)
      as (ws & Hrun & Hjoin & _).
    exists ws. split; [exact Hrun|]. split.
    + rewrite Hjoin. reflexivity.
    + vm_compute in Hrun. now injection Hrun as <-.
  - split; [reflexivity|].
    destruct (chunk_text_windows Scenarios.blank_text)
      as (ws & Hrun & _ & _ & _ & _ & _ & Hblank).
    rewrite Hrun. f_equal. apply Hblank. reflexivity.
Defined.

(** C3 as stated fails on "collapsing runs of whitespace": two spaces
    inside a line come out as they went in. *)
Lemma chunk_text_keeps_inner_runs :
  _chunk_text "a  b" 900 = Some ["a  b"]
  /\ spec_runs_collapsed (join EmptyString ["a  b"]) = false.
Proof.
  split; vm_compute; reflexivity.
Qed.

End ChunkFacts.

(** ** Ranking *)

Module RankFacts.
Import Text Rag.

Lemma insert_desc_Forall (P : RankedChunk -> Prop) (x : RankedChunk)
      (l : list RankedChunk) :
  P x -> Forall P l -> Forall P (insert_desc x l).
Proof.
  intros Hx Hl.
  induction Hl as [|y l Hy Hl IH]; simpl.
  - constructor; [exact Hx | constructor].
  - destruct (Qle_bool (score y) (score x)); repeat constructor; auto.
Qed.

Lemma insert_desc_sorted (x : RankedChunk) (l : list RankedChunk) :
  StronglySorted ge_score l -> StronglySorted ge_score (insert_desc x l).
Proof.
  induction l as [|y l IH]; intros Hs; simpl.
  - constructor; [constructor | constructor].
  - apply StronglySorted_inv in Hs as [Hl Hy].
    destruct (Qle_bool (score y) (score x)) eqn:Hle.
    + apply Qle_bool_iff in Hle.
      constructor; [constructor; assumption|].
      constructor; [exact Hle|].
      eapply Forall_impl; [|exact Hy].
      intros z Hz. unfold ge_score in *.
      eapply Qle_trans; eassumption.
    + constructor; [apply IH; exact Hl|].
      apply insert_desc_Forall; [|exact Hy].
      unfold ge_score. apply Qlt_le_weak, Qnot_le_lt.
      intros Hc. apply Qle_bool_iff in Hc. congruence.
Qed.

Lemma sort_desc_sorted (l : list RankedChunk) :
  StronglySorted ge_score (sort_desc l).
Proof.
  induction l as [|x l IH]; simpl; [constructor|].
  now apply insert_desc_sorted.
Qed.

Lemma firstn_sorted (n : nat) (l : list RankedChunk) :
  StronglySorted ge_score l -> StronglySorted ge_score (firstn n l).
Proof.
  revert l; induction n as [|n IH]; intros l Hs; simpl; [constructor|].
  destruct l as [|x l]; [constructor|].
  apply StronglySorted_inv in Hs as [Hl Hx].
  constructor; [apply IH; exact Hl|].
  rewrite Forall_forall in *. intros y Hy.
  apply Hx. revert Hy. clear. revert l.
  induction n as [|n IH]; intros [|z l]; simpl; try tauto.
  intros [->|H]; auto.
Qed.

Lemma py_prefix_firstn {A : Type} (l : list A) (k : Z) :
  exists n, py_prefix l k = firstn n l.
Proof.
  unfold py_prefix. destruct (0 <=? k)%Z; eexists; reflexivity.
Qed.

Lemma py_prefix_sorted (l : list RankedChunk) (k : Z) :
  StronglySorted ge_score l -> StronglySorted ge_score (py_prefix l k).
Proof.
  intros Hs. destruct (py_prefix_firstn l k) as [n ->].
  now apply firstn_sorted.
Qed.

Lemma py_prefix_length {A : Type} (l : list A) (k : Z) :
  (0 <= k)%Z -> (Z.of_nat (List.length (py_prefix l k)) <= k)%Z.
Proof.
  intros Hk. unfold py_prefix.
  destruct (Z.leb_spec 0 k) as [_|Hneg]; [|lia].
  pose proof (firstn_le_length (Z.to_nat k) l). lia.
Qed.

Lemma sorted_non_increasing (l : list RankedChunk) :
  StronglySorted ge_score l -> non_increasing l.
Proof.
  induction l as [|x l IH]; intros Hs i j a b Hij Ha Hb.
  - destruct i; discriminate.
  - apply StronglySorted_inv in Hs as [Hl Hx].
    destruct i as [|i], j as [|j]; simpl in Ha, Hb.
    + injection Ha as <-. injection Hb as <-. apply Qle_refl.
    + injection Ha as <-.
      rewrite Forall_forall in Hx.
      apply Hx. eapply nth_error_In; eassumption.
    + lia.
    + apply (IH Hl i j); auto. lia.
Qed.

(** Both stage-1 rankers return a sorted list. *)
Lemma initial_retrieval_sorted (m : models) (q : string)
      (chunks : list chunk) (top_k : Z) (candidates : list RankedChunk) :
  initial_retrieval m q chunks top_k = Ok candidates ->
  StronglySorted ge_score candidates.
Proof.
  unfold initial_retrieval, _bi_encoder_rank, _tfidf_rank, try_except, bind.
  destruct (get_bi_encoder m) as [model|msg].
  - destruct (model q (map chunk_text chunks)) as [scores|msg].
    + intros [= <-]. apply py_prefix_sorted, sort_desc_sorted.
    + destruct (tfidf_similarity m q (map chunk_text chunks)); [|discriminate].
      intros [= <-]. apply py_prefix_sorted, sort_desc_sorted.
  - destruct (tfidf_similarity m q (map chunk_text chunks)); [|discriminate].
    intros [= <-]. apply py_prefix_sorted, sort_desc_sorted.
Qed.

(** The reranker's outcome is a prefix of a sorted list or of the
    candidates as they came. *)
Lemma rerank_cases (m : models) (q : string)
      (candidates : list RankedChunk) (top_k : Z) :
  _cross_encoder_rerank m q candidates top_k
    = Ok (py_prefix candidates top_k)
  \/ exists scores,
      _cross_encoder_rerank m q candidates top_k
      = Ok (py_prefix (sort_desc (assign_scores candidates scores)) top_k).
Proof.
  unfold _cross_encoder_rerank, try_except, bind.
  destruct (get_cross_encoder m) as [reranker|msg]; [|now left].
  destruct (reranker _) as [scores|msg]; [|now left].
  right. now exists scores.
Qed.

Lemma no_windows_no_chunks (docs : list document) :
  Forall (fun doc => windows (doc_text doc) = []) docs ->
  all_chunks docs = [].
Proof.
  unfold all_chunks.
  induction 1 as [|doc docs Hdoc _ IH]; simpl; [reflexivity|].
  now rewrite Hdoc, IH.
Qed.

Lemma rank_chunks_no_chunks (m : models) (q : string)
      (docs : list document) (top_k : Z) :
  all_chunks docs = [] -> rank_chunks m q docs top_k = Ok [].
Proof.
  intros H. unfold rank_chunks. now rewrite H.
Qed.

(** C4, as the code has it: without windows (no document, or documents
    whose texts give none) [rank_chunks] returns the empty list, whatever
    the models and [top_k]; and once stage 1 has returned candidates it
    returns, for every [top_k], a list whose scores do not go up, of at
    most [top_k] chunks when [top_k] is not negative. *)
Theorem rank_chunks_bounded_sorted (m : models) (q : string)
        (docs : list document) (top_k : Z) :
  rank_chunks m q [] top_k = Ok []
  /\ (Forall (fun doc => windows (doc_text doc) = []) docs ->
      rank_chunks m q docs top_k = Ok [])
  /\ (forall candidates,
        initial_retrieval m q (all_chunks docs) top_k = Ok candidates ->
        exists ranked,
          rank_chunks m q docs top_k = Ok ranked
          /\ non_increasing ranked
          /\ ((0 <= top_k)%Z ->
              (Z.of_nat (List.length ranked) <= top_k)%Z)).
Proof.
  split; [reflexivity|].
  split.
  { intros H. now apply rank_chunks_no_chunks, no_windows_no_chunks. }
  intros candidates Hstage.
  unfold rank_chunks.
  destruct (all_chunks docs) as [|c chunks] eqn:Hchunks.
  - exists []. repeat split; [|simpl; lia].
    intros [|i] j a b _ Ha; discriminate.
  - rewrite Hstage. simpl.
    pose proof (initial_retrieval_sorted _ _ _ _ _ Hstage) as Hsorted.
    destruct (rerank_cases m q candidates top_k) as [-> | [scores ->]];
      eexists; (split; [reflexivity|]); split.
    + now apply sorted_non_increasing, py_prefix_sorted.
    + now apply py_prefix_length.
    + apply sorted_non_increasing, py_prefix_sorted, sort_desc_sorted.
    + now apply py_prefix_length.
Qed.

(** C4 as stated fails in two ways: with [top_k = -1] the slices count
    from the end and leave one chunk of five, more than [top_k]; and when
    neither stage-1 ranker works the exception of the fallback leaves
    [rank_chunks]. *)
Lemma rank_chunks_negative_or_raising :
  (exists ranked,
      rank_chunks Scenarios.lexical_only "beaches" Scenarios.five_pages (-1)
      = Ok ranked
      /\ (-1 < Z.of_nat (List.length ranked))%Z)
  /\ rank_chunks Scenarios.no_ranker "beaches" Scenarios.stop_word_pages 5
     = Raise "empty vocabulary; perhaps the documents only contain stop words".
Proof.
  split.
  - eexists. split; [vm_compute; reflexivity | simpl; lia].
  - vm_compute. reflexivity.
Qed.

(** C4 at a run with [top_k = 2], and at one with [top_k = -1], where
    the order still holds. *)
Lemma rank_chunks_bounded_sorted_witness :
  (exists ranked,
      rank_chunks Scenarios.lexical_only "beaches" Scenarios.five_pages 2
      = Ok ranked
      /\ non_increasing ranked
      /\ (Z.of_nat (List.length ranked) <= 2)%Z)
  /\ (exists ranked,
        rank_chunks Scenarios.lexical_only "beaches" Scenarios.five_pages (-1)
        = Ok ranked
        /\ non_increasing ranked).
Proof.
  split.
  - destruct (rank_chunks_bounded_sorted
                Scenarios.lexical_only "beaches" Scenarios.five_pages 2)
      as (_ & _ & H).
    destruct (H _ ltac:(vm_compute; reflexivity))
      as (ranked & Hrun & Hsorted & Hlen).
    exists ranked. repeat split; [exact Hrun | exact Hsorted | apply Hlen; lia].
  - destruct (rank_chunks_bounded_sorted
                Scenarios.lexical_only "beaches" Scenarios.five_pages (-1))
      as (_ & _ & H).
    destruct (H _ ltac:(vm_compute; reflexivity))
      as (ranked & Hrun & Hsorted & _).
    exists ranked. split; [exact Hrun | exact Hsorted].
Defined.

(** C5: when the reranker is unavailable or raises, the rerank step
    returns the candidates in the order they came, cut by [[:top_k]], and
    so does [rank_chunks] on the candidates of stage 1; nothing is raised. *)
Theorem rerank_failure_keeps_order (m : models) (q : string)
        (candidates : list RankedChunk) (top_k : Z) :
  reranker_fails m q candidates ->
  _cross_encoder_rerank m q candidates top_k
    = Ok (py_prefix candidates top_k)
  /\ forall docs,
      all_chunks docs <> [] ->
      initial_retrieval m q (all_chunks docs) top_k = Ok candidates ->
      rank_chunks m q docs top_k = Ok (py_prefix candidates top_k).
Proof.
  intros Hfail.
  assert (Hrerank : _cross_encoder_rerank m q candidates top_k
                    = Ok (py_prefix candidates top_k)).
  { unfold _cross_encoder_rerank, try_except, bind.
    destruct Hfail as [[msg ->] | (reranker & msg & -> & ->)]; reflexivity. }
  split; [exact Hrerank|].
  intros docs Hne Hstage. unfold rank_chunks.
  destruct (all_chunks docs); [congruence|].
  rewrite Hstage. exact Hrerank.
Qed.

Lemma rerank_failure_keeps_order_witness :
  reranker_fails Scenarios.lexical_only "beaches" Scenarios.two_candidates
  /\ _cross_encoder_rerank Scenarios.lexical_only "beaches"
                           Scenarios.two_candidates 1
     = Ok (firstn 1 Scenarios.two_candidates).
Proof.
  assert (H : reranker_fails Scenarios.lexical_only "beaches"
                             Scenarios.two_candidates)
    by (left; eexists; reflexivity).
  split; [exact H|].
  exact (proj1 (rerank_failure_keeps_order _ _ _ 1%Z H)).
Defined.

(** The rerank step never raises. *)
Lemma rerank_returns (m : models) (q : string)
      (candidates : list RankedChunk) (top_k : Z) :
  exists ranked, _cross_encoder_rerank m q candidates top_k = Ok ranked.
Proof.
  destruct (rerank_cases m q candidates top_k) as [H | [scores H]];
    rewrite H; eexists; reflexivity.
Qed.

End RankFacts.

(** ** Dictionaries *)

Module DictFacts.
Import Dict.

Section Facts.
Context {V : Type}.
Implicit Types (d : dict V) (k : string) (v : V).

Lemma get_set_same k v d : get k (set k v d) = Some v.
Proof.
  induction d as [|[k' v'] d IH]; simpl.
  - now rewrite String.eqb_refl.
  - destruct (String.eqb k k') eqn:E; simpl.
    + now rewrite String.eqb_refl.
    + now rewrite E.
Qed.

Lemma get_set_other k k' v d :
  k <> k' -> get k' (set k v d) = get k' d.
Proof.
  intros Hne.
  assert (Hkk : String.eqb k' k = false)
    by (apply String.eqb_neq; congruence).
  induction d as [|[k0 v0] d IH]; simpl.
  - now rewrite Hkk.
  - destruct (String.eqb k k0) eqn:E; simpl.
    + apply String.eqb_eq in E. subst k0. now rewrite Hkk.
    + now rewrite IH.
Qed.

Lemma get_In k v d : get k d = Some v -> In (k, v) d.
Proof.
  induction d as [|[k' v'] d IH]; simpl; [discriminate|].
  destruct (String.eqb k k') eqn:E.
  - apply String.eqb_eq in E. intros [= ->]. left. now subst.
  - intros H. right. auto.
Qed.

Lemma get_None_keys k d : get k d = None <-> ~ In k (keys d).
Proof.
  induction d as [|[k' v'] d IH]; simpl; [tauto|].
  destruct (String.eqb k k') eqn:E.
  - apply String.eqb_eq in E. subst. split; [discriminate | tauto].
  - apply String.eqb_neq in E. rewrite IH. split; intros H.
    + intros [H1|H1]; [congruence | tauto].
    + tauto.
Qed.

Lemma In_get k v d : NoDup (keys d) -> In (k, v) d -> get k d = Some v.
Proof.
  induction d as [|[k' v'] d IH]; simpl; [tauto|].
  intros Hnd [Heq|Hin].
  - injection Heq as -> ->. now rewrite String.eqb_refl.
  - inversion Hnd as [|? ? Hk' Hnd']; subst.
    destruct (String.eqb k k') eqn:E.
    + apply String.eqb_eq in E. subst k'.
      exfalso. apply Hk'. unfold keys.
      change k with (fst (k, v)). now apply in_map.
    + auto.
Qed.

Lemma keys_set_present k v d :
  In k (keys d) -> keys (set k v d) = keys d.
Proof.
  induction d as [|[k' v'] d IH]; simpl; [tauto|].
  intros Hin.
  destruct (String.eqb k k') eqn:E; simpl.
  - apply String.eqb_eq in E. now subst.
  - apply String.eqb_neq in E. f_equal. apply IH.
    destruct Hin; [congruence | assumption].
Qed.

Lemma keys_set_absent k v d :
  ~ In k (keys d) -> keys (set k v d) = keys d ++ [k].
Proof.
  induction d as [|[k' v'] d IH]; simpl; [reflexivity|].
  intros Hnin.
  destruct (String.eqb k k') eqn:E; simpl.
  - apply String.eqb_eq in E. subst. tauto.
  - f_equal. apply IH. tauto.
Qed.

Lemma get_app k d d' :
  get k (d ++ d') = match get k d with Some v => Some v | None => get k d' end.
Proof.
  induction d as [|[k' v'] d IH]; simpl; [reflexivity|].
  destruct (String.eqb k k'); auto.
Qed.

End Facts.

End DictFacts.

(** ** Evidence grouping *)

Module EvidenceFacts.
Import Text Rag Dict Orchestrator DictFacts.

Lemma of_url_snoc (k : string) (seen : list RankedChunk) (ch : RankedChunk) :
  of_url k (seen ++ [ch])
  = of_url k seen ++ (if String.eqb (url ch) k then [ch] else []).
Proof.
  unfold of_url. rewrite filter_app. reflexivity.
Qed.

Lemma firstn_snoc_short {A : Type} (n : nat) (l : list A) (x : A) :
  List.length (firstn n l) < n -> firstn n (l ++ [x]) = firstn n l ++ [x].
Proof.
  rewrite length_firstn. intros H.
  assert (Hl : List.length l < n) by lia.
  rewrite firstn_app, firstn_all2 by lia.
  f_equal.
  destruct (n - List.length l) eqn:E; [lia | now destruct n0].
Qed.

Lemma firstn_snoc_full {A : Type} (n : nat) (l : list A) (x : A) :
  ~ List.length (firstn n l) < n -> firstn n (l ++ [x]) = firstn n l.
Proof.
  rewrite length_firstn. intros H.
  rewrite firstn_app.
  replace (n - List.length l) with 0 by lia.
  simpl. apply app_nil_r.
Qed.

Lemma grouped_other (k : string) (seen : list RankedChunk) (ch : RankedChunk) :
  url ch <> k -> grouped k (seen ++ [ch]) = grouped k seen.
Proof.
  intros Hne. unfold grouped. rewrite of_url_snoc.
  apply String.eqb_neq in Hne. rewrite Hne, app_nil_r. reflexivity.
Qed.

Lemma evidence_step_grouping (by_url : dict EvidenceItem)
      (seen : list RankedChunk) (ch : RankedChunk) :
  grouping by_url seen -> grouping (evidence_step by_url ch) (seen ++ [ch]).
Proof.
  intros [Hnd Hget]. unfold evidence_step.
  pose proof (Hget (url ch)) as Hk.
  destruct (get (url ch) by_url) as [item|] eqn:Hitem.
  - (* the url has an item already *)
    unfold grouped in Hk.
    destruct (of_url (url ch) seen) as [|c cs] eqn:Hof; [discriminate|].
    assert (Hi : item = mkEvidenceItem (url ch) (title c)
                                       (firstn 6 (map text (c :: cs))))
      by congruence.
    subst item. cbn [snippets ev_url ev_title].
    assert (Hin : In (url ch) (keys by_url)).
    { destruct (in_dec string_dec (url ch) (keys by_url)) as [H|H]; auto.
      apply get_None_keys in H. congruence. }
    destruct (Nat.ltb_spec (List.length (firstn 6 (map text (c :: cs)))) 6)
      as [Hshort|Hfull].
    + split.
      * now rewrite keys_set_present.
      * intros k. destruct (string_dec (url ch) k) as [<-|Hne].
        -- rewrite get_set_same. unfold grouped.
           rewrite of_url_snoc, String.eqb_refl, Hof.
           rewrite map_app. change (map text [ch]) with [text ch].
           rewrite firstn_snoc_short by exact Hshort.
           reflexivity.
        -- rewrite get_set_other, grouped_other by assumption. apply Hget.
    + split; [exact Hnd|].
      intros k. destruct (string_dec (url ch) k) as [<-|Hne].
      * rewrite Hitem. unfold grouped.
        rewrite of_url_snoc, String.eqb_refl, Hof.
        rewrite map_app. change (map text [ch]) with [text ch].
        rewrite firstn_snoc_full by lia. reflexivity.
      * rewrite grouped_other by assumption. apply Hget.
  - (* a new url *)
    unfold grouped in Hk.
    destruct (of_url (url ch) seen) as [|c cs] eqn:Hof; [|discriminate].
    cbn [snippets ev_url ev_title List.length].
    change (0 <? 6) with true. cbv iota.
    assert (Hnin : ~ In (url ch) (keys by_url)) by now apply get_None_keys.
    assert (Hset : set (url ch)
                       (mkEvidenceItem (url ch) (title ch) ([] ++ [text ch]))
                       (by_url ++ [(url ch, mkEvidenceItem (url ch) (title ch) [])])
                   = by_url ++ [(url ch, mkEvidenceItem (url ch) (title ch) [text ch])]).
    { clear - Hnin. induction by_url as [|[k' v'] d IH]; simpl.
      - now rewrite String.eqb_refl.
      - simpl in Hnin.
        destruct (String.eqb (url ch) k') eqn:E.
        + apply String.eqb_eq in E. subst. tauto.
        + f_equal. apply IH. tauto. }
    rewrite Hset. split.
    + unfold keys in *. rewrite map_app. simpl.
      apply NoDup_app; [exact Hnd | repeat constructor; simpl; tauto|].
      intros x Hx [<-|[]]. tauto.
    + intros k. rewrite get_app.
      destruct (string_dec (url ch) k) as [<-|Hne].
      * rewrite Hitem. simpl. rewrite String.eqb_refl.
        unfold grouped. rewrite of_url_snoc, String.eqb_refl, Hof.
        reflexivity.
      * rewrite grouped_other by assumption. rewrite Hget.
        destruct (grouped k seen); [reflexivity|].
        simpl. apply String.eqb_neq in Hne.
        rewrite String.eqb_sym, Hne. reflexivity.
Qed.

Lemma fold_grouping (chunks seen : list RankedChunk)
      (by_url : dict EvidenceItem) :
  grouping by_url seen ->
  grouping (fold_left evidence_step chunks by_url) (seen ++ chunks).
Proof.
  revert seen by_url.
  induction chunks as [|ch chunks IH]; intros seen by_url H; simpl.
  - now rewrite app_nil_r.
  - replace (seen ++ ch :: chunks) with ((seen ++ [ch]) ++ chunks)
      by (now rewrite <- app_assoc).
    apply IH. now apply evidence_step_grouping.
Qed.

Lemma grouping_urls (by_url : dict EvidenceItem) (seen : list RankedChunk) :
  grouping by_url seen -> map ev_url (values by_url) = keys by_url.
Proof.
  intros [Hnd Hget]. unfold values, keys. rewrite map_map.
  apply map_ext_in. intros [k item] Hin. simpl.
  apply In_get in Hin; [|exact Hnd].
  rewrite Hget in Hin. unfold grouped in Hin.
  destruct (of_url k seen); [discriminate|].
  now injection Hin as <-.
Qed.

(** C9: the items of [_to_evidence] have pairwise distinct urls, every
    url of a chunk has its item, and an item holds the texts of the first
    six chunks of its url, in the order the chunks came. *)
Theorem to_evidence_grouped (chunks : list RankedChunk) :
  NoDup (map ev_url (_to_evidence chunks))
  /\ Forall (fun item =>
               List.length (snippets item) <= 6
               /\ snippets item
                  = firstn 6 (map text (of_url (ev_url item) chunks)))
            (_to_evidence chunks)
  /\ Forall (fun ch => In (url ch) (map ev_url (_to_evidence chunks))) chunks.
Proof.
  unfold _to_evidence.
  assert (G : grouping (fold_left evidence_step chunks []) chunks).
  { apply (fold_grouping chunks [] []). split; [constructor | reflexivity]. }
  pose proof (grouping_urls _ _ G) as Hurls.
  destruct G as [Hnd Hget].
  split; [now rewrite Hurls|].
  split.
  - apply Forall_forall. intros item Hin.
    unfold values in Hin. apply in_map_iff in Hin as ([k item'] & <- & Hin).
    simpl. apply In_get in Hin; [|exact Hnd].
    rewrite Hget in Hin. unfold grouped in Hin.
    destruct (of_url k chunks) as [|c cs] eqn:Hof; [discriminate|].
    assert (Hi : item' = mkEvidenceItem k (title c)
                                        (firstn 6 (map text (c :: cs))))
      by congruence.
    subst item'. cbn [snippets ev_url]. rewrite Hof.
    split; [apply firstn_le_length | reflexivity].
  - apply Forall_forall. intros ch Hin. rewrite Hurls.
    destruct (in_dec string_dec (url ch) (keys (fold_left evidence_step chunks [])))
      as [H|H]; [exact H|].
    exfalso. apply get_None_keys in H. rewrite Hget in H.
    unfold grouped in H.
    destruct (of_url (url ch) chunks) eqn:Hof; [|discriminate].
    assert (Hc : In ch (of_url (url ch) chunks)).
    { unfold of_url. apply filter_In. split; [exact Hin|].
      apply String.eqb_refl. }
    rewrite Hof in Hc. destruct Hc.
Qed.

End EvidenceFacts.

(** ** Conflict detection *)

Module ConflictFacts.
Import Text Dict Orchestrator DictFacts.

Lemma high_risks_not_low (agent_name : string) (risks : list value) :
  filter is_low_confidence (high_risks agent_name risks) = [].
Proof.
  unfold high_risks.
  induction risks as [|risk risks IH]; simpl; [reflexivity|].
  rewrite filter_app, IH, app_nil_r.
  destruct risk; try reflexivity.
  destruct (is_str "high" (get "severity" d)); reflexivity.
Qed.

(** The risk loop adds no low-confidence warning. *)
Lemma risk_loop_low (items : dict (dict value)) :
  forall acc cs,
    risk_loop items acc = Ok cs ->
    filter is_low_confidence cs = filter is_low_confidence acc.
Proof.
  induction items as [|[name data] items IH]; intros acc cs; simpl.
  - now intros [= <-].
  - destruct (iterate (get_or "risks" (VList []) data)) as [risks|msg];
      simpl; [|discriminate].
    intros H. apply IH in H.
    now rewrite H, filter_app, high_risks_not_low, app_nil_r.
Qed.

Lemma iterate_returns (v : value) :
  (exists l, iterate v = Ok l) <-> iterable v = true.
Proof.
  destruct v; simpl; split;
    try (intros [l H]; discriminate); try discriminate;
    try reflexivity; intros _; eexists; reflexivity.
Qed.

Lemma risk_loop_returns (items : dict (dict value)) :
  forall acc,
    (exists cs, risk_loop items acc = Ok cs)
    <-> forallb (fun entry : string * dict value =>
                   iterable (get_or "risks" (VList []) (snd entry)))
                items = true.
Proof.
  induction items as [|[name data] items IH]; intros acc; simpl.
  - split; [reflexivity | intros _; eexists; reflexivity].
  - rewrite andb_true_iff, <- iterate_returns.
    destruct (iterate (get_or "risks" (VList []) data)) as [risks|msg]; simpl.
    + rewrite IH. split; [intros H; split; [eexists; reflexivity | exact H]|].
      now intros [_ H].
    + split; [intros [cs H]; discriminate|].
      intros [[l H] _]. discriminate.
Qed.

(** The confidence loop, when it returns, has added the warnings due. *)
Lemma confidence_loop_adds (items : dict (dict value)) :
  forall acc cs,
    confidence_loop items acc = Ok cs ->
    cs = acc ++ low_confidence_due items.
Proof.
  induction items as [|[name data] items IH]; intros acc cs; simpl.
  - intros [= <-]. now rewrite app_nil_r.
  - unfold confidence_of. simpl.
    destruct (is_low (get_or "confidence" (VFloat 1) data)).
    + destruct (percent_overflows (get_or "confidence" (VFloat 1) data));
        [discriminate|].
      intros H. apply IH in H. now rewrite H, <- app_assoc.
    + apply IH.
Qed.

Lemma confidence_loop_returns (items : dict (dict value)) :
  forall acc,
    (exists cs, confidence_loop items acc = Ok cs)
    <-> forallb (fun entry : string * dict value =>
                   negb (is_low (confidence_of (snd entry))
                         && percent_overflows (confidence_of (snd entry))))
                items = true.
Proof.
  induction items as [|[name data] items IH]; intros acc; simpl.
  - split; [reflexivity | intros _; eexists; reflexivity].
  - unfold confidence_of at 1 2. simpl.
    destruct (is_low (get_or "confidence" (VFloat 1) data)); simpl.
    + destruct (percent_overflows (get_or "confidence" (VFloat 1) data));
        simpl.
      * split; [intros [cs H]; discriminate | discriminate].
      * apply IH.
    + apply IH.
Qed.

Lemma filter_low_due (results : dict (dict value)) :
  filter is_low_confidence (low_confidence_due results)
  = low_confidence_due results.
Proof.
  unfold low_confidence_due.
  induction results as [|[name data] results IH]; simpl; [reflexivity|].
  rewrite filter_app, IH.
  destruct (is_low (confidence_of data)); reflexivity.
Qed.

(** The affordability block raises or adds one of its two warnings. *)
Lemma detect_unfold (results : dict (dict value)) (cs : list conflict) :
  _detect_conflicts results = Ok cs ->
  affordability_readable results = true
  /\ exists afford after_risks,
      filter is_low_confidence afford = []
      /\ risk_loop results afford = Ok after_risks
      /\ confidence_loop results after_risks = Ok cs.
Proof.
  unfold _detect_conflicts, affordability_readable, value_get, bind.
  destruct (get_or "plan" (VDict []) (get_or "financial" [] results))
    as [| | | | | |plan]; try discriminate.
  destruct (get "travel_affordability_check" plan) as [afford|].
  - destruct afford as [| | | | | |a]; try discriminate.
    intros H. split; [reflexivity|].
    match type of H with
    | match risk_loop _ ?acc with _ => _ end = _ =>
        destruct (risk_loop results acc) as [after|msg] eqn:Hr;
        [exists acc, after | discriminate]
    end.
    repeat split; auto.
    destruct (is_str "likely_not_ok" (get "status" a)); [reflexivity|].
    destruct (is_str "uncertain" (get "status" a)); reflexivity.
  - intros H. split; [reflexivity|].
    simpl in H.
    destruct (risk_loop results []) as [after|msg] eqn:Hr; [|discriminate].
    exists [], after. auto.
Qed.

Lemma detect_returns (results : dict (dict value)) :
  well_shaped results = true ->
  exists cs, _detect_conflicts results = Ok cs.
Proof.
  unfold well_shaped. rewrite !andb_true_iff.
  intros [[Ha Hr] Hc].
  unfold _detect_conflicts, affordability_readable, value_get, bind in *.
  destruct (get_or "plan" (VDict []) (get_or "financial" [] results))
    as [| | | | | |plan]; try discriminate.
  destruct (get "travel_affordability_check" plan) as [afford|].
  - destruct afford as [| | | | | |a]; try discriminate.
    match goal with
    | |- exists _, match risk_loop _ ?acc with _ => _ end = _
      => destruct (proj2 (risk_loop_returns results acc) Hr) as [after ->]
    end.
    apply confidence_loop_returns. exact Hc.
  - simpl.
    destruct (proj2 (risk_loop_returns results []) Hr) as [after ->].
    apply confidence_loop_returns. exact Hc.
Qed.

Lemma detect_shape (results : dict (dict value)) (cs : list conflict) :
  _detect_conflicts results = Ok cs -> well_shaped results = true.
Proof.
  intros H. apply detect_unfold in H
    as (Ha & afford & after & _ & Hr & Hc).
  unfold well_shaped. rewrite !andb_true_iff. repeat split.
  - exact Ha.
  - apply (risk_loop_returns results afford). now exists after.
  - apply (confidence_loop_returns results after). now exists cs.
Qed.

Lemma detect_low (results : dict (dict value)) (cs : list conflict) :
  _detect_conflicts results = Ok cs ->
  filter is_low_confidence cs = low_confidence_due results.
Proof.
  intros H. apply detect_unfold in H
    as (_ & afford & after & Hafford & Hr & Hc).
  apply risk_loop_low in Hr. apply confidence_loop_adds in Hc.
  now rewrite Hc, filter_app, Hr, Hafford, filter_low_due.
Qed.

(** A low entry of the results map has its warning in the list. *)
Lemma detect_warns (results : dict (dict value)) (cs : list conflict)
      (name : string) (data : dict value) :
  _detect_conflicts results = Ok cs ->
  In (name, data) results ->
  is_low (confidence_of data) = true ->
  In (LowConfidence (Text.title name) (confidence_of data)) cs.
Proof.
  intros H Hin Hlow.
  apply detect_low in H.
  assert (Hdue : In (LowConfidence (Text.title name) (confidence_of data))
                    (low_confidence_due results)).
  { unfold low_confidence_due. apply in_flat_map.
    exists (name, data). split; [exact Hin|].
    simpl. rewrite Hlow. now left. }
  rewrite <- H in Hdue. apply filter_In in Hdue. tauto.
Qed.

(** C7, as the code has it: on the empty map the list is empty;
    detection runs to its end exactly on the well-shaped maps; and when
    it does, the low-confidence warnings of its list are those due, one
    for each agent whose confidence is a number ([bool] counts) below
    0.4, tagged with the title-cased name; a result without a confidence
    has confidence 1.0 and is owed none. *)
Theorem low_confidence_warnings (results : dict (dict value)) :
  _detect_conflicts [] = Ok []
  /\ ((exists cs, _detect_conflicts results = Ok cs)
      <-> well_shaped results = true)
  /\ (forall cs,
        _detect_conflicts results = Ok cs ->
        filter is_low_confidence cs = low_confidence_due results)
  /\ (forall agent_data,
        get "confidence" agent_data = None ->
        confidence_of agent_data = VFloat 1
        /\ is_low (confidence_of agent_data) = false).
Proof.
  split; [reflexivity|].
  split.
  { split; [intros [cs H]; eapply detect_shape; eassumption|].
    apply detect_returns. }
  split; [apply detect_low|].
  intros data Hnone. unfold confidence_of, get_or. rewrite Hnone.
  split; reflexivity.
Qed.

(** C7 as stated fails where detection does not run to its end: the
    health agent's confidence 0.2 is below 0.4, but [risks: null] raises
    in the loop before, and no warning is emitted. *)
Lemma low_confidence_lost_on_raise :
  is_low (confidence_of [("confidence", VFloat Scenarios.float_0_2);
                         ("risks", VNone)])
    = true
  /\ _detect_conflicts Scenarios.null_risks
     = Raise "'NoneType' object is not iterable".
Proof.
  split; vm_compute; reflexivity.
Qed.

(** C7 on the results of the repository's low-confidence test. *)
Lemma low_confidence_warnings_witness :
  well_shaped Scenarios.unsure_health = true
  /\ exists cs,
      _detect_conflicts Scenarios.unsure_health = Ok cs
      /\ filter is_low_confidence cs
         = [LowConfidence "Health" (VFloat Scenarios.float_0_2)].
Proof.
  destruct (low_confidence_warnings Scenarios.unsure_health)
    as (_ & [_ Hret] & Hlow & _).
  split; [reflexivity|].
  destruct (Hret eq_refl) as [cs Hcs].
  exists cs. split; [exact Hcs | exact (Hlow cs Hcs)].
Defined.

End ConflictFacts.

(** ** The fan-out *)

Module OrchestrateFacts.
Import Text Dict Classifier Orchestrator DictFacts.

Lemma classify_query_names (m a : string) :
  In a (classify_query m) ->
  a = "travel" \/ a = "financial" \/ a = "health".
Proof.
  unfold classify_query. rewrite ClassifierFacts.route_table.
  destruct (score _TRAVEL_PATTERNS (lower m)),
           (score _HEALTH_PATTERNS (lower m)),
           (score _FINANCE_PATTERNS (lower m));
    simpl; intuition auto.
Qed.

Lemma mem_In (x : string) (xs : list string) :
  mem x xs = true <-> In x xs.
Proof.
  unfold mem. rewrite existsb_exists. split.
  - intros (y & Hy & E). apply String.eqb_eq in E. now subst.
  - intros H. exists x. split; [exact H | apply String.eqb_refl].
Qed.

Lemma gather_step (results : dict (dict value)) (name : string)
      (outcome : result (dict value)) (tasks : dict (result (dict value))) :
  gather_into results ((name, outcome) :: tasks)
  = gather_into (set name (slot_of outcome) results) tasks.
Proof.
  unfold gather_into. simpl. now destruct outcome.
Qed.

(** A slot that no task is named after stays as it is. *)
Lemma gather_keeps (tasks : dict (result (dict value))) :
  forall results name,
    ~ In name (keys tasks) ->
    get name (gather_into results tasks) = get name results.
Proof.
  induction tasks as [|[k o] tasks IH]; intros results name Hnin.
  - reflexivity.
  - rewrite gather_step. simpl in Hnin.
    rewrite IH by tauto.
    apply get_set_other. tauto.
Qed.

(** A task's slot holds its own outcome, whatever the other tasks did. *)
Lemma gather_get (tasks : dict (result (dict value))) :
  forall results name outcome,
    NoDup (keys tasks) ->
    get name tasks = Some outcome ->
    get name (gather_into results tasks) = Some (slot_of outcome).
Proof.
  induction tasks as [|[k o] tasks IH]; intros results name outcome Hnd Hget.
  - discriminate.
  - rewrite gather_step. simpl in Hget, Hnd.
    inversion Hnd as [|? ? Hk Hnd']; subst.
    destruct (String.eqb name k) eqn:E.
    + apply String.eqb_eq in E. subst k. injection Hget as ->.
      rewrite gather_keeps by assumption. apply get_set_same.
    + now apply IH.
Qed.

Section Tasks.
Variables (E : env) (user_profile : dict value).
Variables (active : list string) (ev : dict (list EvidenceItem)).
Variable travel_out : option (dict value).

Let tasks := concurrent_tasks E user_profile active ev travel_out.

Lemma tasks_nodup : NoDup (keys tasks).
Proof.
  unfold tasks, concurrent_tasks.
  destruct (mem "financial" active), (mem "health" active); simpl;
    repeat (constructor; [simpl; intuition discriminate|]); constructor.
Qed.

Lemma tasks_names (name : string) :
  In name (keys tasks) -> name = "financial" \/ name = "health".
Proof.
  unfold tasks, concurrent_tasks.
  destruct (mem "financial" active), (mem "health" active); simpl;
    intuition auto.
Qed.

Lemma tasks_of_active (name : string) :
  name = "financial" \/ name = "health" ->
  In name active ->
  exists outcome, get name tasks = Some outcome.
Proof.
  intros Hname Hin. apply mem_In in Hin.
  unfold tasks, concurrent_tasks.
  destruct Hname as [-> | ->]; rewrite Hin.
  - destruct (mem "health" active); simpl; eexists; reflexivity.
  - destruct (mem "financial" active); simpl; eexists; reflexivity.
Qed.
End Tasks.

(** What stages 0 to 3 leave behind when they return. *)
Lemma stages_inv (E : env) (user_profile : dict value)
      (allowed_domains seed_urls : list string) (k : Z) (st : staged) :
  stages_0_3 E user_profile allowed_domains seed_urls k = Ok st ->
  (exists message, st_active st = classify_query message)
  /\ (In "travel" (st_active st) ->
      exists out, get "travel" (st_results st) = Some out).
Proof.
  unfold stages_0_3, bind.
  destruct (get_or "message" (VStr EmptyString) user_profile)
    as [| | | |message| |]; try discriminate.
  destruct (rank_evidence _ _ _ _ _ _) as [evid|msg]; [|discriminate].
  destruct (mem "travel" (classify_query message)) eqn:Ht.
  - destruct (run_agent _ _ _ _ _) as [out|msg]; [|discriminate].
    intros [= <-]. simpl. split; [now exists message|].
    intros _. exists out. reflexivity.
  - intros [= <-]. simpl. split; [now exists message|].
    intros Hin. apply mem_In in Hin. congruence.
Qed.

Lemma orchestrate_unfold (E : env) (user_profile : dict value)
      (allowed_domains seed_urls : list string) (k : Z) (st : staged) :
  stages_0_3 E user_profile allowed_domains seed_urls k = Ok st ->
  orchestrate E user_profile allowed_domains seed_urls k
  = (conflicts <- _detect_conflicts (fan_out E user_profile st) ;;
     Ok (mkResponse (st_evidence st) (st_active st) conflicts
                    (List.length (st_pages st))
                    (fan_out E user_profile st))).
Proof.
  intros H. unfold orchestrate. now rewrite H.
Qed.

Lemma active_has_slot (E : env) (user_profile : dict value)
      (allowed_domains seed_urls : list string) (k : Z) (st : staged)
      (name : string) :
  stages_0_3 E user_profile allowed_domains seed_urls k = Ok st ->
  In name (st_active st) ->
  exists slot, get name (fan_out E user_profile st) = Some slot.
Proof.
  intros Hst Hin.
  destruct (stages_inv _ _ _ _ _ _ Hst) as [[message Hact] Htravel].
  assert (Hname : name = "travel" \/ name = "financial" \/ name = "health")
    by (rewrite Hact in Hin; eapply classify_query_names; eassumption).
  unfold fan_out.
  destruct Hname as [-> | Hfh].
  - destruct (Htravel Hin) as [out Hout].
    exists out. rewrite gather_keeps; [exact Hout|].
    intros Hk. apply tasks_names in Hk. destruct Hk; discriminate.
  - destruct (tasks_of_active E user_profile (st_active st) (st_evidence st)
                              (st_travel_out st) name Hfh Hin)
      as [outcome Hout].
    exists (slot_of outcome).
    apply gather_get; [apply tasks_nodup | exact Hout].
Qed.

(** Whether [orchestrate] returns, after stages 0 to 3, is whether
    conflict detection does. *)
Lemma orchestrate_outcome (E : env) (user_profile : dict value)
      (allowed_domains seed_urls : list string) (k : Z) (st : staged) :
  stages_0_3 E user_profile allowed_domains seed_urls k = Ok st ->
  (well_shaped (fan_out E user_profile st) = true ->
   exists cs,
     _detect_conflicts (fan_out E user_profile st) = Ok cs
     /\ orchestrate E user_profile allowed_domains seed_urls k
        = Ok (mkResponse (st_evidence st) (st_active st) cs
                         (List.length (st_pages st))
                         (fan_out E user_profile st)))
  /\ (well_shaped (fan_out E user_profile st) = false ->
      exists msg,
        orchestrate E user_profile allowed_domains seed_urls k = Raise msg).
Proof.
  intros Hst. rewrite (orchestrate_unfold _ _ _ _ _ _ Hst). unfold bind.
  split.
  - intros Hw. destruct (ConflictFacts.detect_returns _ Hw) as [cs Hcs].
    exists cs. now rewrite Hcs.
  - intros Hw.
    destruct (_detect_conflicts (fan_out E user_profile st)) as [cs|msg] eqn:Hd.
    + apply ConflictFacts.detect_shape in Hd. congruence.
    + now exists msg.
Qed.

(** The slot of a fan-out task that raised. *)
Lemma failed_task_slot (E : env) (user_profile : dict value) (st : staged)
      (name msg : string) :
  get name (concurrent_tasks E user_profile (st_active st)
                             (st_evidence st) (st_travel_out st))
    = Some (Raise msg) ->
  get name (fan_out E user_profile st)
  = Some [("error", VStr msg); ("confidence", VFloat 0)].
Proof.
  intros H. unfold fan_out.
  apply (gather_get _ (st_results st)) in H; [exact H|].
  apply tasks_nodup.
Qed.

(** C6, as the code has it: after stages 0 to 3, a fan-out task that
    raises leaves [{error: message, confidence: 0.0}] in its own slot, a
    task that returns leaves its result in its own slot whatever the
    sibling did, every active agent has a slot, and [orchestrate] goes on
    to conflict detection over these slots.  There is a final result,
    with these slots, exactly when detection returns, that is when the
    slots are well shaped; otherwise [orchestrate] raises. *)
Theorem fan_out_isolation (E : env) (user_profile : dict value)
        (allowed_domains seed_urls : list string) (k : Z) (st : staged) :
  stages_0_3 E user_profile allowed_domains seed_urls k = Ok st ->
  let tasks := concurrent_tasks E user_profile (st_active st)
                                (st_evidence st) (st_travel_out st) in
  let results := fan_out E user_profile st in
  (forall name msg,
      get name tasks = Some (Raise msg) ->
      get name results
      = Some [("error", VStr msg); ("confidence", VFloat 0)])
  /\ (forall name out,
        get name tasks = Some (Ok out) -> get name results = Some out)
  /\ (forall name,
        In name (st_active st) -> exists slot, get name results = Some slot)
  /\ orchestrate E user_profile allowed_domains seed_urls k
     = (conflicts <- _detect_conflicts results ;;
        Ok (mkResponse (st_evidence st) (st_active st) conflicts
                       (List.length (st_pages st)) results))
  /\ (well_shaped results = true ->
      exists resp,
        orchestrate E user_profile allowed_domains seed_urls k = Ok resp
        /\ slots resp = results
        /\ active_agents resp = st_active st)
  /\ (well_shaped results = false ->
      exists msg,
        orchestrate E user_profile allowed_domains seed_urls k = Raise msg)
  /\ (forall resp,
        orchestrate E user_profile allowed_domains seed_urls k = Ok resp ->
        slots resp = results
        /\ active_agents resp = st_active st
        /\ _detect_conflicts results = Ok (conflicts resp)).
Proof.
  intros Hst tasks results.
  destruct (orchestrate_outcome _ _ _ _ _ _ Hst) as [Hgood Hbad].
  split.
  { intros name msg H. now apply failed_task_slot. }
  split.
  { intros name out H.
    apply (gather_get tasks (st_results st)) in H; [exact H|].
    apply tasks_nodup. }
  split.
  { intros name Hin. eapply active_has_slot; eassumption. }
  split; [now apply orchestrate_unfold|].
  split.
  { intros Hw. destruct (Hgood Hw) as (cs & _ & Hresp).
    eexists. split; [exact Hresp|]. split; reflexivity. }
  split; [exact Hbad|].
  intros resp Hresp.
  rewrite (orchestrate_unfold _ _ _ _ _ _ Hst) in Hresp.
  fold results in Hresp. unfold bind in Hresp.
  destruct (_detect_conflicts results) as [cs|msg]; [|discriminate].
  injection Hresp as <-. simpl. auto.
Qed.

(** C6 where the financial agent's call fails and health answers. *)
Lemma fan_out_isolation_witness :
  exists st,
    stages_0_3 (Scenarios.offline Scenarios.financial_down)
               Scenarios.doctor_and_budget [] [] 3 = Ok st
    /\ get "financial"
           (fan_out (Scenarios.offline Scenarios.financial_down)
                    Scenarios.doctor_and_budget st)
       = Some [("error",
                VStr "LLM call failed after 3 attempts: timed out");
               ("confidence", VFloat 0)]
    /\ (exists out,
          get "health"
              (fan_out (Scenarios.offline Scenarios.financial_down)
                       Scenarios.doctor_and_budget st)
          = Some out
          /\ get "_stub" out = Some (VBool true)
          /\ get "error" out = None)
    /\ exists resp,
        orchestrate (Scenarios.offline Scenarios.financial_down)
                    Scenarios.doctor_and_budget [] [] 3 = Ok resp
        /\ slots resp
           = fan_out (Scenarios.offline Scenarios.financial_down)
                     Scenarios.doctor_and_budget st.
Proof.
  eexists. split; [vm_compute; reflexivity|].
  match goal with
  | |- context [fan_out ?E ?p ?st] =>
      destruct (fan_out_isolation E p [] [] 3 st eq_refl)
        as (Hfail & Hok & _ & _ & Hgood & _)
  end.
  split; [|split].
  - apply Hfail. vm_compute. reflexivity.
  - eexists. split; [apply Hok; vm_compute; reflexivity|].
    split; reflexivity.
  - destruct Hgood as (resp & Hresp & Hslots & _);
      [vm_compute; reflexivity|].
    exists resp. split; [exact Hresp | exact Hslots].
Defined.

(** C6 as stated fails on "every active agent has a slot in the final
    result": the financial agent's call fails, the health agent answers
    [risks: null], and conflict detection raises on that answer, so that
    [orchestrate] raises and there is no final result. *)
Lemma fan_out_result_lost_on_raise :
  exists st,
    stages_0_3 (Scenarios.offline Scenarios.financial_down_null_risks)
               Scenarios.doctor_and_budget [] [] 3 = Ok st
    /\ st_active st = ["health"; "financial"]
    /\ get "financial"
           (concurrent_tasks (Scenarios.offline
                                Scenarios.financial_down_null_risks)
                             Scenarios.doctor_and_budget (st_active st)
                             (st_evidence st) (st_travel_out st))
       = Some (Raise "LLM call failed after 3 attempts: timed out")
    /\ get "health"
           (fan_out (Scenarios.offline Scenarios.financial_down_null_risks)
                    Scenarios.doctor_and_budget st)
       = Some [("summary", VStr "see a doctor"); ("risks", VNone)]
    /\ orchestrate (Scenarios.offline Scenarios.financial_down_null_risks)
                   Scenarios.doctor_and_budget [] [] 3
       = Raise "'NoneType' object is not iterable".
Proof.
  eexists. split; [vm_compute; reflexivity|].
  repeat split; vm_compute; reflexivity.
Qed.

(** C10, as the code has it: when a fan-out task raises, the agent's slot
    is [{error: message, confidence: 0.0}], and 0.0 is below 0.4: so
    whenever conflict detection returns, its list holds the low-confidence
    warning with the agent's title-cased name.  It returns, and
    [orchestrate] with it, exactly when the slots are well shaped;
    otherwise [orchestrate] raises and there is no list. *)
Theorem failed_agent_is_flagged (E : env) (user_profile : dict value)
        (allowed_domains seed_urls : list string) (k : Z) (st : staged)
        (name msg : string) :
  stages_0_3 E user_profile allowed_domains seed_urls k = Ok st ->
  get name (concurrent_tasks E user_profile (st_active st)
                             (st_evidence st) (st_travel_out st))
    = Some (Raise msg) ->
  let results := fan_out E user_profile st in
  get name results = Some [("error", VStr msg); ("confidence", VFloat 0)]
  /\ is_low (VFloat 0) = true
  /\ (forall cs,
        _detect_conflicts results = Ok cs ->
        In (LowConfidence (Text.title name) (VFloat 0)) cs)
  /\ (forall resp,
        orchestrate E user_profile allowed_domains seed_urls k = Ok resp ->
        get name (slots resp)
        = Some [("error", VStr msg); ("confidence", VFloat 0)]
        /\ In (LowConfidence (Text.title name) (VFloat 0)) (conflicts resp))
  /\ (well_shaped results = true ->
      exists resp,
        orchestrate E user_profile allowed_domains seed_urls k = Ok resp
        /\ In (LowConfidence (Text.title name) (VFloat 0)) (conflicts resp))
  /\ (well_shaped results = false ->
      exists m,
        orchestrate E user_profile allowed_domains seed_urls k = Raise m).
Proof.
  intros Hst Htask results.
  pose proof (failed_task_slot _ _ _ _ _ Htask) as Hslot.
  fold results in Hslot.
  destruct (orchestrate_outcome _ _ _ _ _ _ Hst) as [Hgood Hbad].
  fold results in Hgood, Hbad.
  assert (Hwarn : forall cs,
             _detect_conflicts results = Ok cs ->
             In (LowConfidence (Text.title name) (VFloat 0)) cs).
  { intros cs Hd.
    exact (ConflictFacts.detect_warns _ _ _ _ Hd (get_In _ _ _ Hslot)
                                      eq_refl). }
  split; [exact Hslot|]. split; [reflexivity|]. split; [exact Hwarn|].
  split; [|split; [|exact Hbad]].
  - intros resp Hresp.
    rewrite (orchestrate_unfold _ _ _ _ _ _ Hst) in Hresp.
    fold results in Hresp. unfold bind in Hresp.
    destruct (_detect_conflicts results) as [cs|m] eqn:Hd; [|discriminate].
    injection Hresp as <-. simpl. split; [exact Hslot | now apply Hwarn].
  - intros Hw. destruct (Hgood Hw) as (cs & Hd & Hresp).
    eexists. split; [exact Hresp|]. simpl. now apply Hwarn.
Qed.

Lemma failed_agent_is_flagged_witness :
  exists resp,
    orchestrate (Scenarios.offline Scenarios.financial_down)
                Scenarios.doctor_and_budget [] [] 3 = Ok resp
    /\ get "financial" (slots resp)
       = Some [("error",
                VStr "LLM call failed after 3 attempts: timed out");
               ("confidence", VFloat 0)]
    /\ In (LowConfidence "Financial" (VFloat 0)) (conflicts resp).
Proof.
  eexists. split; [vm_compute; reflexivity|].
  refine (proj1 (proj2 (proj2 (proj2 (failed_agent_is_flagged
                   (Scenarios.offline Scenarios.financial_down)
                   Scenarios.doctor_and_budget [] [] 3 _
                   "financial" _ _ _)))) _ _).
  - vm_compute. reflexivity.
  - vm_compute. reflexivity.
  - vm_compute. reflexivity.
Defined.

(** C10 as stated fails on "necessarily contains": the health agent's
    call fails and its slot is the placeholder, but the financial agent
    answers with a plan that is a string, conflict detection raises on
    it, and [orchestrate] raises: there is no conflicts list. *)
Lemma failed_agent_unflagged_on_raise :
  exists st,
    stages_0_3 (Scenarios.offline Scenarios.health_down_text_plan)
               Scenarios.doctor_and_budget [] [] 3 = Ok st
    /\ get "health"
           (concurrent_tasks (Scenarios.offline
                                Scenarios.health_down_text_plan)
                             Scenarios.doctor_and_budget (st_active st)
                             (st_evidence st) (st_travel_out st))
       = Some (Raise "LLM call failed after 3 attempts: timed out")
    /\ get "health"
           (fan_out (Scenarios.offline Scenarios.health_down_text_plan)
                    Scenarios.doctor_and_budget st)
       = Some [("error", VStr "LLM call failed after 3 attempts: timed out");
               ("confidence", VFloat 0)]
    /\ orchestrate (Scenarios.offline Scenarios.health_down_text_plan)
                   Scenarios.doctor_and_budget [] [] 3
       = Raise "'str' object has no attribute 'get'".
Proof.
  eexists. split; [vm_compute; reflexivity|].
  repeat split; vm_compute; reflexivity.
Qed.

End OrchestrateFacts.

(** ** The repository's tests, on the model *)

Module Tests.
Import Text Rag Dict Classifier Orchestrator.

Example test_travel_query :
  classify_query "Plan a trip from Delhi to Goa" = ["travel"; "financial"].
Proof. vm_compute. reflexivity. Qed.

Example test_health_query :
  classify_query "I have headaches and need a doctor" = ["health"].
Proof. vm_compute. reflexivity. Qed.

Example test_finance_query :
  classify_query "How should I budget my savings?" = ["financial"].
Proof. vm_compute. reflexivity. Qed.

Example test_mixed_query :
  classify_query "Plan a trip to Japan and find a doctor for migraines"
  = ["travel"; "health"; "financial"].
Proof. vm_compute. reflexivity. Qed.

Example test_ambiguous_defaults_to_all :
  classify_query "hello there" = ["travel"; "financial"; "health"].
Proof. vm_compute. reflexivity. Qed.

Example test_chunk_text_empty :
  _chunk_text EmptyString 900 = Some []
  /\ _chunk_text Scenarios.blank_text 900 = Some [].
Proof. split; vm_compute; reflexivity. Qed.

Example test_chunk_text_splits :
  _chunk_text "abcdefg" 3 = Some ["abc"; "def"; "g"].
Proof. vm_compute. reflexivity. Qed.

Example test_rank_chunks_empty_docs :
  rank_chunks Scenarios.lexical_only "query" [] 5 = Ok [].
Proof. reflexivity. Qed.

Example test_detect_conflicts_affordability :
  _detect_conflicts
    [("financial",
      [("plan",
        VDict [("travel_affordability_check",
                VDict [("status", VStr "likely_not_ok")])])])]
  = Ok [AffordabilityRisk].
Proof. vm_compute. reflexivity. Qed.

Example test_detect_conflicts_high_risk :
  _detect_conflicts
    [("travel",
      [("risks",
        VList [VDict [("risk", VStr "monsoon season");
                      ("severity", VStr "high");
                      ("mitigation", VStr "avoid")]])])]
  = Ok [HighSeverityRisk "Travel" (VStr "monsoon season")].
Proof. vm_compute. reflexivity. Qed.

Example test_detect_conflicts_low_confidence :
  _detect_conflicts Scenarios.unsure_health
  = Ok [LowConfidence "Health" (VFloat Scenarios.float_0_2)].
Proof. vm_compute. reflexivity. Qed.

Example test_detect_conflicts_none :
  _detect_conflicts [] = Ok [].
Proof. reflexivity. Qed.

Example test_orchestrator_stub_pipeline :
  exists resp,
    orchestrate (Scenarios.offline Scenarios.stub_llm)
                [("message", VStr "Plan a trip to Japan")] [] [] 3 = Ok resp
    /\ active_agents resp = ["travel"; "financial"]
    /\ keys (slots resp) = ["travel"; "financial"]
    /\ conflicts resp = [].
Proof.
  eexists. split; [vm_compute; reflexivity|].
  repeat split; reflexivity.
Qed.

End Tests.

(* ================================================================== *)
(** * Further properties of the code *)
(* ================================================================== *)

(** ** Classification, in full *)

Module RoutingFacts.
Import Text Dict Classifier Orchestrator Due.

Lemma score_positive (patterns : list string) (msg : string) :
  (1 <=? score patterns msg) = existsb (fun p => Re.search p msg) patterns.
Proof.
  unfold score.
  induction patterns as [|p ps IH]; simpl; [reflexivity|].
  destruct (Re.search p msg); simpl; [reflexivity | exact IH].
Qed.

Lemma positive_or_zero (n : nat) : (1 <=? n) = negb (n =? 0).
Proof. destruct n; reflexivity. Qed.

Ltac decide_membership :=
  simpl; intuition (try discriminate; try congruence).

(** X1: which agents run.  Travel runs when a travel pattern matches,
    health when a health pattern matches, financial when a finance or a
    travel pattern matches; and all three run when nothing matches. *)
Theorem classify_query_members (m : string) :
  (In "travel" (classify_query m)
   <-> topic_matches _TRAVEL_PATTERNS m = true \/ no_topic_matches m = true)
  /\ (In "health" (classify_query m)
      <-> topic_matches _HEALTH_PATTERNS m = true
          \/ no_topic_matches m = true)
  /\ (In "financial" (classify_query m)
      <-> topic_matches _FINANCE_PATTERNS m = true
          \/ topic_matches _TRAVEL_PATTERNS m = true
          \/ no_topic_matches m = true).
Proof.
  rewrite ClassifierFacts.no_topic_matches_scores.
  unfold topic_matches, classify_query.
  rewrite <- !score_positive, !positive_or_zero.
  rewrite ClassifierFacts.route_table.
  destruct (score _TRAVEL_PATTERNS (lower m)),
           (score _HEALTH_PATTERNS (lower m)),
           (score _FINANCE_PATTERNS (lower m));
    repeat split; decide_membership.
Qed.

(** X2: every agent the classifier can name has a prompt, a topic in
    [topic_map] and a query seed for that topic, so [run_agent] never fails
    on the name of an active agent. *)
Theorem active_agents_are_configured (m a : string) :
  In a (classify_query m) ->
  (exists prompt, get a PROMPTS = Some prompt)
  /\ (exists topic seed,
         get a topic_map = Some topic /\ get topic _QUERY_SEEDS = Some seed)
  /\ (forall E profile evidence upstream,
         run_agent E a profile evidence upstream
         = call_llm_json E (get_or a EmptyString PROMPTS)
             (match upstream with
              | Some (_ :: _ as up) =>
                  [("user_profile", VDict profile);
                   ("evidence", evidence_value evidence);
                   ("upstream", VDict up)]
              | _ =>
                  [("user_profile", VDict profile);
                   ("evidence", evidence_value evidence)]
              end)).
Proof.
  intros Hin.
  apply OrchestrateFacts.classify_query_names in Hin.
  destruct Hin as [-> | [-> | ->]];
    (split; [eexists; reflexivity|]);
    (split; [do 2 eexists; split; reflexivity|]);
    intros E profile evidence [[|entry up]|]; reflexivity.
Qed.

Lemma active_agents_are_configured_witness :
  In "financial" (classify_query "Plan a trip from Delhi to Goa")
  /\ exists prompt, get "financial" PROMPTS = Some prompt.
Proof.
  assert (H : In "financial" (classify_query "Plan a trip from Delhi to Goa"))
    by (vm_compute; right; left; reflexivity).
  split; [exact H|].
  exact (proj1 (active_agents_are_configured _ _ H)).
Defined.

End RoutingFacts.

(** ** Conflict detection, in full *)

Module DetectFacts.
Import Text Dict Orchestrator Due DictFacts.

Lemma high_risks_of_strings {A : Type} (agent_name : string)
      (f : A -> string) (l : list A) :
  high_risks agent_name (map (fun x => VStr (f x)) l) = [].
Proof.
  unfold high_risks. induction l as [|x l IH]; simpl; auto.
Qed.

(** The risk loop, when it returns, has added the warnings due. *)
Lemma risk_loop_adds (items : dict (dict value)) :
  forall acc cs,
    risk_loop items acc = Ok cs -> cs = acc ++ high_risk_due items.
Proof.
  induction items as [|[name data] items IH]; intros acc cs; simpl.
  - intros [= <-]. now rewrite app_nil_r.
  - destruct (get_or "risks" (VList []) data) as [| | | |s|l|d]; simpl;
      try discriminate; intros H; apply IH in H; subst cs.
    + rewrite (high_risks_of_strings name (fun c => String c EmptyString)).
      now rewrite app_nil_r.
    + now rewrite <- app_assoc.
    + rewrite (high_risks_of_strings name fst). now rewrite app_nil_r.
Qed.

(** X3: on a well-shaped results map [_detect_conflicts] returns, in this
    order, the affordability warning read off financial's plan (at most
    one), one high-severity warning per risk entry that is a dict with
    severity "high", and one low-confidence warning per agent below 0.4. *)
Theorem detect_conflicts_layout (results : dict (dict value)) :
  well_shaped results = true ->
  _detect_conflicts results
  = Ok (affordability_due results
        ++ high_risk_due results
        ++ low_confidence_due results).
Proof.
  intros Hw.
  destruct (ConflictFacts.detect_returns _ Hw) as [cs Hcs].
  rewrite Hcs. f_equal.
  unfold _detect_conflicts, affordability_due, affordability_status,
    value_get, bind in *.
  destruct (get_or "plan" (VDict []) (get_or "financial" [] results))
    as [| | | | | |plan]; try discriminate.
  destruct (get "travel_affordability_check" plan) as [afford|].
  - destruct afford as [| | | | | |a]; try discriminate.
    destruct (risk_loop results _) as [after|msg] eqn:Hr; [|discriminate].
    apply risk_loop_adds in Hr. apply ConflictFacts.confidence_loop_adds in Hcs.
    subst cs after.
    destruct (is_str "likely_not_ok" (get "status" a));
      [now rewrite <- app_assoc|].
    destruct (is_str "uncertain" (get "status" a)); now rewrite <- app_assoc.
  - simpl in Hcs.
    destruct (risk_loop results []) as [after|msg] eqn:Hr; [|discriminate].
    apply risk_loop_adds in Hr. apply ConflictFacts.confidence_loop_adds in Hcs.
    subst cs after. reflexivity.
Qed.

Lemma detect_conflicts_layout_witness :
  well_shaped Scenarios.mixed_results = true
  /\ _detect_conflicts Scenarios.mixed_results
     = Ok [AffordabilityUncertain;
           HighSeverityRisk "Travel" (VStr "monsoon season");
           LowConfidence "Financial" (VFloat 0)].
Proof.
  split; [reflexivity|].
  apply (detect_conflicts_layout Scenarios.mixed_results).
  reflexivity.
Defined.

Lemma forallb_set {V : Type} (f : string * V -> bool) (g : V -> bool)
      (k : string) (v : V) (d : dict V) :
  (forall entry, f entry = g (snd entry)) ->
  g v = true -> forallb f d = true -> forallb f (set k v d) = true.
Proof.
  intros Hf Hv.
  induction d as [|[k' v'] d IH]; simpl.
  - rewrite Hf. simpl. now rewrite Hv.
  - intros H. apply andb_true_iff in H as [H1 H2].
    destruct (String.eqb k k'); simpl.
    + rewrite Hf. simpl. now rewrite Hv.
    + now rewrite H1, IH.
Qed.

(** X4: the slot of a failed agent never makes conflict detection raise:
    writing the placeholder over any slot of a well-shaped results map, or
    adding it under a new name, leaves the map well-shaped. *)
Theorem placeholder_keeps_shape (results : dict (dict value))
        (name msg : string) :
  well_shaped results = true ->
  well_shaped (set name (placeholder msg) results) = true.
Proof.
  unfold well_shaped. rewrite !andb_true_iff.
  intros [[Ha Hr] Hc]. repeat split.
  - unfold affordability_readable, get_or in *.
    destruct (string_dec name "financial") as [->|Hne].
    + now rewrite get_set_same.
    + now rewrite get_set_other.
  - apply (forallb_set _ (fun data => iterable (get_or "risks" (VList []) data)));
      auto.
  - apply (forallb_set _ (fun data =>
                            negb (is_low (confidence_of data)
                                  && percent_overflows (confidence_of data))));
      auto.
Qed.

Lemma placeholder_keeps_shape_witness :
  well_shaped Scenarios.unsure_health = true
  /\ well_shaped (set "health" (placeholder "timed out") Scenarios.unsure_health)
     = true
  /\ well_shaped (set "financial" (placeholder "timed out") Scenarios.unsure_health)
     = true.
Proof.
  assert (H : well_shaped Scenarios.unsure_health = true) by reflexivity.
  split; [exact H|].
  split; exact (placeholder_keeps_shape _ _ _ H).
Defined.

End DetectFacts.

(** ** The orchestration, end to end *)

Module PipelineFacts.
Import Text Dict Classifier Orchestrator Due DictFacts.

Lemma get_keys {V : Type} (k : string) (d : dict V) :
  get k d <> None <-> In k (keys d).
Proof.
  destruct (in_dec string_dec k (keys d)) as [H|H].
  - split; [auto|]. intros _ Hn. apply get_None_keys in Hn. tauto.
  - split; [|tauto]. intros Hn. apply get_None_keys in H. tauto.
Qed.

(** A response that is returned was built from the stages' state. *)
Lemma orchestrate_inv (E : env) (user_profile : dict value)
      (allowed_domains seed_urls : list string) (k : Z) (resp : response) :
  orchestrate E user_profile allowed_domains seed_urls k = Ok resp ->
  exists st cs,
    stages_0_3 E user_profile allowed_domains seed_urls k = Ok st
    /\ _detect_conflicts (fan_out E user_profile st) = Ok cs
    /\ resp = mkResponse (st_evidence st) (st_active st) cs
                         (List.length (st_pages st))
                         (fan_out E user_profile st).
Proof.
  unfold orchestrate, bind.
  destruct (stages_0_3 _ _ _ _ _) as [st|msg]; [|discriminate].
  destruct (_detect_conflicts (fan_out E user_profile st)) as [cs|msg] eqn:Hd;
    [|discriminate].
  intros [= <-]. exists st, cs. auto.
Qed.

Lemma stages_results (E : env) (user_profile : dict value)
      (allowed_domains seed_urls : list string) (k : Z) (st : staged) :
  stages_0_3 E user_profile allowed_domains seed_urls k = Ok st ->
  keys (st_results st) = if mem "travel" (st_active st) then ["travel"] else [].
Proof.
  unfold stages_0_3, bind.
  destruct (get_or "message" (VStr EmptyString) user_profile)
    as [| | | |message| |]; try discriminate.
  destruct (rank_evidence _ _ _ _ _ _) as [evid|msg]; [|discriminate].
  destruct (mem "travel" (classify_query message)) eqn:Ht.
  - destruct (run_agent _ _ _ _ _) as [out|msg]; [|discriminate].
    intros [= <-]. simpl. now rewrite Ht.
  - intros [= <-]. simpl. now rewrite Ht.
Qed.

Lemma keys_gather (tasks : dict (result (dict value))) :
  forall results,
    keys (gather_into results tasks)
    = fold_left (fun ks k => if mem k ks then ks else ks ++ [k])
                (keys tasks) (keys results).
Proof.
  induction tasks as [|[name outcome] tasks IH]; intros results.
  - reflexivity.
  - rewrite OrchestrateFacts.gather_step, IH. simpl. f_equal.
    destruct (mem name (keys results)) eqn:Hm.
    + apply OrchestrateFacts.mem_In in Hm. now apply keys_set_present.
    + apply keys_set_absent. intros Hin.
      apply OrchestrateFacts.mem_In in Hin. congruence.
Qed.

(** X5: the agent slots of a response are exactly the active agents, and
    they stand in the order travel, financial, health whatever the order
    of [active_agents]; no inactive agent has a slot. *)
Theorem response_slots_are_active (E : env) (user_profile : dict value)
        (allowed_domains seed_urls : list string) (k : Z) (resp : response) :
  orchestrate E user_profile allowed_domains seed_urls k = Ok resp ->
  keys (slots resp)
  = restrict ["travel"; "financial"; "health"] (active_agents resp)
  /\ forall name,
      get name (slots resp) <> None <-> In name (active_agents resp).
Proof.
  intros Hresp.
  destruct (orchestrate_inv _ _ _ _ _ _ Hresp) as (st & cs & Hst & _ & ->).
  cbn [slots active_agents].
  assert (Hkeys : keys (fan_out E user_profile st)
                  = restrict ["travel"; "financial"; "health"] (st_active st)).
  { unfold fan_out. rewrite keys_gather, (stages_results _ _ _ _ _ _ Hst).
    unfold concurrent_tasks, restrict. simpl.
    destruct (mem "travel" (st_active st)),
             (mem "financial" (st_active st)),
             (mem "health" (st_active st)); reflexivity. }
  split; [exact Hkeys|].
  intros name. rewrite get_keys, Hkeys. unfold restrict.
  rewrite filter_In, OrchestrateFacts.mem_In.
  split; [tauto|]. intros Hin. split; [|exact Hin].
  destruct (OrchestrateFacts.stages_inv _ _ _ _ _ _ Hst) as [[m Hm] _].
  rewrite Hm in Hin. apply OrchestrateFacts.classify_query_names in Hin.
  simpl. intuition auto.
Qed.

Lemma response_slots_are_active_witness :
  exists resp,
    orchestrate (Scenarios.offline Scenarios.stub_llm)
                Scenarios.doctor_and_budget [] [] 12 = Ok resp
    /\ active_agents resp = ["health"; "financial"]
    /\ keys (slots resp) = ["financial"; "health"].
Proof.
  eexists. split; [vm_compute; reflexivity|].
  split; [reflexivity|].
  refine (proj1 (response_slots_are_active
                   (Scenarios.offline Scenarios.stub_llm)
                   Scenarios.doctor_and_budget [] [] 12 _ _)).
  vm_compute. reflexivity.
Defined.

(** X6: the travel agent runs unguarded: when it is active and its call
    raises, [orchestrate] raises with the same message. *)
Theorem travel_failure_is_fatal (E : env) (user_profile : dict value)
        (allowed_domains seed_urls : list string) (k : Z)
        (message msg : string) (ev : dict (list EvidenceItem)) :
  get_or "message" (VStr EmptyString) user_profile = VStr message ->
  In "travel" (classify_query message) ->
  rank_evidence E user_profile
    (match seed_urls with
     | _ :: _ => fetch_pages E seed_urls allowed_domains k
     | [] => []
     end)
    (Z.min 12 k) (classify_query message) [] = Ok ev ->
  run_agent E "travel" user_profile (get_or "travel" [] ev) None = Raise msg ->
  orchestrate E user_profile allowed_domains seed_urls k = Raise msg.
Proof.
  intros Hmsg Hin Hev Hrun.
  apply OrchestrateFacts.mem_In in Hin.
  unfold orchestrate, stages_0_3, bind.
  now rewrite Hmsg, Hev, Hin, Hrun.
Qed.

Lemma travel_failure_is_fatal_witness :
  orchestrate (Scenarios.offline Scenarios.travel_down)
              Scenarios.japan_trip [] [] 12
  = Raise "LLM call failed after 3 attempts: timed out".
Proof.
  apply (travel_failure_is_fatal
           (Scenarios.offline Scenarios.travel_down) Scenarios.japan_trip
           [] [] 12 "Plan a trip to Japan" _
           [("travel", []); ("finance", [])]).
  - reflexivity.
  - vm_compute. left. reflexivity.
  - vm_compute. reflexivity.
  - vm_compute. reflexivity.
Defined.

(** The evidence map when no page was fetched. *)
Lemma rank_evidence_no_pages (E : env) (user_profile : dict value) (k : Z)
      (agents : list string) :
  forall ev,
    rank_evidence E user_profile [] k agents ev
    = Ok (fold_left (fun ev a => set (get_or a a topic_map) [] ev) agents ev).
Proof.
  induction agents as [|a agents IH]; intros ev; simpl; [reflexivity|].
  apply IH.
Qed.

Lemma run_agent_ext (E E' : env) :
  call_llm_json E = call_llm_json E' ->
  forall name profile evid up,
    run_agent E name profile evid up = run_agent E' name profile evid up.
Proof.
  intros H name profile evid up. unfold run_agent. now rewrite H.
Qed.

Lemma empty_buckets (agents : list string) :
  forall ev : dict (list EvidenceItem),
    Forall (fun bucket => snd bucket = []) ev ->
    Forall (fun bucket => snd bucket = [])
           (fold_left (fun ev a => set (get_or a a topic_map) [] ev) agents ev)
    /\ forall a,
        In a agents ->
        get (get_or a a topic_map)
            (fold_left (fun ev a => set (get_or a a topic_map) [] ev) agents ev)
        = Some [].
Proof.
  induction agents as [|a agents IH]; intros ev Hev; simpl.
  - split; [exact Hev | tauto].
  - assert (Hset : Forall (fun bucket : string * list EvidenceItem =>
                              snd bucket = [])
                          (set (get_or a a topic_map) [] ev)).
    { clear IH. induction Hev as [|[k' v'] ev Hk Hrest IHev]; simpl.
      - repeat constructor.
      - destruct (String.eqb _ k'); constructor; auto. }
    destruct (IH _ Hset) as [Hall Hget].
    split; [exact Hall|].
    intros b [<-|Hb]; [|now apply Hget].
    clear Hget Hall IH Hset Hev.
    assert (Hhere : get (get_or a a topic_map)
                        (set (get_or a a topic_map) [] ev) = Some [])
      by apply get_set_same.
    revert Hhere. generalize (set (get_or a a topic_map) [] ev).
    generalize (get_or a a topic_map). intros t.
    induction agents as [|c agents IH]; intros d Hd; simpl; [exact Hd|].
    apply IH.
    destruct (string_dec (get_or c c topic_map) t) as [->|Hne].
    + apply get_set_same.
    + now rewrite get_set_other.
Qed.

(** X7: without seed urls nothing is retrieved: the outcome of
    [orchestrate] depends on neither the fetcher, the ranking models, the
    allow-list nor the budget; a response has no page, and every active
    agent's topic has an empty bucket. *)
Theorem no_seeds_no_retrieval (E E' : env) (user_profile : dict value)
        (domains domains' : list string) (k k' : Z) :
  call_llm_json E = call_llm_json E' ->
  orchestrate E user_profile domains [] k
  = orchestrate E' user_profile domains' [] k'
  /\ forall resp,
      orchestrate E user_profile domains [] k = Ok resp ->
      pages_fetched resp = 0
      /\ Forall (fun bucket => snd bucket = []) (evidence resp)
      /\ forall a,
          In a (active_agents resp) ->
          get (get_or a a topic_map) (evidence resp) = Some [].
Proof.
  intros Hllm. split.
  - unfold orchestrate, stages_0_3, fan_out, concurrent_tasks, bind.
    destruct (get_or "message" (VStr EmptyString) user_profile)
      as [| | | |message| |]; try reflexivity.
    rewrite !rank_evidence_no_pages.
    destruct (mem "travel" (classify_query message)).
    + rewrite (run_agent_ext E E' Hllm).
      destruct (run_agent E' "travel" _ _ _) as [out|msg]; [|reflexivity].
      cbn [st_results st_active st_evidence st_travel_out st_pages].
      now rewrite !(run_agent_ext E E' Hllm).
    + cbn [st_results st_active st_evidence st_travel_out st_pages].
      now rewrite !(run_agent_ext E E' Hllm).
  - intros resp Hresp.
    destruct (orchestrate_inv _ _ _ _ _ _ Hresp) as (st & cs & Hst & _ & ->).
    cbn [pages_fetched evidence active_agents].
    assert (Hshape : st_pages st = []
                     /\ st_evidence st
                        = fold_left (fun ev a => set (get_or a a topic_map) [] ev)
                                    (st_active st) []).
    { revert Hst. unfold stages_0_3, bind.
      destruct (get_or "message" (VStr EmptyString) user_profile)
        as [| | | |message| |]; try discriminate.
      rewrite rank_evidence_no_pages.
      destruct (mem "travel" (classify_query message)).
      - destruct (run_agent _ _ _ _ _); [|discriminate].
        intros [= <-]. simpl. auto.
      - intros [= <-]. simpl. auto. }
    destruct Hshape as [-> ->].
    destruct (empty_buckets (st_active st) [] (Forall_nil _)) as [Hall Hget].
    auto.
Qed.

Lemma no_seeds_no_retrieval_witness :
  orchestrate (Scenarios.offline Scenarios.stub_llm)
              Scenarios.japan_trip ["lonelyplanet.com"] [] 12
  = orchestrate (Scenarios.offline_bare Scenarios.stub_llm)
                Scenarios.japan_trip [] [] 0.
Proof.
  exact (proj1 (no_seeds_no_retrieval
                  (Scenarios.offline Scenarios.stub_llm)
                  (Scenarios.offline_bare Scenarios.stub_llm)
                  Scenarios.japan_trip ["lonelyplanet.com"] [] 12 0 eq_refl)).
Defined.

End PipelineFacts.

(** ** Ranking, beyond order and length *)

Module RetrievalFacts.
Import Text Rag Due.

Lemma insert_desc_perm (x : RankedChunk) (l : list RankedChunk) :
  Permutation (x :: l) (insert_desc x l).
Proof.
  induction l as [|y l IH]; simpl; [apply Permutation_refl|].
  destruct (Qle_bool (score y) (score x)); [apply Permutation_refl|].
  eapply Permutation_trans; [apply perm_swap|].
  now apply perm_skip.
Qed.

(** [sorted] reorders and neither drops nor adds. *)
Lemma sort_desc_perm (l : list RankedChunk) : Permutation l (sort_desc l).
Proof.
  induction l as [|x l IH]; simpl; [constructor|].
  eapply Permutation_trans; [|apply insert_desc_perm].
  now apply perm_skip.
Qed.

Lemma py_prefix_incl {A : Type} (l : list A) (k : Z) (x : A) :
  In x (py_prefix l k) -> In x l.
Proof.
  destruct (RankFacts.py_prefix_firstn l k) as [n ->].
  revert l. induction n as [|n IH]; intros [|y l]; simpl; try tauto.
  intros [->|H]; auto.
Qed.

Lemma attach_origin (chunks : list chunk) (scores : list Q) :
  Forall (fun c => In (origin c) chunks) (attach chunks scores).
Proof.
  unfold attach. apply Forall_forall. intros c Hc.
  apply in_map_iff in Hc as ([[[u t] tx] s] & <- & Hin).
  apply in_combine_l in Hin. exact Hin.
Qed.

Lemma assign_scores_origin (candidates : list RankedChunk) :
  forall scores,
    map origin (assign_scores candidates scores) = map origin candidates.
Proof.
  induction candidates as [|c cs IH]; intros [|s ss]; simpl; auto.
  now rewrite IH.
Qed.

Lemma ranked_origin (chunks : list chunk) (l : list RankedChunk) (k : Z) :
  Forall (fun c => In (origin c) chunks) l ->
  Forall (fun c => In (origin c) chunks) (py_prefix (sort_desc l) k).
Proof.
  rewrite !Forall_forall. intros H c Hc.
  apply py_prefix_incl in Hc.
  apply H. eapply Permutation_in; [|exact Hc].
  apply Permutation_sym, sort_desc_perm.
Qed.

Lemma initial_retrieval_origin (m : models) (q : string)
      (chunks : list chunk) (top_k : Z) (candidates : list RankedChunk) :
  initial_retrieval m q chunks top_k = Ok candidates ->
  Forall (fun c => In (origin c) chunks) candidates.
Proof.
  unfold initial_retrieval, _bi_encoder_rank, _tfidf_rank, try_except, bind.
  destruct (get_bi_encoder m) as [model|msg].
  - destruct (model q (map chunk_text chunks)) as [scores|msg].
    + intros [= <-]. apply ranked_origin, attach_origin.
    + destruct (tfidf_similarity m q (map chunk_text chunks));
        [|discriminate].
      intros [= <-]. apply ranked_origin, attach_origin.
  - destruct (tfidf_similarity m q (map chunk_text chunks)); [|discriminate].
    intros [= <-]. apply ranked_origin, attach_origin.
Qed.

(** X8: [rank_chunks] invents nothing: the url, title and text of every
    chunk it returns are those of a window of one of the documents, whatever
    the models score. *)
Theorem ranked_chunks_come_from_docs (m : models) (q : string)
        (docs : list document) (top_k : Z) (ranked : list RankedChunk) :
  rank_chunks m q docs top_k = Ok ranked ->
  Forall (fun c =>
            exists doc,
              In doc docs
              /\ url c = doc_url doc
              /\ title c = doc_title doc
              /\ In (text c) (windows (doc_text doc)))
         ranked.
Proof.
  intros Hrank.
  assert (Horigin : Forall (fun c => In (origin c) (all_chunks docs)) ranked).
  { revert Hrank. unfold rank_chunks, bind.
    destruct (all_chunks docs) as [|c0 chunks] eqn:Hchunks.
    - intros [= <-]. constructor.
    - destruct (initial_retrieval m q (c0 :: chunks) top_k)
        as [candidates|msg] eqn:Hstage; [|discriminate].
      apply initial_retrieval_origin in Hstage.
      destruct (RankFacts.rerank_cases m q candidates top_k)
        as [-> | [scores ->]]; intros [= <-].
      + rewrite Forall_forall in *. intros c Hc.
        apply Hstage. eapply py_prefix_incl; eassumption.
      + apply ranked_origin.
        rewrite Forall_forall in *. intros c Hc.
        assert (Hmap : In (origin c) (map origin candidates)).
        { rewrite <- (assign_scores_origin candidates scores).
          now apply in_map. }
        apply in_map_iff in Hmap as (c' & Heq & Hc').
        rewrite <- Heq. now apply Hstage. }
  rewrite Forall_forall in *. intros c Hc.
  specialize (Horigin c Hc). unfold all_chunks, origin in Horigin.
  apply in_flat_map in Horigin as (doc & Hdoc & Hin).
  apply in_map_iff in Hin as (w & Heq & Hw).
  injection Heq as Hu Ht Hx.
  exists doc. subst w. auto.
Qed.

Lemma ranked_chunks_come_from_docs_witness :
  exists ranked,
    rank_chunks Scenarios.lexical_only "beaches" Scenarios.five_pages 2
    = Ok ranked
    /\ Forall (fun c => exists doc,
                   In doc Scenarios.five_pages
                   /\ url c = doc_url doc
                   /\ title c = doc_title doc
                   /\ In (text c) (windows (doc_text doc)))
              ranked.
Proof.
  eexists. split; [vm_compute; reflexivity|].
  refine (ranked_chunks_come_from_docs Scenarios.lexical_only "beaches"
            Scenarios.five_pages 2 _ _).
  vm_compute. reflexivity.
Defined.

(** X9: the precision reranker is handed at most [3 * top_k] candidates,
    and never more than there are windows. *)
Theorem stage_one_is_bounded (m : models) (q : string)
        (chunks : list chunk) (top_k : Z) (candidates : list RankedChunk) :
  (0 <= top_k)%Z ->
  initial_retrieval m q chunks top_k = Ok candidates ->
  (Z.of_nat (List.length candidates) <= 3 * top_k)%Z
  /\ List.length candidates <= List.length chunks.
Proof.
  intros Hk Hstage.
  assert (Hlen : (Z.of_nat (List.length candidates)
                  <= Z.min (Z.of_nat (List.length chunks)) (top_k * 3))%Z).
  { revert Hstage.
    unfold initial_retrieval, _bi_encoder_rank, _tfidf_rank, try_except, bind.
    destruct (get_bi_encoder m) as [model|msg].
    - destruct (model q (map chunk_text chunks)) as [scores|msg].
      + intros [= <-]. apply RankFacts.py_prefix_length. lia.
      + destruct (tfidf_similarity m q (map chunk_text chunks));
          [|discriminate].
        intros [= <-]. apply RankFacts.py_prefix_length. lia.
    - destruct (tfidf_similarity m q (map chunk_text chunks)); [|discriminate].
      intros [= <-]. apply RankFacts.py_prefix_length. lia. }
  lia.
Qed.

Lemma stage_one_is_bounded_witness :
  exists candidates,
    initial_retrieval Scenarios.lexical_only "beaches"
                      (all_chunks Scenarios.five_pages) 1 = Ok candidates
    /\ (Z.of_nat (List.length candidates) <= 3 * 1)%Z.
Proof.
  eexists. split; [vm_compute; reflexivity|].
  refine (proj1 (stage_one_is_bounded Scenarios.lexical_only "beaches"
                   (all_chunks Scenarios.five_pages) 1 _ _ _)).
  - lia.
  - vm_compute. reflexivity.
Defined.

(** X10: [rank_chunks] raises in one case only: there are windows, the
    bi-encoder cannot be used and the TF-IDF fallback raises; the message
    is the fallback's. *)
Theorem rank_chunks_raises_only_when (m : models) (q : string)
        (docs : list document) (top_k : Z) (msg : string) :
  rank_chunks m q docs top_k = Raise msg
  <-> all_chunks docs <> []
      /\ bi_encoder_fails m q (all_chunks docs)
      /\ tfidf_similarity m q (map chunk_text (all_chunks docs)) = Raise msg.
Proof.
  unfold rank_chunks, bi_encoder_fails, bind.
  destruct (all_chunks docs) as [|c0 chunks] eqn:Hchunks.
  - split; [discriminate | intros [H _]; congruence].
  - set (cs := c0 :: chunks).
    destruct (initial_retrieval m q cs top_k) as [candidates|msg'] eqn:Hstage.
    + destruct (RankFacts.rerank_returns m q candidates top_k) as [r ->].
      split; [discriminate|].
      intros (_ & Hbi & Htf). exfalso. revert Hstage.
      unfold initial_retrieval, _bi_encoder_rank, _tfidf_rank, try_except, bind.
      destruct Hbi as [[e ->] | (model & e & -> & ->)];
        rewrite Htf; discriminate.
    + revert Hstage.
      unfold initial_retrieval, _bi_encoder_rank, _tfidf_rank, try_except, bind.
      destruct (get_bi_encoder m) as [model|e] eqn:Hbi.
      * destruct (model q (map chunk_text cs)) as [scores|e] eqn:Hm;
          [discriminate|].
        destruct (tfidf_similarity m q (map chunk_text cs)) as [sims|e'];
          [discriminate|].
        intros [= ->]. split.
        -- intros [= ->]. split; [discriminate|].
           split; [right; now exists model, e | reflexivity].
        -- intros (_ & _ & [= ->]). reflexivity.
      * destruct (tfidf_similarity m q (map chunk_text cs)) as [sims|e'];
          [discriminate|].
        intros [= ->]. split.
        -- intros [= ->]. split; [discriminate|].
           split; [left; now exists e | reflexivity].
        -- intros (_ & _ & [= ->]). reflexivity.
Qed.

End RetrievalFacts.

(** ** Windowing at any window size *)

Module WindowFacts.
Import Text Rag Due.

Lemma length_app (s t : string) :
  String.length (s ++ t) = String.length s + String.length t.
Proof.
  induction s as [|c s IH]; simpl; [reflexivity | now rewrite IH].
Qed.

Lemma ceil_div_small (a b : nat) : 1 <= a <= b -> ceil_div a b = 1.
Proof.
  intros H. unfold ceil_div.
  symmetry. apply (Nat.div_unique _ _ 1 (a - 1)); lia.
Qed.

Lemma ceil_div_step (a b : nat) : 0 < b -> ceil_div (b + a) b = S (ceil_div a b).
Proof.
  intros H. unfold ceil_div.
  replace (b + a + b - 1) with ((a + b - 1) + 1 * b) by lia.
  rewrite Nat.div_add by lia. lia.
Qed.

(** Windows of the right shape are as many as their text asks for. *)
Lemma windows_ok_count (max_chars : nat) (ws : list string) :
  0 < max_chars ->
  windows_ok max_chars ws ->
  List.length ws = ceil_div (String.length (join EmptyString ws)) max_chars.
Proof.
  intros Hpos.
  induction ws as [|w ws IH]; intros Hok.
  - simpl. unfold ceil_div. simpl.
    symmetry. apply Nat.div_small. lia.
  - rewrite ChunkFacts.join_cons, length_app.
    destruct ws as [|w' ws].
    + simpl in Hok. simpl. rewrite Nat.add_0_r.
      now rewrite ceil_div_small.
    + destruct Hok as [Hw Hrest].
      rewrite Hw, ceil_div_step by exact Hpos.
      simpl List.length. f_equal. now apply IH.
Qed.

(** X11: for every window size of at least 1, [_chunk_text] returns; its
    windows spell out the cleaned text, all but the last are full, and
    there are [ceil(len / max_chars)] of them. *)
Theorem chunk_text_any_size (text : string) (max_chars : nat) :
  1 <= max_chars ->
  exists ws,
    _chunk_text text max_chars = Some ws
    /\ join EmptyString ws = clean_lines text
    /\ windows_ok max_chars ws
    /\ List.length ws
       = ceil_div (String.length (clean_lines text)) max_chars.
Proof.
  intros Hpos.
  assert (Hspec : exists ws,
             _chunk_text text max_chars = Some ws
             /\ join EmptyString ws = clean_lines text
             /\ windows_ok max_chars ws).
  { unfold _chunk_text.
    destruct (String.eqb (clean_lines text) EmptyString) eqn:He.
    - apply String.eqb_eq in He. exists []. rewrite He. simpl. auto.
    - destruct (ChunkFacts.chunk_loop_spec (clean_lines text) max_chars Hpos
                  (String.length (clean_lines text)) 0 [])
        as (out & Hrun & Hjoin & Hok); [lia | lia |].
      exists out. simpl in Hrun.
      split; [exact Hrun|]. split; [|exact Hok].
      rewrite Hjoin. unfold suffix. rewrite Nat.sub_0_r.
      apply ChunkFacts.substring_whole. }
  destruct Hspec as (ws & Hrun & Hjoin & Hok).
  exists ws. repeat split; auto.
  rewrite <- Hjoin. now apply windows_ok_count.
Qed.

Lemma chunk_text_any_size_witness :
  exists ws,
    _chunk_text "abcdefg" 3 = Some ws
    /\ List.length ws = 3.
Proof.
  destruct (chunk_text_any_size "abcdefg" 3 ltac:(lia))
    as (ws & Hrun & _ & _ & Hcount).
  exists ws. split; [exact Hrun | exact Hcount].
Defined.

(** X12: with [max_chars = 0] the loop of [_chunk_text] makes no progress:
    on a text that is not blank it does not return, whatever the fuel. *)
Theorem chunk_text_zero_size_spins (text : string) :
  clean_lines text <> EmptyString ->
  (forall fuel chunks,
      chunk_loop fuel (clean_lines text) 0 0 chunks = None)
  /\ _chunk_text text 0 = None.
Proof.
  intros Hne.
  assert (Hlen : (0 <? String.length (clean_lines text)) = true).
  { apply Nat.ltb_lt. destruct (clean_lines text); [congruence | simpl; lia]. }
  assert (Hloop : forall fuel chunks,
             chunk_loop fuel (clean_lines text) 0 0 chunks = None).
  { induction fuel as [|fuel IH]; intros chunks; simpl; rewrite Hlen.
    - reflexivity.
    - rewrite Nat.min_0_r. apply IH. }
  split; [exact Hloop|].
  unfold _chunk_text.
  apply String.eqb_neq in Hne. rewrite Hne. apply Hloop.
Qed.

Lemma chunk_text_zero_size_spins_witness :
  _chunk_text "a  b" 0 = None.
Proof.
  refine (proj2 (chunk_text_zero_size_spins "a  b" _)).
  vm_compute. discriminate.
Defined.

End WindowFacts.

(** ** Evidence, in the order of the ranking *)

Module GroupingFacts.
Import Text Rag Dict Orchestrator Due DictFacts.

Lemma keys_evidence_step (by_url : dict EvidenceItem) (ch : RankedChunk) :
  keys (evidence_step by_url ch)
  = if mem (url ch) (keys by_url) then keys by_url
    else keys by_url ++ [url ch].
Proof.
  unfold evidence_step.
  destruct (get (url ch) by_url) as [item|] eqn:Hget.
  - assert (Hin : In (url ch) (keys by_url)).
    { destruct (in_dec string_dec (url ch) (keys by_url)) as [H|H]; auto.
      apply get_None_keys in H. congruence. }
    rewrite (proj2 (OrchestrateFacts.mem_In _ _) Hin).
    destruct (List.length (snippets item) <? 6); [|reflexivity].
    now apply keys_set_present.
  - assert (Hnin : ~ In (url ch) (keys by_url)) by now apply get_None_keys.
    destruct (mem (url ch) (keys by_url)) eqn:Hm.
    { apply OrchestrateFacts.mem_In in Hm. tauto. }
    cbn [snippets List.length]. change (0 <? 6) with true. cbv iota.
    rewrite keys_set_present.
    + unfold keys. now rewrite map_app.
    + unfold keys. rewrite map_app. apply in_or_app. right. now left.
Qed.

Lemma keys_fold_evidence (chunks : list RankedChunk) :
  forall by_url,
    keys (fold_left evidence_step chunks by_url)
    = fold_left (fun seen u => if mem u seen then seen else seen ++ [u])
                (map url chunks) (keys by_url).
Proof.
  induction chunks as [|ch chunks IH]; intros by_url; simpl; [reflexivity|].
  now rewrite IH, keys_evidence_step.
Qed.

(** X13: the evidence items stand in the order in which their urls first
    appear among the chunks, and each item is the one its url is grouped
    into: the title of the url's first chunk with the texts of its first
    six. *)
Theorem to_evidence_in_ranking_order (chunks : list RankedChunk) :
  map ev_url (_to_evidence chunks) = first_seen (map url chunks)
  /\ Forall (fun item => grouped (ev_url item) chunks = Some item)
            (_to_evidence chunks).
Proof.
  unfold _to_evidence, first_seen.
  assert (G : grouping (fold_left evidence_step chunks []) chunks).
  { apply (EvidenceFacts.fold_grouping chunks [] []).
    split; [constructor | reflexivity]. }
  split.
  - rewrite (EvidenceFacts.grouping_urls _ _ G).
    apply (keys_fold_evidence chunks []).
  - destruct G as [Hnd Hget].
    apply Forall_forall. intros item Hin.
    unfold values in Hin. apply in_map_iff in Hin as ([k item'] & <- & Hin).
    simpl. apply In_get in Hin; [|exact Hnd].
    rewrite Hget in Hin.
    assert (Hk : ev_url item' = k).
    { unfold grouped in Hin. destruct (of_url k chunks); [discriminate|].
      now injection Hin as <-. }
    now rewrite Hk.
Qed.

End GroupingFacts.

(** ** Web ingestion *)

Module IngestFacts.
Import Text Rag WebIngest.

Lemma ends_with_spec (s t : string) :
  ends_with s t = true <-> exists pre, s = (pre ++ t)%string.
Proof.
  induction s as [|c s IH].
  - change (ends_with EmptyString t)
      with (String.eqb EmptyString t || false).
    rewrite orb_false_r, String.eqb_eq. split.
    + intros <-. now exists EmptyString.
    + intros [[|c pre] H]; simpl in H; [auto | discriminate].
  - change (ends_with (String c s) t)
      with (String.eqb (String c s) t || ends_with s t).
    rewrite orb_true_iff, String.eqb_eq, IH. split.
    + intros [<- | [pre ->]].
      * now exists EmptyString.
      * now exists (String c pre).
    + intros [[|c' pre] H]; simpl in H.
      * now left.
      * injection H as -> ->. right. now exists pre.
Qed.

(** X14: a url passes [_allowed] exactly when the allow-list is empty, or
    its host, lower-cased, is an entry of the list (lower-cased, leading
    dots dropped) or ends with a dot followed by such an entry.  A host
    that merely ends with the letters of an entry does not pass. *)
Theorem allowed_iff_domain_or_subdomain (w : web) (url : string)
        (allowed_domains : list string) :
  _allowed w url allowed_domains = true
  <-> allowed_domains = []
      \/ exists a,
          In a allowed_domains
          /\ (_domain w url = clean_domain a
              \/ exists sub,
                  _domain w url = (sub ++ "." ++ clean_domain a)%string).
Proof.
  unfold _allowed.
  destruct allowed_domains as [|a0 rest]; [tauto|].
  set (l := a0 :: rest).
  rewrite existsb_exists. split.
  - intros (a' & Hin & Hok). right.
    apply in_map_iff in Hin as (a & <- & Hin).
    exists a. split; [exact Hin|].
    apply orb_true_iff in Hok as [Heq | Hend].
    + left. now apply String.eqb_eq.
    + right. now apply ends_with_spec.
  - intros [Hnil | (a & Hin & Hok)]; [discriminate|].
    exists (clean_domain a). split; [now apply in_map|].
    apply orb_true_iff. destruct Hok as [Heq | Hsub].
    + left. now apply String.eqb_eq.
    + right. now apply ends_with_spec.
Qed.

Lemma select_urls_inv (w : web) (allowed_domains : list string) (k : Z)
      (all_seeds : list string) :
  forall seed_urls urls,
    incl seed_urls all_seeds ->
    NoDup urls ->
    Forall (selectable w allowed_domains all_seeds) urls ->
    (Z.of_nat (List.length urls) <= Z.max (k - 1) 0)%Z ->
    let out := select_urls w allowed_domains k seed_urls urls in
    NoDup out
    /\ Forall (selectable w allowed_domains all_seeds) out
    /\ (Z.of_nat (List.length out) <= Z.max k 1)%Z.
Proof.
  induction seed_urls as [|u rest IH]; intros urls Hincl Hnd Hall Hlen; simpl.
  - repeat split; auto. lia.
  - set (urls' := if negb (String.eqb u EmptyString) && negb (mem u urls)
                     && _allowed w u allowed_domains
                  then urls ++ [u] else urls).
    assert (H' : NoDup urls'
                 /\ Forall (selectable w allowed_domains all_seeds) urls'
                 /\ (Z.of_nat (List.length urls')
                     <= Z.of_nat (List.length urls) + 1)%Z).
    { unfold urls'.
      destruct (negb (String.eqb u EmptyString) && negb (mem u urls)
                && _allowed w u allowed_domains) eqn:Hc.
      - apply andb_true_iff in Hc as [Hc Hallow].
        apply andb_true_iff in Hc as [Hne Hnew].
        apply negb_true_iff in Hne, Hnew.
        apply String.eqb_neq in Hne.
        repeat split.
        + apply NoDup_app; [exact Hnd | repeat constructor; simpl; tauto|].
          intros x Hx [<-|[]].
          apply OrchestrateFacts.mem_In in Hx. congruence.
        + apply Forall_app. split; [exact Hall|].
          constructor; [|constructor].
          repeat split; auto. apply Hincl. now left.
        + rewrite length_app. simpl. lia.
      - repeat split; auto. lia. }
    destruct H' as (Hnd' & Hall' & Hlen').
    destruct (Z.leb_spec k (Z.of_nat (List.length urls'))) as [Hfull|Hroom].
    + repeat split; auto. lia.
    + apply IH; auto.
      * intros x Hx. apply Hincl. now right.
      * lia.
Qed.

Lemma selected_urls_bounded_aux (w : web)
      (allowed_domains seed_urls : list string) (k : Z) :
  NoDup (select_urls w allowed_domains k seed_urls [])
  /\ Forall (selectable w allowed_domains seed_urls)
            (select_urls w allowed_domains k seed_urls [])
  /\ (Z.of_nat (List.length (select_urls w allowed_domains k seed_urls []))
      <= Z.max k 1)%Z.
Proof.
  apply select_urls_inv.
  - apply incl_refl.
  - constructor.
  - constructor.
  - simpl. lia.
Qed.

(** X15: the urls [fetch_pages] asks for are seed urls, none empty, each
    allowed, no url twice, and at most [k] of them, or one when [k] is
    below 1. *)
Theorem selected_urls_are_bounded (w : web)
        (allowed_domains seed_urls : list string) (k : Z) :
  NoDup (select_urls w allowed_domains k seed_urls [])
  /\ Forall (selectable w allowed_domains seed_urls)
            (select_urls w allowed_domains k seed_urls [])
  /\ (Z.of_nat (List.length (select_urls w allowed_domains k seed_urls []))
      <= Z.max k 1)%Z.
Proof.
  exact (selected_urls_bounded_aux w allowed_domains seed_urls k).
Qed.

(** X16: a budget below 1 does not stop the fetcher: the first seed url is
    still taken when it is not empty and allowed, and then no other. *)
Theorem zero_budget_takes_first_url (w : web)
        (allowed_domains : list string) (k : Z)
        (u : string) (rest : list string) :
  (k <= 0)%Z ->
  select_urls w allowed_domains k (u :: rest) []
  = if negb (String.eqb u EmptyString) && _allowed w u allowed_domains
    then [u] else [].
Proof.
  intros Hk. simpl.
  destruct (negb (String.eqb u EmptyString)); simpl;
    [destruct (_allowed w u allowed_domains); simpl|];
    destruct (Z.leb_spec k 0); destruct (Z.leb_spec k 1);
    try reflexivity; lia.
Qed.

Lemma zero_budget_takes_first_url_witness :
  select_urls Scenarios.plain_web [] 0
              ["https://a.example/x"; "https://b.example/y"] []
  = ["https://a.example/x"].
Proof.
  apply (zero_budget_takes_first_url Scenarios.plain_web [] 0). lia.
Defined.

End IngestFacts.

(** ** The text of a fetched page *)

Module CleanFacts.
Import Text Rag WebIngest.

(** *** Characters *)

Lemma linebreak_is_space (c : ascii) :
  is_linebreak c = true -> is_space c = true /\ Ascii.eqb c " " = false.
Proof.
  intros H. split.
  - unfold is_linebreak, is_space, in_range in *.
    rewrite !orb_true_iff, !andb_true_iff, !Nat.leb_le in *. lia.
  - destruct (Ascii.eqb_spec c " ") as [->|]; [|reflexivity].
    vm_compute in H. discriminate.
Qed.

(** *** [collapse_from] *)

Lemma collapse_shape (s : string) :
  forall in_run,
    only_spaces (collapse_from in_run s) = true
    /\ spec_runs_collapsed (collapse_from in_run s) = true
    /\ (in_run = true ->
        starts_with_space (collapse_from in_run s) = false).
Proof.
  induction s as [|c s IH]; intros in_run; simpl.
  - auto.
  - destruct (is_space c) eqn:Hc.
    + destruct in_run.
      * apply IH.
      * destruct (IH true) as (Ho & Hr & Hs).
        specialize (Hs eq_refl).
        split; [simpl; exact Ho|].
        split; [|discriminate].
        simpl. destruct (collapse_from true s) as [|c' r] eqn:Hu;
          [reflexivity|].
        simpl in Hs. rewrite Hs. simpl. exact Hr.
    + destruct (IH false) as (Ho & Hr & _).
      split; [simpl; rewrite Hc; simpl; exact Ho|].
      split; [|simpl; intros _; exact Hc].
      simpl. destruct (collapse_from false s) as [|c' r] eqn:Hu;
        [reflexivity|].
      rewrite Hc. simpl. exact Hr.
Qed.

(** A text that is collapsed already is left as it is. *)
Lemma collapse_fixed (s : string) :
  forall in_run,
    only_spaces s = true ->
    spec_runs_collapsed s = true ->
    (in_run = true -> starts_with_space s = false) ->
    collapse_from in_run s = s.
Proof.
  induction s as [|c s IH]; intros in_run Ho Hr Hs; [reflexivity|].
  simpl in Ho. apply andb_true_iff in Ho as [Hc Ho].
  assert (Hr' : spec_runs_collapsed s = true).
  { simpl in Hr. destruct s; [reflexivity|].
    apply andb_true_iff in Hr. tauto. }
  simpl. destruct (is_space c) eqn:Hsp.
  - destruct in_run; [specialize (Hs eq_refl); simpl in Hs; congruence|].
    simpl in Hc. apply Ascii.eqb_eq in Hc. subst c.
    f_equal. apply IH; auto.
    intros _. simpl in Hr. destruct s as [|c' r]; [reflexivity|].
    apply andb_true_iff in Hr as [Hn _].
    try rewrite Hsp in Hn. simpl in Hn. simpl.
    now apply negb_true_iff in Hn.
  - f_equal. apply IH; auto. discriminate.
Qed.

(** *** [strip] *)

Lemma lstrip_fixed (s : string) :
  starts_with_space s = false -> lstrip s = s.
Proof.
  destruct s as [|c r]; simpl; [reflexivity|]. now intros ->.
Qed.

Lemma lstrip_starts (s : string) : starts_with_space (lstrip s) = false.
Proof.
  induction s as [|c r IH]; simpl; [reflexivity|].
  destruct (is_space c) eqn:Hc; [exact IH | simpl; exact Hc].
Qed.

Lemma rstrip_starts (s : string) :
  starts_with_space s = false -> starts_with_space (rstrip s) = false.
Proof.
  destruct s as [|c r]; simpl; [reflexivity|]. intros Hc.
  destruct (rstrip r); [rewrite Hc|]; simpl; exact Hc.
Qed.

Lemma rstrip_idem (s : string) : rstrip (rstrip s) = rstrip s.
Proof.
  induction s as [|c r IH]; simpl; [reflexivity|].
  destruct (rstrip r) as [|c' r'] eqn:Hr.
  - destruct (is_space c) eqn:Hc; simpl; [reflexivity | now rewrite Hc].
  - change (rstrip (String c (String c' r')) = String c (String c' r')).
    simpl. simpl in IH. rewrite IH. reflexivity.
Qed.

Lemma strip_idem (s : string) : strip (strip s) = strip s.
Proof.
  unfold strip.
  rewrite (lstrip_fixed (rstrip (lstrip s))).
  - apply rstrip_idem.
  - apply rstrip_starts, lstrip_starts.
Qed.

Lemma only_spaces_tail (c : ascii) (r : string) :
  only_spaces (String c r) = true -> only_spaces r = true.
Proof. simpl. intros H. apply andb_true_iff in H. tauto. Qed.

Lemma runs_tail (c : ascii) (r : string) :
  spec_runs_collapsed (String c r) = true -> spec_runs_collapsed r = true.
Proof.
  simpl. destruct r; [reflexivity|].
  intros H. apply andb_true_iff in H. tauto.
Qed.

Lemma lstrip_keeps (s : string) :
  only_spaces s = true -> spec_runs_collapsed s = true ->
  only_spaces (lstrip s) = true /\ spec_runs_collapsed (lstrip s) = true.
Proof.
  induction s as [|c r IH]; intros Ho Hr; [auto|].
  simpl. destruct (is_space c); [|auto].
  apply IH; [eapply only_spaces_tail | eapply runs_tail]; eassumption.
Qed.

(** What is left of a text after [rstrip] starts as the text does. *)
Lemma rstrip_head (s : string) (c : ascii) (r : string) :
  rstrip s = String c r -> exists r0, s = String c r0.
Proof.
  destruct s as [|d s']; simpl; [discriminate|].
  destruct (rstrip s').
  - destruct (is_space d); [discriminate|].
    intros [= <- _]. now exists s'.
  - intros [= <- _]. now exists s'.
Qed.

Lemma rstrip_keeps (s : string) :
  only_spaces s = true -> spec_runs_collapsed s = true ->
  only_spaces (rstrip s) = true /\ spec_runs_collapsed (rstrip s) = true.
Proof.
  induction s as [|c r IH]; intros Ho Hr; [auto|].
  pose proof (only_spaces_tail _ _ Ho) as Ho'.
  pose proof (runs_tail _ _ Hr) as Hr'.
  destruct (IH Ho' Hr') as [Ho2 Hr2].
  simpl in Ho. apply andb_true_iff in Ho as [Hc _].
  simpl. destruct (rstrip r) as [|c' r'] eqn:Hrs.
  - destruct (is_space c) eqn:Hsp; simpl; [auto|].
    rewrite Hsp. auto.
  - split.
    + change (only_spaces (String c (String c' r')) = true).
      simpl. simpl in Ho2. now rewrite Hc, Ho2.
    + destruct (rstrip_head _ _ _ Hrs) as [r0 ->].
      change (spec_runs_collapsed (String c (String c' r')) = true).
      simpl in Hr. apply andb_true_iff in Hr as [Hn _].
      simpl. simpl in Hr2. now rewrite Hn, Hr2.
Qed.

(** X17: the text [_clean_text] returns has no run of whitespace, no
    whitespace other than single spaces, none at either end, and cleaning
    it again changes nothing. *)
Theorem clean_text_is_tidy (text : string) :
  spec_runs_collapsed (_clean_text text) = true
  /\ only_spaces (_clean_text text) = true
  /\ trimmed (_clean_text text) = true
  /\ _clean_text (_clean_text text) = _clean_text text.
Proof.
  unfold _clean_text.
  destruct (collapse_shape text false) as (Ho & Hr & _).
  destruct (lstrip_keeps _ Ho Hr) as [Ho1 Hr1].
  destruct (rstrip_keeps _ Ho1 Hr1) as [Ho2 Hr2].
  fold (strip (collapse_from false text)) in Ho2, Hr2.
  assert (Htrim : strip (strip (collapse_from false text))
                  = strip (collapse_from false text)) by apply strip_idem.
  repeat split; auto.
  - unfold trimmed. rewrite Htrim. apply String.eqb_refl.
  - rewrite collapse_fixed; auto. discriminate.
Qed.

(** *** Cleaned text and windows *)

Lemma append_assoc (a b c : string) :
  ((a ++ b) ++ c)%string = (a ++ b ++ c)%string.
Proof.
  induction a as [|x a IH]; simpl; [reflexivity | now rewrite IH].
Qed.

Lemma splitlines_from_one_line (s : string) :
  forall cur,
    only_spaces s = true ->
    splitlines_from cur s
    = match (cur ++ s)%string with
      | EmptyString => []
      | line => [line]
      end.
Proof.
  induction s as [|c r IH]; intros cur Ho.
  - simpl. rewrite ChunkFacts.append_nil_r. now destruct cur.
  - pose proof (only_spaces_tail _ _ Ho) as Ho'.
    simpl in Ho. apply andb_true_iff in Ho as [Hc _].
    assert (Hlb : is_linebreak c = false).
    { destruct (is_linebreak c) eqn:Hb; [|reflexivity].
      apply linebreak_is_space in Hb as [H1 H2].
      rewrite H1, H2 in Hc. discriminate. }
    simpl. rewrite Hlb, IH by exact Ho'.
    now rewrite append_assoc.
Qed.

(** Text cleaned by the fetcher is one line that [_chunk_text] keeps. *)
Lemma clean_lines_of_tidy (s : string) :
  only_spaces s = true -> trimmed s = true -> clean_lines s = s.
Proof.
  intros Ho Ht. unfold trimmed in Ht. apply String.eqb_eq in Ht.
  unfold clean_lines, splitlines.
  rewrite splitlines_from_one_line by exact Ho.
  simpl. destruct s as [|c r]; [reflexivity|].
  cbn [filter]. rewrite Ht. simpl. now rewrite Ht.
Qed.

Lemma cleaned_text_windows_aux (text : string) :
  clean_lines (_clean_text text) = _clean_text text
  /\ join EmptyString (windows (_clean_text text)) = _clean_text text
  /\ (windows (_clean_text text) = [] <-> _clean_text text = EmptyString).
Proof.
  assert (Hparts : only_spaces (_clean_text text) = true
                   /\ trimmed (_clean_text text) = true).
  { unfold _clean_text.
    destruct (collapse_shape text false) as (Ho & Hr & _).
    destruct (lstrip_keeps _ Ho Hr) as [Ho1 Hr1].
    destruct (rstrip_keeps _ Ho1 Hr1) as [Ho2 _].
    split; [exact Ho2|].
    unfold trimmed. rewrite strip_idem. apply String.eqb_refl. }
  destruct Hparts as (Ho & Ht).
  pose proof (clean_lines_of_tidy _ Ho Ht) as Hclean.
  destruct (ChunkFacts.chunk_text_spec (_clean_text text))
    as (ws & Hrun & Hjoin & _).
  rewrite ChunkFacts.chunk_text_returns in Hrun. injection Hrun as <-.
  rewrite Hclean in Hjoin.
  repeat split; auto.
  - intros Hnil. now rewrite Hnil in Hjoin.
  - intros Hempty. unfold windows, _chunk_text.
    now rewrite Hclean, Hempty.
Qed.

(** X18: [_chunk_text] takes nothing from a text the fetcher has cleaned:
    its windows spell out the text as it is, and there is at least one
    when the text is not empty. *)
Theorem cleaned_text_is_windowed_whole (text : string) :
  clean_lines (_clean_text text) = _clean_text text
  /\ join EmptyString (windows (_clean_text text)) = _clean_text text
  /\ (windows (_clean_text text) = [] <-> _clean_text text = EmptyString).
Proof.
  exact (cleaned_text_windows_aux text).
Qed.

End CleanFacts.

(** ** The pages handed to the ranker *)

Module PageFacts.
Import Text Rag WebIngest.

Lemma fetch_pages_flat (w : web) (seed_urls allowed_domains : list string)
      (k : Z) :
  fetch_pages w seed_urls allowed_domains k
  = flat_map (page_of w) (select_urls w allowed_domains k seed_urls []).
Proof.
  unfold fetch_pages.
  now destruct (select_urls w allowed_domains k seed_urls []).
Qed.

(** What [_fetch_one] lets through. *)
Lemma fetch_one_page (w : web) (url : string) (page : document) :
  _fetch_one w url = Some page ->
  doc_url page = url
  /\ (exists soup_text, doc_text page = _clean_text soup_text)
  /\ _MIN_TEXT_LEN <= String.length (doc_text page)
  /\ doc_title page <> Some EmptyString.
Proof.
  unfold _fetch_one.
  destruct (http_get w url) as [[status html]|e]; [|discriminate].
  destruct (400 <=? status)%Z; [discriminate|].
  destruct (readable w html) as [[soup_text short_title]|e]; [|discriminate].
  destruct (Nat.ltb_spec (String.length (_clean_text soup_text)) _MIN_TEXT_LEN)
    as [Hshort|Hlong]; [discriminate|].
  intros [= <-]. cbn [doc_url doc_text doc_title].
  repeat split; auto.
  - now exists soup_text.
  - destruct (String.eqb short_title EmptyString) eqn:He; [discriminate|].
    apply String.eqb_neq in He. congruence.
Qed.

Lemma pages_urls (w : web) (urls : list string) :
  map doc_url (flat_map (page_of w) urls)
  = filter (fun u => match _fetch_one w u with Some _ => true | None => false end)
           urls.
Proof.
  induction urls as [|u urls IH]; simpl; [reflexivity|].
  rewrite map_app, IH. unfold page_of.
  destruct (_fetch_one w u) as [page|] eqn:Hf; simpl; [|reflexivity].
  apply fetch_one_page in Hf as [-> _]. reflexivity.
Qed.

Lemma filter_length_le {A : Type} (f : A -> bool) (l : list A) :
  List.length (filter f l) <= List.length l.
Proof.
  induction l as [|x l IH]; simpl; [lia|].
  destruct (f x); simpl; lia.
Qed.

(** X19: the pages [fetch_pages] returns have distinct urls, each a seed
    url that is allowed; there are at most [k] of them (one when [k] is
    below 1); each has a cleaned text of at least 120 characters, which
    [_chunk_text] windows whole; so once a page is fetched the ranker has
    windows to rank. *)
Theorem fetched_pages_are_usable (w : web)
        (seed_urls allowed_domains : list string) (k : Z) :
  NoDup (map doc_url (fetch_pages w seed_urls allowed_domains k))
  /\ (Z.of_nat (List.length (fetch_pages w seed_urls allowed_domains k))
      <= Z.max k 1)%Z
  /\ Forall (fun page =>
               selectable w allowed_domains seed_urls (doc_url page)
               /\ 120 <= String.length (doc_text page)
               /\ join EmptyString (windows (doc_text page)) = doc_text page
               /\ windows (doc_text page) <> [])
            (fetch_pages w seed_urls allowed_domains k)
  /\ (fetch_pages w seed_urls allowed_domains k <> [] ->
      all_chunks (fetch_pages w seed_urls allowed_domains k) <> []).
Proof.
  rewrite fetch_pages_flat.
  destruct (IngestFacts.selected_urls_bounded_aux w allowed_domains seed_urls k)
    as (Hnd & Hsel & Hlen).
  set (urls := select_urls w allowed_domains k seed_urls []) in *.
  assert (Hpages : Forall (fun page =>
               selectable w allowed_domains seed_urls (doc_url page)
               /\ 120 <= String.length (doc_text page)
               /\ join EmptyString (windows (doc_text page)) = doc_text page
               /\ windows (doc_text page) <> [])
            (flat_map (page_of w) urls)).
  { apply Forall_forall. intros page Hin.
    apply in_flat_map in Hin as (u & Hu & Hpage).
    unfold page_of in Hpage.
    destruct (_fetch_one w u) as [p|] eqn:Hf; [|destruct Hpage].
    destruct Hpage as [<-|[]].
    apply fetch_one_page in Hf as (-> & [soup_text Htext] & Hmin & _).
    rewrite Forall_forall in Hsel.
    split; [now apply Hsel|].
    split; [exact Hmin|].
    destruct (CleanFacts.cleaned_text_windows_aux soup_text) as (_ & Hjoin & Hnil).
    rewrite <- Htext in Hjoin, Hnil.
    split; [exact Hjoin|].
    intros Hw. apply Hnil in Hw. rewrite Hw in Hmin.
    unfold _MIN_TEXT_LEN in Hmin. simpl in Hmin. lia. }
  split.
  { rewrite pages_urls. now apply NoDup_filter. }
  split.
  { rewrite <- (length_map doc_url), pages_urls.
    pose proof (filter_length_le
                  (fun u => match _fetch_one w u with
                            | Some _ => true | None => false end) urls).
    lia. }
  split; [exact Hpages|].
  intros Hne.
  destruct (flat_map (page_of w) urls) as [|page pages] eqn:Hfm;
    [congruence|].
  apply Forall_inv in Hpages. destruct Hpages as (_ & _ & _ & Hw).
  unfold all_chunks. simpl.
  destruct (windows (doc_text page)); [congruence | discriminate].
Qed.

End PageFacts.

(** ** The LLM call *)

Module LlmFacts.
Import Text Dict Llm.

(** *** The retry loop *)

Lemma backoff_next (n : nat) :
  backoff (S (S n)) = backoff (S n) ++ [2 ^ Z.of_nat (S n)]%Z.
Proof.
  unfold backoff. simpl Nat.sub. rewrite Nat.sub_0_r.
  replace (S n) with (n + 1) at 1 by lia.
  rewrite seq_app, map_app. reflexivity.
Qed.

Lemma on_exception_effect cfg attempt e st0 st :
  posts st0 = posts st -> retries st0 = retries st -> waits st0 = waits st ->
  attempt_effect cfg attempt st st (on_exception cfg attempt e st0).
Proof.
  intros Hp Hr Hw. unfold on_exception, attempt_effect.
  destruct (Z.ltb_spec attempt (max_retries cfg)); simpl.
  - repeat split; auto; congruence.
  - repeat split; auto.
Qed.

Lemma on_decode_error_effect cfg attempt why st0 st :
  posts st0 = posts st -> retries st0 = retries st -> waits st0 = waits st ->
  (content st0 = content st \/ exists text, content st0 = VStr text) ->
  attempt_effect cfg attempt st st (on_decode_error why st0).
Proof.
  intros Hp Hr Hw Hc. unfold on_decode_error, attempt_effect.
  destruct (py_prefix_500 (content st0)) as [e|shown] eqn:Hpre; simpl.
  - destruct Hc as [Hc | [text Hc]]; rewrite Hc in Hpre;
      [repeat split; auto | discriminate].
  - repeat split; auto.
Qed.

Lemma read_reply_effect cfg net attempt resp st0 st :
  posts st0 = posts st -> retries st0 = retries st -> waits st0 = waits st ->
  content st0 = content st ->
  attempt_effect cfg attempt st st (read_reply cfg net attempt resp st0).
Proof.
  intros Hp Hr Hw Hc. unfold read_reply.
  destruct (resp_json resp) as [why|data].
  { apply on_decode_error_effect; auto. }
  destruct (py_get data "usage" (VDict [])) as [e|u].
  { apply on_exception_effect; auto. }
  destruct (py_get u "prompt_tokens" (VInt 0)) as [e|?].
  { apply on_exception_effect; auto. }
  match goal with
  | |- context [match ?x with inl e => on_exception _ _ _ _ | inr c => _ end] =>
      destruct x as [e|c]
  end.
  { apply on_exception_effect; auto. }
  destruct c; try (apply on_exception_effect; auto).
  destruct (_extract_json (json_loads net) s) as [why|result].
  { apply on_decode_error_effect; auto. right. now exists s. }
  destruct (py_set_usage result _) as [e|result'] eqn:Hset.
  { apply on_exception_effect; auto. }
  unfold attempt_effect. simpl. repeat split; auto.
  destruct result; try discriminate. simpl in Hset.
  injection Hset as <-. do 2 eexists.
  rewrite DictFacts.get_set_same. rewrite Hr. reflexivity.
Qed.

Lemma one_attempt_effect cfg net url prompt payload attempt st :
  attempt_effect cfg attempt (posted st) st
                 (one_attempt cfg net url prompt payload attempt st).
Proof.
  unfold one_attempt.
  assert (Hshift : forall out,
             attempt_effect cfg attempt (posted st) (posted st) out ->
             attempt_effect cfg attempt (posted st) st out).
  { intros [r st']. unfold attempt_effect. simpl. auto. }
  destruct (post net url cfg prompt payload attempt) as [msg|resp].
  { apply Hshift, on_exception_effect; auto. }
  destruct (existsb (Z.eqb (status_code resp)) _RETRY_CODES
            && (attempt <? max_retries cfg)%Z) eqn:Hretry.
  { apply andb_true_iff in Hretry as [_ Hlt]. apply Z.ltb_lt in Hlt.
    unfold attempt_effect. simpl. auto. }
  destruct (Z.leb_spec 400 (status_code resp)).
  - unfold attempt_effect. simpl. repeat split; auto.
    intros Hin. apply andb_false_iff in Hretry as [Hno | Hlt].
    + exfalso. apply Bool.not_true_iff_false in Hno. apply Hno.
      apply existsb_exists. exists (status_code resp). split; auto.
      apply Z.eqb_refl.
    + now apply Z.ltb_ge in Hlt.
  - apply Hshift, read_reply_effect; auto.
Qed.


Lemma attempts_effect cfg net url prompt payload :
  forall remaining attempt st,
    on_schedule attempt st ->
    Z.of_nat remaining = Z.max 0 (max_retries cfg + 1 - attempt) ->
    let out := attempts cfg net url prompt payload remaining attempt st in
    posts (snd out) <= posts st + remaining
    /\ (remaining = 0 -> out = (inl (Exhausted (last_err st)), st))
    /\ (0 < remaining -> loop_effect cfg st out
                         /\ forall e, fst out <> inl (Exhausted e)).
Proof.
  induction remaining as [|remaining IH]; intros attempt st Hs Hrel.
  { simpl. repeat split; auto; lia. }
  destruct Hs as (Hp & Hr & Hw & Hc).
  cbn [attempts].
  pose proof (one_attempt_effect cfg net url prompt payload attempt st)
    as Heff.
  destruct (one_attempt cfg net url prompt payload attempt st)
    as [[result|e|] st1]; unfold attempt_effect in Heff;
    cbn [fst snd posted posts retries waits] in Heff; cbv zeta.
  - destruct Heff as (Hp1 & Hr1 & Hw1 & tokens & latency & Hu).
    cbn [snd fst].
    split; [lia|]. split; [discriminate|]. intros _.
    split; [|discriminate].
    unfold loop_effect. cbn [snd fst].
    split; [now rewrite Hw1, Hp1|]. split; [lia|].
    exists tokens, latency.
    replace (Z.of_nat (posts st1) - 1)%Z with (retries st) by lia.
    exact Hu.
  - destruct Heff as (Hp1 & Hr1 & Hw1 & He).
    cbn [snd fst].
    split; [lia|]. split; [discriminate|]. intros _.
    split; [|intros e0 Heq; injection Heq as ->; contradiction].
    unfold loop_effect. cbn [snd fst].
    split; [now rewrite Hw1, Hp1|].
    destruct e; try contradiction.
    + destruct He as (H400 & Hlast). split; auto. intros Hin.
      specialize (Hlast Hin). lia.
    + lia.
    + destruct He as (-> & Hlast & Herr). repeat split; auto. lia.
    + destruct He as (Hsame & He).
      destruct (posts st) as [|n] eqn:Hn.
      { rewrite (Hc eq_refl) in He. discriminate. }
      split; [lia|]. now rewrite Hsame.
  - destruct Heff as (Hlt & Hp1 & Hr1 & Hw1).
    assert (Hs1 : on_schedule (attempt + 1) st1).
    { unfold on_schedule. rewrite Hp1, Hr1, Hw1, Hw, backoff_next.
      repeat split; try lia; try discriminate.
      do 3 f_equal. lia. }
    assert (Hrel1 : Z.of_nat remaining
                    = Z.max 0 (max_retries cfg + 1 - (attempt + 1))) by lia.
    specialize (IH (attempt + 1)%Z st1 Hs1 Hrel1).
    cbv zeta in IH. destruct IH as (Hle & Hzero & Hpos).
    assert (Hrem : 0 < remaining) by lia.
    destruct (Hpos Hrem) as (Hloop & Hne).
    split; [lia|]. split; [discriminate|]. intros _.
    split; [|assumption].
    destruct (attempts cfg net url prompt payload remaining (attempt + 1) st1)
      as [[err|result] st'].
    + unfold loop_effect in *. cbn [fst snd] in *.
      destruct err; auto. exfalso. now apply (Hne last_err0).
    + exact Hloop.
Qed.

Lemma start_on_schedule : on_schedule 1 start.
Proof. unfold on_schedule. simpl. repeat split; reflexivity. Qed.

Lemma loop_from_start cfg net url prompt payload :
  let out := attempts cfg net url prompt payload
                      (Z.to_nat (max_retries cfg)) 1 start in
  posts (snd out) <= Z.to_nat (max_retries cfg)
  /\ ((max_retries cfg <= 0)%Z -> out = (inl (Exhausted None), start))
  /\ ((0 < max_retries cfg)%Z -> loop_effect cfg start out
                         /\ forall e, fst out <> inl (Exhausted e)).
Proof.
  pose proof (attempts_effect cfg net url prompt payload
                (Z.to_nat (max_retries cfg)) 1 start start_on_schedule) as H.
  cbv zeta in *. destruct H as (Hle & Hzero & Hpos); [lia|].
  split; [exact Hle|]. split.
  - intros Hm. apply Hzero. lia.
  - intros Hm. apply Hpos. lia.
Qed.

(** The ways through [call_llm_json]. *)
Lemma call_effect net prompt payload cfg :
  let out := call_llm_json net prompt payload cfg in
  (provider cfg = "stub" /\ out = (inr (stub_reply prompt payload), start))
  \/ (provider cfg <> "stub" /\ ~ accepted cfg
      /\ (out = (inl (UnknownProvider (provider cfg)), start)
          \/ out = (inl MissingApiKey, start)))
  \/ (accepted cfg /\ (max_retries cfg <= 0)%Z
      /\ out = (inl (Exhausted None), start))
  \/ (accepted cfg /\ (0 < max_retries cfg)%Z
      /\ posts (snd out) <= Z.to_nat (max_retries cfg)
      /\ loop_effect cfg start out
      /\ forall e, fst out <> inl (Exhausted e)).
Proof.
  unfold call_llm_json, accepted.
  destruct (String.eqb_spec (provider cfg) "stub") as [|Hstub]; [now left|].
  right.
  destruct (get (provider cfg) _PROVIDER_URLS) eqn:Hprov.
  2: { left. repeat split; auto. intros (_ & (url & Hurl) & _). discriminate. }
  destruct (api_key cfg) as [[|c k]|] eqn:Hkey.
  1, 3: left; repeat split; auto;
    intros (_ & _ & c & k & Hk); discriminate.
  right.
  assert (Hacc : provider cfg <> "stub"
                 /\ (exists url, Some s = Some url)
                 /\ exists c0 k0, Some (String c k) = Some (String c0 k0)).
  { repeat split; eauto. }
  pose proof (loop_from_start cfg net (endpoint cfg) prompt payload) as Hl.
  cbv zeta in *. destruct Hl as (Hle & Hzero & Hpos).
  destruct (Z.le_gt_cases (max_retries cfg) 0) as [Hm | Hm].
  - left. auto.
  - right. repeat split; try apply Hacc; try lia; apply Hpos; lia.
Qed.

(** X20: whatever the network does, [call_llm_json] sends at most
    [max_retries] requests, and between them it has slept 2, 4, 8, ...
    seconds: [2 ** attempt] after each attempt but the last one made.  In
    stub mode, and when the configuration is rejected (unknown provider,
    no API key), it sends nothing and does not sleep. *)
Theorem requests_are_bounded (net : network) (prompt : string)
        (payload : dict value) (cfg : LLMConfig) :
  posts (snd (call_llm_json net prompt payload cfg))
  <= Z.to_nat (max_retries cfg)
  /\ waits (snd (call_llm_json net prompt payload cfg))
     = backoff (posts (snd (call_llm_json net prompt payload cfg)))
  /\ (provider cfg = "stub"
      \/ get (provider cfg) _PROVIDER_URLS = None
      \/ api_key cfg = None
      \/ api_key cfg = Some EmptyString ->
      posts (snd (call_llm_json net prompt payload cfg)) = 0
      /\ waits (snd (call_llm_json net prompt payload cfg)) = []).
Proof.
  pose proof (call_effect net prompt payload cfg) as H. cbv zeta in H.
  assert (Hrej : provider cfg = "stub"
                 \/ get (provider cfg) _PROVIDER_URLS = None
                 \/ api_key cfg = None
                 \/ api_key cfg = Some EmptyString ->
                 ~ (provider cfg <> "stub" /\ accepted cfg)).
  { intros Hcfg (Hstub & _ & (url & Hurl) & c & k & Hkey).
    destruct Hcfg as [Hs | [Hp | [Hk | Hk]]]; congruence. }
  destruct H as [(_ & ->) | [(_ & _ & [-> | ->]) | [(_ & _ & ->) | H]]];
    try (split; [simpl; lia|]; split; [reflexivity|];
         intros _; split; reflexivity).
  destruct H as (Hacc & _ & Hle & Hloop & _).
  split; [exact Hle|]. split; [exact (proj1 Hloop)|].
  intros Hcfg. exfalso. apply (Hrej Hcfg). split; [apply Hacc | exact Hacc].
Qed.

(** X21: a result that a provider other than the stub returns carries
    an entry [_usage] whose [retries] is the number of requests made less
    one. *)
Theorem usage_counts_retries (net : network) (prompt : string)
        (payload : dict value) (cfg : LLMConfig)
        (result : dict value) (st : progress) :
  provider cfg <> "stub" ->
  call_llm_json net prompt payload cfg = (inr result, st) ->
  1 <= posts st
  /\ exists tokens latency,
       get "_usage" result
       = Some (VDict [("tokens", tokens); ("latency_ms", VInt latency);
                      ("retries", VInt (Z.of_nat (posts st) - 1))]).
Proof.
  intros Hstub Hcall.
  pose proof (call_effect net prompt payload cfg) as H. cbv zeta in H.
  rewrite Hcall in H.
  destruct H as [(H & _) | [(_ & _ & [H | H]) | [(_ & _ & H) | H]]];
    try contradiction; try discriminate.
  destruct H as (_ & _ & _ & Hloop & _). apply Hloop.
Qed.

Lemma usage_counts_retries_witness :
  provider LlmScenarios.grok <> "stub"
  /\ exists result st,
       call_llm_json LlmScenarios.busy_once "prompt" [] LlmScenarios.grok
       = (inr result, st)
       /\ posts st = 2
       /\ 1 <= posts st
       /\ exists tokens latency,
            get "_usage" result
            = Some (VDict [("tokens", tokens); ("latency_ms", VInt latency);
                           ("retries", VInt (Z.of_nat (posts st) - 1))]).
Proof.
  split; [discriminate|].
  do 2 eexists. split; [vm_compute; reflexivity|]. split; [reflexivity|].
  apply (usage_counts_retries LlmScenarios.busy_once "prompt" []
                              LlmScenarios.grok).
  - discriminate.
  - vm_compute. reflexivity.
Defined.

(** X22: [call_llm_json] raises "LLM exhausted retries" exactly when its
    configuration is accepted and [max_retries] is zero or less; it has
    then sent nothing, and the error it names is [None]. *)
Theorem exhausted_iff_no_turns (net : network) (prompt : string)
        (payload : dict value) (cfg : LLMConfig)
        (e : option cause) (st : progress) :
  call_llm_json net prompt payload cfg = (inl (Exhausted e), st)
  <-> accepted cfg /\ (max_retries cfg <= 0)%Z /\ e = None /\ st = start.
Proof.
  pose proof (call_effect net prompt payload cfg) as H. cbv zeta in H.
  split.
  - intros Hcall. rewrite Hcall in H.
    destruct H as [(_ & H) | [(_ & _ & [H | H]) | [(Hacc & Hm & H) | H]]];
      try discriminate.
    + injection H as -> ->. auto.
    + destruct H as (_ & _ & _ & _ & Hne). exfalso. now apply (Hne e).
  - intros (Hacc & Hm & -> & ->).
    destruct H as [(Hs & _) | [(_ & Hn & _) | [(_ & _ & H) | (_ & H & _)]]];
      try assumption; try lia; try contradiction.
    destruct Hacc as (Hacc & _). contradiction.
Qed.

(** X23: when [call_llm_json] raises for an HTTP status, the status is 400
    or more, and a status it retries on (429, 500, 502, 503, 504) is
    reported only by the last attempt, all [max_retries] requests sent. *)
Theorem retry_status_is_reported_last (net : network) (prompt : string)
        (payload : dict value) (cfg : LLMConfig)
        (code : Z) (body : string) (st : progress) :
  call_llm_json net prompt payload cfg = (inl (HttpStatus code body), st) ->
  (400 <= code)%Z
  /\ (In code _RETRY_CODES -> Z.of_nat (posts st) = max_retries cfg).
Proof.
  intros Hcall.
  pose proof (call_effect net prompt payload cfg) as H. cbv zeta in H.
  rewrite Hcall in H.
  destruct H as [(_ & H) | [(_ & _ & [H | H]) | [(_ & _ & H) | H]]];
    try discriminate.
  destruct H as (_ & _ & _ & Hloop & _). apply Hloop.
Qed.

Lemma retry_status_is_reported_last_witness :
  call_llm_json LlmScenarios.always_busy "prompt" [] LlmScenarios.grok
  = (inl (HttpStatus 503 "Service Unavailable"),
     mkProgress 2 (VStr EmptyString) None 3 [2; 4]%Z)
  /\ (400 <= 503)%Z
  /\ (In 503%Z _RETRY_CODES
      -> Z.of_nat (posts (mkProgress 2 (VStr EmptyString) None 3 [2; 4]%Z))
         = max_retries LlmScenarios.grok).
Proof.
  split; [vm_compute; reflexivity|].
  apply (retry_status_is_reported_last LlmScenarios.always_busy "prompt" []
           LlmScenarios.grok 503 "Service Unavailable").
  vm_compute. reflexivity.
Defined.

(** X24: "LLM call failed after N attempts" is raised with N the
    configured [max_retries], after exactly N requests, for the exception
    of the last one. *)
Theorem call_failed_after_all_attempts (net : network) (prompt : string)
        (payload : dict value) (cfg : LLMConfig)
        (n : Z) (c : cause) (st : progress) :
  call_llm_json net prompt payload cfg = (inl (CallFailed n c), st) ->
  n = max_retries cfg /\ Z.of_nat (posts st) = n /\ last_err st = Some c.
Proof.
  intros Hcall.
  pose proof (call_effect net prompt payload cfg) as H. cbv zeta in H.
  rewrite Hcall in H.
  destruct H as [(_ & H) | [(_ & _ & [H | H]) | [(_ & _ & H) | H]]];
    try discriminate.
  destruct H as (_ & _ & _ & Hloop & _). apply Hloop.
Qed.

Lemma call_failed_after_all_attempts_witness :
  call_llm_json LlmScenarios.unreachable "prompt" [] LlmScenarios.grok
  = (inl (CallFailed 3 (NetworkError "All connection attempts failed")),
     mkProgress 2 (VStr EmptyString)
                (Some (NetworkError "All connection attempts failed"))
                3 [2; 4]%Z)
  /\ 3%Z = max_retries LlmScenarios.grok
  /\ Z.of_nat (posts (mkProgress 2 (VStr EmptyString)
                        (Some (NetworkError "All connection attempts failed"))
                        3 [2; 4]%Z)) = 3%Z
  /\ last_err (mkProgress 2 (VStr EmptyString)
                 (Some (NetworkError "All connection attempts failed"))
                 3 [2; 4]%Z)
     = Some (NetworkError "All connection attempts failed").
Proof.
  split; [vm_compute; reflexivity|].
  apply (call_failed_after_all_attempts LlmScenarios.unreachable "prompt" []
           LlmScenarios.grok).
  vm_compute. reflexivity.
Defined.

(** X25: an exception that is not an [LLMError] leaves [call_llm_json]
    only from the second attempt on: it is the one that slicing the
    content of an earlier reply raises, when a later reply is not JSON. *)
Theorem escape_needs_second_attempt (net : network) (prompt : string)
        (payload : dict value) (cfg : LLMConfig)
        (e : py_error) (st : progress) :
  call_llm_json net prompt payload cfg = (inl (Escaped e), st) ->
  2 <= posts st /\ py_prefix_500 (content st) = inl e.
Proof.
  intros Hcall.
  pose proof (call_effect net prompt payload cfg) as H. cbv zeta in H.
  rewrite Hcall in H.
  destruct H as [(_ & H) | [(_ & _ & [H | H]) | [(_ & _ & H) | H]]];
    try discriminate.
  destruct H as (_ & _ & _ & Hloop & _). apply Hloop.
Qed.

Lemma escape_needs_second_attempt_witness :
  call_llm_json LlmScenarios.object_then_page "prompt" [] LlmScenarios.grok
  = (inl (Escaped (BadSlice (VDict []))),
     mkProgress 1 (VDict [])
                (Some (PyError (AttributeError (VDict []) "strip")))
                2 [2]%Z)
  /\ 2 <= posts (mkProgress 1 (VDict [])
                   (Some (PyError (AttributeError (VDict []) "strip")))
                   2 [2]%Z)
  /\ py_prefix_500
       (content (mkProgress 1 (VDict [])
                   (Some (PyError (AttributeError (VDict []) "strip")))
                   2 [2]%Z))
     = inl (BadSlice (VDict [])).
Proof.
  split; [vm_compute; reflexivity|].
  apply (escape_needs_second_attempt LlmScenarios.object_then_page "prompt" []
           LlmScenarios.grok).
  vm_compute. reflexivity.
Defined.

(** *** Code fences *)

Lemma index_newline_app (lang rest : string) :
  index_newline lang = None ->
  index_newline (lang ++ newline ++ rest) = Some (String.length lang).
Proof.
  induction lang as [|c lang IH]; intros H; [reflexivity|].
  cbn [index_newline] in H. cbn [append index_newline String.length].
  destruct (code c =? 10); [discriminate|].
  destruct (index_newline lang); [discriminate|].
  now rewrite IH.
Qed.

Lemma index_newline_none_app (a b : string) :
  index_newline a = None -> index_newline b = None ->
  index_newline (a ++ b) = None.
Proof.
  induction a as [|c a IH]; intros Ha Hb; [exact Hb|].
  cbn [index_newline] in Ha. cbn [append index_newline].
  destruct (code c =? 10); [discriminate|].
  destruct (index_newline a); [discriminate|].
  now rewrite IH.
Qed.

Lemma substring_app_left (a b : string) :
  substring 0 (String.length a) (a ++ b) = a.
Proof. induction a as [|c a IH]; simpl; [now destruct b | now rewrite IH]. Qed.

Lemma substring_app_right (a b : string) :
  substring (String.length a) (String.length b) (a ++ b) = b.
Proof.
  induction a as [|c a IH]; simpl; [|exact IH].
  induction b as [|c b IHb]; simpl; [reflexivity | now rewrite IHb].
Qed.

Lemma suffix_app (a b : string) : suffix (a ++ b) (String.length a) = b.
Proof.
  unfold suffix. rewrite WindowFacts.length_app.
  replace (String.length a + String.length b - String.length a)
    with (String.length b) by lia.
  apply substring_app_right.
Qed.

Lemma ends_with_app (a t : string) : WebIngest.ends_with (a ++ t) t = true.
Proof.
  induction a as [|c a IH].
  - simpl. destruct t; simpl; [reflexivity|].
    now rewrite Ascii.eqb_refl, String.eqb_refl.
  - change (WebIngest.ends_with (String c a ++ t) t)
      with (String.eqb (String c (a ++ t)) t || WebIngest.ends_with (a ++ t) t).
    rewrite IH. apply orb_true_r.
Qed.

Lemma index_newline_fence (s : string) :
  index_newline (fence ++ s)
  = match index_newline s with Some i => Some (3 + i) | None => None end.
Proof.
  change (fence ++ s)%string with (String "`" (String "`" (String "`" s))).
  cbn [index_newline].
  change (code "`" =? 10) with false. cbv iota.
  now destruct (index_newline s).
Qed.

(** What [_extract_json] does with a fenced text whose fence line ends at
    character [first_nl]. *)
Lemma unfence_steps (text opening body : string) :
  strip text = (fence ++ opening ++ body ++ fence)%string ->
  match index_newline (fence ++ opening ++ body ++ fence) with
  | Some i => i
  | None => 3
  end + 1 = 3 + String.length opening ->
  unfence text = strip body.
Proof.
  intros Htext Hnl. unfold unfence. rewrite Htext.
  rewrite (proj2 (prefix_correct fence _) (substring_app_left fence _)).
  rewrite Hnl.
  replace (fence ++ opening ++ body ++ fence)%string
    with ((fence ++ opening) ++ body ++ fence)%string
    by apply CleanFacts.append_assoc.
  replace (3 + String.length opening)
    with (String.length (fence ++ opening))
    by (now rewrite WindowFacts.length_app).
  rewrite suffix_app, ends_with_app, WindowFacts.length_app.
  replace (String.length body + String.length fence - 3)
    with (String.length body) by (simpl; lia).
  now rewrite substring_app_left.
Qed.

(** X26: a text that, blanks around it apart, is a fence line (three
    backticks and a language tag), a body and three closing backticks is
    read as its body: [_extract_json] hands [json.loads] the body without
    the blanks around it. *)
Theorem fenced_body_is_extracted (text lang body : string) :
  strip text = (fence ++ lang ++ newline ++ body ++ fence)%string ->
  index_newline lang = None ->
  unfence text = strip body.
Proof.
  intros Htext Hlang.
  apply (unfence_steps text (lang ++ newline) body).
  - now rewrite Htext, CleanFacts.append_assoc.
  - rewrite CleanFacts.append_assoc, index_newline_fence.
    rewrite (index_newline_app lang (body ++ fence) Hlang).
    rewrite WindowFacts.length_app. simpl. lia.
Qed.

Lemma fenced_body_is_extracted_witness :
  strip LlmScenarios.fenced_list
  = (fence ++ "json" ++ newline ++ ("[1, 2]" ++ newline) ++ fence)%string
  /\ index_newline "json" = None
  /\ unfence LlmScenarios.fenced_list = "[1, 2]".
Proof.
  split; [reflexivity|]. split; [reflexivity|].
  apply (fenced_body_is_extracted LlmScenarios.fenced_list "json"
                                  ("[1, 2]" ++ newline)); reflexivity.
Defined.

(** X27: of a fenced text on one line, [_extract_json] drops the
    character after the opening fence with it: [json.loads] gets the body
    from its second character on. *)
Theorem one_line_fence_loses_a_character (text : string) (c : ascii)
        (body : string) :
  strip text = (fence ++ String c body ++ fence)%string ->
  index_newline (String c body) = None ->
  unfence text = strip body.
Proof.
  intros Htext Hline.
  apply (unfence_steps text (String c EmptyString) body).
  - exact Htext.
  - rewrite index_newline_fence.
    change (String c EmptyString ++ body ++ fence)%string
      with (String c body ++ fence)%string.
    now rewrite (index_newline_none_app (String c body) fence Hline eq_refl).
Qed.

Lemma one_line_fence_loses_a_character_witness :
  strip LlmScenarios.one_line_fence = (fence ++ "[1, 2]" ++ fence)%string
  /\ index_newline "[1, 2]" = None
  /\ unfence LlmScenarios.one_line_fence = "1, 2]".
Proof.
  split; [reflexivity|]. split; [reflexivity|].
  apply (one_line_fence_loses_a_character LlmScenarios.one_line_fence
           "[" "1, 2]"); reflexivity.
Defined.

End LlmFacts.

(** ** The pipeline over the stub provider *)

Module StubFacts.
Import Text Dict Classifier Orchestrator DictFacts.

Lemma awaited_stub (str_of : Llm.llm_error -> string) (net : Llm.network)
      (cfg : Llm.LLMConfig) (prompt : string) (payload : dict value) :
  Llm.provider cfg = "stub" ->
  Llm.awaited str_of net cfg prompt payload
  = Ok (Llm.stub_reply prompt payload).
Proof.
  intros H. unfold Llm.awaited, Llm.call_llm_json. now rewrite H.
Qed.

Lemma Forall_set {V : Type} (P : string * V -> Prop) (k : string) (v : V)
      (d : dict V) :
  Forall P d -> P (k, v) -> Forall P (set k v d).
Proof.
  intros Hd Hv. induction Hd as [|[k' v'] d Hk Hd IH]; simpl.
  - repeat constructor. exact Hv.
  - destruct (String.eqb k k'); constructor; auto.
Qed.

Lemma Forall_gather (P : string * dict value -> Prop)
      (tasks : dict (result (dict value))) :
  forall results,
    Forall P results ->
    Forall (fun task => P (fst task, slot_of (snd task))) tasks ->
    Forall P (gather_into results tasks).
Proof.
  induction tasks as [|[name outcome] tasks IH]; intros results Hr Ht.
  - exact Hr.
  - rewrite OrchestrateFacts.gather_step.
    inversion Ht as [|? ? Hhere Hrest]; subst.
    apply IH; [|exact Hrest]. now apply Forall_set.
Qed.

Section Stubbed.
Variables (E : env) (str_of : Llm.llm_error -> string).
Variables (net : Llm.network) (cfg : Llm.LLMConfig).
Hypothesis Hllm : call_llm_json E = Llm.awaited str_of net cfg.
Hypothesis Hstub : Llm.provider cfg = "stub".

(** The slot of an agent that the stub answered. *)
Let stubbed (entry : string * dict value) : Prop :=
  exists prompt payload,
    get (fst entry) PROMPTS = Some prompt
    /\ snd entry = Llm.stub_reply prompt payload.

Lemma run_agent_stub (name : string) (profile : dict value)
      (ev : list EvidenceItem) (up : option (dict value)) :
  name = "travel" \/ name = "financial" \/ name = "health" ->
  exists out,
    run_agent E name profile ev up = Ok out /\ stubbed (name, out).
Proof.
  intros Hname.
  assert (Hcall : forall p q,
             call_llm_json E p q = Ok (Llm.stub_reply p q)).
  { intros p q. rewrite Hllm. now apply awaited_stub. }
  unfold run_agent.
  destruct Hname as [-> | [-> | ->]]; simpl; rewrite Hcall;
    eexists; (split; [reflexivity|]); do 2 eexists; split; reflexivity.
Qed.

Lemma fan_out_stub (profile : dict value) (domains seeds : list string)
      (k : Z) (st : staged) :
  stages_0_3 E profile domains seeds k = Ok st ->
  Forall stubbed (fan_out E profile st).
Proof.
  intros Hst. unfold fan_out. apply Forall_gather.
  - revert Hst. unfold stages_0_3, bind.
    destruct (get_or "message" (VStr EmptyString) profile)
      as [| | | |message| |]; try discriminate.
    destruct (rank_evidence _ _ _ _ _ _) as [evid|msg]; [|discriminate].
    destruct (mem "travel" (classify_query message)).
    + destruct (run_agent_stub "travel" profile (get_or "travel" [] evid) None)
        as (out & Hrun & Hout); [auto|].
      rewrite Hrun. intros [= <-]. simpl. repeat constructor. exact Hout.
    + intros [= <-]. constructor.
  - unfold concurrent_tasks.
    destruct (run_agent_stub "financial" profile
                (get_or "finance" [] (st_evidence st)) (st_travel_out st))
      as (fin & Hfin & Hf); [auto|].
    destruct (run_agent_stub "health" profile
                (get_or "health" [] (st_evidence st)) (st_travel_out st))
      as (hea & Hhea & Hh); [auto|].
    rewrite Hfin, Hhea.
    destruct (mem "financial" (st_active st)), (mem "health" (st_active st));
      simpl; repeat constructor; assumption.
Qed.

Lemma detect_stub (results : dict (dict value)) :
  Forall stubbed results -> _detect_conflicts results = Ok [].
Proof.
  intros Hall.
  assert (Hrisk : forall acc, risk_loop results acc = Ok acc).
  { induction Hall as [|[name slot] rest (p & q & _ & Hs) Hrest IH];
      intros acc; [reflexivity|].
    simpl in Hs. subst slot. simpl. rewrite app_nil_r. apply IH. }
  assert (Hconf : forall acc, confidence_loop results acc = Ok acc).
  { clear Hrisk. induction Hall as [|[name slot] rest (p & q & _ & Hs) Hrest IH];
      intros acc; [reflexivity|].
    simpl in Hs. subst slot. simpl. apply IH. }
  assert (Hfin : get "plan" (get_or "financial" [] results) = None).
  { unfold get_or. destruct (@get (list (string * value)) "financial" results)
      as [fin|] eqn:Hg;
      [|reflexivity].
    apply get_In in Hg. rewrite Forall_forall in Hall.
    destruct (Hall _ Hg) as (p & q & _ & Hs). simpl in Hs. now subst fin. }
  unfold _detect_conflicts, bind.
  unfold get_or at 1. rewrite Hfin. simpl. rewrite Hrisk. apply Hconf.
Qed.

End Stubbed.

(** X28: with the stub provider every agent is answered by the stub, so
    a response carries no warning, and each active agent's slot is the
    stub's reply to that agent's prompt; without seed urls, and with a
    message that is a string, there always is a response. *)
Theorem stub_mode_is_quiet (E : env) (str_of : Llm.llm_error -> string)
        (net : Llm.network) (cfg : Llm.LLMConfig) (profile : dict value)
        (domains seeds : list string) (k : Z) :
  call_llm_json E = Llm.awaited str_of net cfg ->
  Llm.provider cfg = "stub" ->
  (forall resp,
      orchestrate E profile domains seeds k = Ok resp ->
      conflicts resp = []
      /\ forall name,
          In name (active_agents resp) ->
          exists prompt payload,
            get name PROMPTS = Some prompt
            /\ get name (slots resp)
               = Some (Llm.stub_reply prompt payload))
  /\ (seeds = [] ->
      (exists message,
          get_or "message" (VStr EmptyString) profile = VStr message) ->
      exists resp, orchestrate E profile domains seeds k = Ok resp).
Proof.
  intros Hllm Hstub. split.
  - intros resp Hresp.
    destruct (PipelineFacts.orchestrate_inv _ _ _ _ _ _ Hresp)
      as (st & cs & Hst & Hcs & ->).
    pose proof (fan_out_stub E str_of net cfg Hllm Hstub _ _ _ _ _ Hst)
      as Hall.
    rewrite (detect_stub _ Hall) in Hcs. injection Hcs as <-.
    cbn [conflicts active_agents slots]. split; [reflexivity|].
    intros name Hin.
    destruct (OrchestrateFacts.active_has_slot _ _ _ _ _ _ _ Hst Hin)
      as [slot Hslot].
    rewrite Hslot. apply get_In in Hslot.
    rewrite Forall_forall in Hall.
    destruct (Hall _ Hslot) as (prompt & payload & Hp & Hs).
    simpl in Hp, Hs. subst slot. now exists prompt, payload.
  - intros -> [message Hmsg].
    assert (Hst : exists st, stages_0_3 E profile domains [] k = Ok st).
    { unfold stages_0_3, bind. rewrite Hmsg.
      rewrite PipelineFacts.rank_evidence_no_pages.
      destruct (mem "travel" (classify_query message)); [|eauto].
      destruct (run_agent_stub E str_of net cfg Hllm Hstub "travel" profile
                  (get_or "travel" []
                     (fold_left
                        (fun ev a => set (get_or a a topic_map) [] ev)
                        (classify_query message) []))
                  None) as (out & Hrun & _); [auto|].
      rewrite Hrun. eauto. }
    destruct Hst as [st Hst].
    rewrite (OrchestrateFacts.orchestrate_unfold _ _ _ _ _ _ Hst).
    rewrite (detect_stub _ (fan_out_stub E str_of net cfg Hllm Hstub
                                         _ _ _ _ _ Hst)).
    simpl. eauto.
Qed.

Lemma stub_mode_is_quiet_witness :
  exists resp,
    orchestrate LlmScenarios.stubbed Scenarios.japan_trip [] [] 12 = Ok resp
    /\ active_agents resp = ["travel"; "financial"]
    /\ conflicts resp = [].
Proof.
  destruct (stub_mode_is_quiet LlmScenarios.stubbed (fun _ => "LLMError")
              LlmScenarios.unreachable LlmScenarios.stub
              Scenarios.japan_trip [] [] 12 eq_refl eq_refl)
    as [Hquiet Hreturns].
  destruct (Hreturns eq_refl (ex_intro _ "Plan a trip to Japan" eq_refl))
    as [resp Hresp].
  exists resp. split; [exact Hresp|].
  split; [|exact (proj1 (Hquiet resp Hresp))].
  vm_compute in Hresp. injection Hresp as <-. reflexivity.
Defined.

End StubFacts.
